(** * The document tree engine of n1ght-mcp

    A shallow embedding of the path, enumeration, summary and search
    operations of [JSONHandler] (src/modules/jsoneditor/jsoneditor.js) and
    of the search of [YAMLHandler] (src/modules/yaml/yaml.js), with the part
    of the JavaScript object model these operations rely on; of the path
    operations the YAML, TOML and XML handlers share and of the XML search;
    and of the two stateful modules of the server, the todo tools and
    [SequentialThinking].

    The handlers mutate the parsed document in place and return it.  A
    parsed document is a tree without sharing, so a mutation is modelled by
    the tree that results from it, rebuilt along the path that was walked.
    Strings are sequences of one-byte characters: lengths, offsets and
    lower-casing are those of ASCII text. *)

From Stdlib Require Import String Ascii List ZArith NArith Bool Lia.
From Stdlib Require Import DecimalString DecimalN DecimalZ DecimalFacts.
Import ListNotations.

Local Open Scope string_scope.
Local Open Scope list_scope.

(** ** JavaScript values and the operators the handlers use *)

Module JS.

(** A value as [JSON.parse] produces it, plus [undefined].  An object keeps
    its own enumerable properties in [for ... in] order; an array keeps its
    elements, [None] being a hole (what [delete arr[i]] leaves behind).
    Numbers are the integers, printed in decimal; no operation below looks
    at a fraction. *)
#[warnings="-register-all"]
Inductive value : Type :=
| VUndefined
| VNull
| VBool (b : bool)
| VNumber (n : Z)
| VString (s : string)
| VArray (items : list (option value))
| VObject (props : list (string * value)).

(** What the engine raises.  [Failed prefix cause] is the
    [new Error(`${prefix}: ${error.message}`)] of the handlers' catch
    blocks. *)
Inductive error : Type :=
| TypeError
| SyntaxError
| Error (message : string)
| Failed (prefix : string) (cause : error).

(** The result of running a piece of the program: it returns, it throws, or
    it leaves the modelled fragment of the language ([Unmodelled]: a
    property inherited from a prototype, a named property of an array, a
    call into the JSONPath library). *)
Inductive outcome (A : Type) : Type :=
| Returned (a : A)
| Threw (e : error)
| Unmodelled.

Arguments Returned {A} a.
Arguments Threw {A} e.
Arguments Unmodelled {A}.

Definition bind {A B : Type} (m : outcome A) (k : A -> outcome B) : outcome B :=
  match m with
  | Returned a => k a
  | Threw e => Threw e
  | Unmodelled => Unmodelled
  end.

Notation "x <- m ;; k" := (bind m (fun x => k))
  (at level 61, m at next level, right associativity).

(** [try { body } catch (error) { throw new Error(`${prefix}: ...`) }] *)
Definition rethrow {A : Type} (prefix : string) (body : outcome A)
  : outcome A :=
  match body with
  | Threw e => Threw (Failed prefix e)
  | other => other
  end.

(** *** Strings *)

Definition string_of_N (n : N) : string :=
  NilZero.string_of_uint (N.to_uint n).

Definition string_of_nat (n : nat) : string := string_of_N (N.of_nat n).

Definition string_of_Z (z : Z) : string :=
  NilZero.string_of_int (Z.to_int z).

(** [s] between double quotes. *)
Definition quoted (s : string) : string :=
  let q := String (ascii_of_nat 34) EmptyString in q ++ s ++ q.

(** [s.startsWith(p)] *)
Fixpoint startsWith (p s : string) : bool :=
  match p, s with
  | EmptyString, _ => true
  | String a p', String b s' => Ascii.eqb a b && startsWith p' s'
  | String _ _, EmptyString => false
  end.

(** [text.includes(term)] *)
Fixpoint includes (text term : string) : bool :=
  startsWith term text ||
  match text with
  | EmptyString => false
  | String _ rest => includes rest term
  end.

Definition lower_ascii (c : ascii) : ascii :=
  let n := nat_of_ascii c in
  if (65 <=? n)%nat && (n <=? 90)%nat then ascii_of_nat (n + 32) else c.

(** [s.toLowerCase()], on the ASCII letters. *)
Fixpoint toLowerCase (s : string) : string :=
  match s with
  | EmptyString => EmptyString
  | String c rest => String (lower_ascii c) (toLowerCase rest)
  end.

(** [s.split(sep)] for a one-character separator: never the empty list. *)
Fixpoint split (sep : ascii) (s : string) : list string :=
  match s with
  | EmptyString => [EmptyString]
  | String c rest =>
      if Ascii.eqb c sep then EmptyString :: split sep rest
      else match split sep rest with
           | seg :: segs => String c seg :: segs
           | [] => [String c EmptyString]
           end
  end.

(** [s.substring(0, n)] *)
Fixpoint substring0 (n : nat) (s : string) : string :=
  match n, s with
  | S n', String c rest => String c (substring0 n' rest)
  | _, _ => EmptyString
  end.

(** *** Types and truthiness *)

Definition typeof (v : value) : string :=
  match v with
  | VUndefined => "undefined"
  | VNull => "object"
  | VBool _ => "boolean"
  | VNumber _ => "number"
  | VString _ => "string"
  | VArray _ => "object"
  | VObject _ => "object"
  end.

Definition truthy (v : value) : bool :=
  match v with
  | VUndefined | VNull => false
  | VBool b => b
  | VNumber n => negb (n =? 0)%Z
  | VString s => negb (String.eqb s "")
  | VArray _ | VObject _ => true
  end.

(** [typeof v === 'object' && v !== null] *)
Definition is_object (v : value) : bool :=
  match v with VArray _ | VObject _ => true | _ => false end.

(** *** Property keys *)

(** A key is an array index when it is the canonical decimal form of an
    integer below 2^32 - 1. *)
Definition array_index (key : string) : option N :=
  match NilZero.uint_of_string key with
  | Some u =>
      let n := N.of_uint u in
      if String.eqb (string_of_N n) key && (n <? 4294967295)%N
      then Some n else None
  | None => None
  end.

(** The properties every object inherits from [Object.prototype]. *)
Definition object_prototype_keys : list string :=
  [ "constructor"; "__defineGetter__"; "__defineSetter__"; "hasOwnProperty";
    "__lookupGetter__"; "__lookupSetter__"; "isPrototypeOf";
    "propertyIsEnumerable"; "toString"; "valueOf"; "__proto__";
    "toLocaleString" ].

(** The properties an array inherits from [Array.prototype] (ECMAScript
    2023), besides those of [Object.prototype]. *)
Definition array_prototype_keys : list string :=
  [ "at"; "concat"; "copyWithin"; "fill"; "find"; "findIndex"; "findLast";
    "findLastIndex"; "lastIndexOf"; "pop"; "push"; "reverse"; "shift";
    "unshift"; "slice"; "sort"; "splice"; "includes"; "indexOf"; "join";
    "keys"; "entries"; "values"; "forEach"; "filter"; "flat"; "flatMap";
    "map"; "every"; "some"; "reduce"; "reduceRight"; "toReversed";
    "toSorted"; "toSpliced"; "with" ].

Definition mem (key : string) (keys : list string) : bool :=
  existsb (String.eqb key) keys.

Definition inherited_by_object (key : string) : bool :=
  mem key object_prototype_keys.

Definition inherited_by_array (key : string) : bool :=
  mem key array_prototype_keys || mem key object_prototype_keys.

(** *** Own properties of an object *)

Fixpoint own (props : list (string * value)) (key : string) : option value :=
  match props with
  | [] => None
  | (k, v) :: rest => if String.eqb k key then Some v else own rest key
  end.

(** Overwrite the value of a property that exists; its place is kept. *)
Fixpoint overwrite (props : list (string * value)) (key : string) (x : value)
  : list (string * value) :=
  match props with
  | [] => []
  | (k, v) :: rest =>
      if String.eqb k key then (k, x) :: rest
      else (k, v) :: overwrite rest key x
  end.

(** A new index key goes among the index keys, in ascending order. *)
Fixpoint insert_index (n : N) (key : string) (x : value)
  (props : list (string * value)) : list (string * value) :=
  match props with
  | [] => [(key, x)]
  | (k, v) :: rest =>
      match array_index k with
      | Some m =>
          if (m <? n)%N then (k, v) :: insert_index n key x rest
          else (key, x) :: props
      | None => (key, x) :: props
      end
  end.

(** [props[key] = x] on the own properties: an existing key keeps its
    place, a new index key is sorted in, any other new key comes last. *)
Definition define (props : list (string * value)) (key : string) (x : value)
  : list (string * value) :=
  match own props key with
  | Some _ => overwrite props key x
  | None =>
      match array_index key with
      | Some n => insert_index n key x props
      | None => props ++ [(key, x)]
      end
  end.

Fixpoint remove (props : list (string * value)) (key : string)
  : list (string * value) :=
  match props with
  | [] => []
  | (k, v) :: rest =>
      if String.eqb k key then rest else (k, v) :: remove rest key
  end.

(** *** Elements of an array *)

Definition is_some {A : Type} (o : option A) : bool :=
  match o with Some _ => true | None => false end.

Definition element (items : list (option value)) (i : N) : option value :=
  match nth_error items (N.to_nat i) with
  | Some (Some v) => Some v
  | _ => None
  end.

(** [items[i] = x]: in range the element is replaced, out of range the
    array grows and the gap is filled with holes. *)
Fixpoint store (items : list (option value)) (i : nat) (x : option value)
  : list (option value) :=
  match items, i with
  | [], O => [x]
  | [], S i' => None :: store [] i' x
  | _ :: rest, O => x :: rest
  | y :: rest, S i' => y :: store rest i' x
  end.

(** [delete items[i]]: the element becomes a hole, the length stays. *)
Fixpoint punch (items : list (option value)) (i : nat) : list (option value) :=
  match items, i with
  | [], _ => []
  | _ :: rest, O => None :: rest
  | y :: rest, S i' => y :: punch rest i'
  end.

(** *** The property operators, in strict mode (class bodies are strict) *)

(** [key in current] *)
Definition has_property (current : value) (key : string) : outcome bool :=
  match current with
  | VObject props =>
      match own props key with
      | Some _ => Returned true
      | None => Returned (inherited_by_object key)
      end
  | VArray items =>
      match array_index key with
      | Some i => Returned (is_some (element items i))
      | None => Returned (String.eqb key "length" || inherited_by_array key)
      end
  | _ => Threw TypeError
  end.

(** [current[key]] *)
Definition get_property (current : value) (key : string) : outcome value :=
  match current with
  | VObject props =>
      match own props key with
      | Some v => Returned v
      | None => if inherited_by_object key then Unmodelled
                else Returned VUndefined
      end
  | VArray items =>
      match array_index key with
      | Some i =>
          Returned match element items i with
                   | Some v => v
                   | None => VUndefined
                   end
      | None =>
          if String.eqb key "length"
          then Returned (VNumber (Z.of_nat (length items)))
          else if inherited_by_array key then Unmodelled
          else Returned VUndefined
      end
  | VUndefined | VNull => Threw TypeError
  | _ => Unmodelled
  end.

(** The length that [items.length = x] asks for: the number [x] is, or the
    number a String of decimal digits converts to, when it is a whole number
    below 2^32.  The RangeError of the engine on any other number, and the
    conversion of any other value, are left outside the model. *)
Definition to_length (x : value) : outcome nat :=
  match x with
  | VNumber n =>
      if (0 <=? n)%Z && (n <? 4294967296)%Z then Returned (Z.to_nat n)
      else Unmodelled
  | VString s =>
      match NilZero.uint_of_string s with
      | Some u =>
          if (N.of_uint u <? 4294967296)%N
          then Returned (N.to_nat (N.of_uint u)) else Unmodelled
      | None => Unmodelled
      end
  | _ => Unmodelled
  end.

(** [items.length = n]: a shorter length drops the elements from [n] on, a
    longer one adds holes. *)
Definition resize (items : list (option value)) (n : nat)
  : list (option value) :=
  firstn n items ++ repeat None (n - length items).

(** [current[key] = x]; the result is [current] after the assignment.  On
    an array, a key that is neither an index nor [length] would become a
    named property, which the arrays of this model do not have; on an
    object, the key [__proto__], unless it is an own property, reaches the
    setter inherited from [Object.prototype]. *)
Definition set_property (current : value) (key : string) (x : value)
  : outcome value :=
  match current with
  | VObject props =>
      match own props key with
      | Some _ => Returned (VObject (overwrite props key x))
      | None =>
          if String.eqb key "__proto__" then Unmodelled
          else Returned (VObject (define props key x))
      end
  | VArray items =>
      match array_index key with
      | Some i => Returned (VArray (store items (N.to_nat i) (Some x)))
      | None =>
          if String.eqb key "length"
          then n <- to_length x ;; Returned (VArray (resize items n))
          else Unmodelled
      end
  | _ => Threw TypeError
  end.

(** [delete current[key]]; the result is [current] after the deletion. *)
Definition delete_property (current : value) (key : string) : outcome value :=
  match current with
  | VObject props => Returned (VObject (remove props key))
  | VArray items =>
      match array_index key with
      | Some i => Returned (VArray (punch items (N.to_nat i)))
      | None => if String.eqb key "length" then Threw TypeError
                else Returned current
      end
  | VUndefined | VNull => Threw TypeError
  | VString _ => Unmodelled
  | VBool _ | VNumber _ => Returned current
  end.

(** The object [parent] once the value held at [key], which the walk has
    mutated in place into [child], is read back through [parent]. *)
Definition with_child (parent : value) (key : string) (child : value) : value :=
  match parent with
  | VObject props => VObject (overwrite props key child)
  | VArray items =>
      match array_index key with
      | Some i =>
          VArray (if is_some (element items i)
                  then store items (N.to_nat i) (Some child) else items)
      | None => parent
      end
  | _ => parent
  end.

(** [String(v)].  An object that has a property [toString] of its own, a
    piece of data and no function, cannot be converted. *)
Fixpoint String_of (v : value) {struct v} : outcome string :=
  match v with
  | VUndefined => Returned "undefined"
  | VNull => Returned "null"
  | VBool b => Returned (if b then "true" else "false")
  | VNumber n => Returned (string_of_Z n)
  | VString s => Returned s
  | VObject props =>
      match own props "toString" with
      | Some _ => Threw TypeError
      | None => Returned "[object Object]"
      end
  | VArray items =>
      (fix join (rest : list (option value)) : outcome string :=
         match rest with
         | [] => Returned ""
         | item :: rest' =>
             head <- match item with
                     | Some VNull | Some VUndefined | None => Returned ""
                     | Some v => String_of v
                     end ;;
             match rest' with
             | [] => Returned head
             | _ => tail <- join rest' ;; Returned (head ++ "," ++ tail)%string
             end
         end) items
  end.

(** *** Regular expressions

    A compiled pattern is known by its matcher: [re_match text i] is the end
    offset of the match found when the pattern is applied at offset [i], if
    there is one.  The handlers compile with the global flag, so the pattern
    object carries [lastIndex] from one [test] to the next. *)
Record RegExp : Type := { re_match : string -> nat -> option nat }.

(** The scan of RegExpBuiltinExec: try offset [i], then the offsets to its
    right, [fuel] of them. *)
Fixpoint exec_scan (re : RegExp) (text : string) (fuel i : nat) : option nat :=
  match re_match re text i with
  | Some e => Some e
  | None =>
      match fuel with
      | O => None
      | S fuel' => exec_scan re text fuel' (S i)
      end
  end.

(** [re.test(text)] for a global pattern whose [lastIndex] is given: the
    answer and the new [lastIndex]. *)
Definition test (re : RegExp) (text : string) (lastIndex : nat) : bool * nat :=
  if (String.length text <? lastIndex)%nat then (false, O)
  else match exec_scan re text (String.length text - lastIndex) lastIndex with
       | Some e => (true, e)
       | None => (false, O)
       end.

Fixpoint drop (n : nat) (s : string) : string :=
  match n, s with
  | S n', String _ rest => drop n' rest
  | _, _ => s
  end.

(** The pattern a source without metacharacters compiles to: it matches
    its own text, and with the [i] flag its own text in any case. *)
Definition literal (source : string) (ignoreCase : bool) : RegExp :=
  {| re_match := fun text i =>
       let fold := fun s => if ignoreCase then toLowerCase s else s in
       if (i <=? String.length text)%nat
          && startsWith (fold source) (fold (drop i text))
       then Some (i + String.length source)%nat else None |}.

End JS.

(** ** The JSON handler (src/modules/jsoneditor/jsoneditor.js) *)

Module JSONHandler.
Import JS.

(** *** getValue *)

(** The loop [for (const key of keys)] of [getValue]. *)
Fixpoint getValue_loop (current : value) (keys : list string) : outcome value :=
  match keys with
  | [] => Returned current
  | key :: rest =>
      if truthy current && String.eqb (typeof current) "object" then
        present <- has_property current key ;;
        if (present : bool) then
          next <- get_property current key ;;
          getValue_loop next rest
        else Returned VUndefined
      else Returned VUndefined
  end.

Definition getValue (obj : value) (path : string) : outcome value :=
  rethrow "Failed to get value"
    (if startsWith "$" path then Unmodelled
     else getValue_loop obj (split "." path)).

(** *** setValue *)

(** [!(key in current) || typeof current[key] !== 'object'] *)
Definition not_an_object_at (current : value) (key : string) : outcome bool :=
  present <- has_property current key ;;
  if (present : bool) then
    held <- get_property current key ;;
    Returned (negb (String.eqb (typeof held) "object"))
  else Returned true.

(** The loop over [keys[0 .. length - 2]] of [setValue] followed by the
    assignment to the last key; the result is [current] as the mutation
    leaves it.  With no key at all, [keys[-1]] is [undefined]. *)
Fixpoint setValue_loop (current : value) (keys : list string) (value : value)
  : outcome JS.value :=
  match keys with
  | [] => set_property current "undefined" value
  | [last] => set_property current last value
  | key :: rest =>
      fresh <- not_an_object_at current key ;;
      current' <- (if (fresh : bool) then set_property current key (VObject [])
                   else Returned current) ;;
      next <- get_property current' key ;;
      next' <- setValue_loop next rest value ;;
      Returned (with_child current' key next')
  end.

Definition setValue (obj : value) (path : string) (value : value)
  : outcome JS.value :=
  rethrow "Failed to set value"
    (if startsWith "$" path
     then Threw (Error ("Use dot notation for setting values (e.g., "
                        ++ quoted "user.name" ++ ")"))
     else setValue_loop obj (split "." path) value).

(** *** deleteValue *)

(** The loop of [deleteValue] followed by the [delete]: [None] is the early
    [return obj] (path does not exist), [Some] is [current] as the deletion
    leaves it. *)
Fixpoint deleteValue_loop (current : value) (keys : list string)
  : outcome (option value) :=
  match keys with
  | [] =>
      current' <- delete_property current "undefined" ;;
      Returned (Some current')
  | [last] =>
      current' <- delete_property current last ;;
      Returned (Some current')
  | key :: rest =>
      missing <- not_an_object_at current key ;;
      if (missing : bool) then Returned None
      else
        next <- get_property current key ;;
        done <- deleteValue_loop next rest ;;
        Returned (option_map (with_child current key) done)
  end.

Definition deleteValue (obj : value) (path : string) : outcome value :=
  rethrow "Failed to delete value"
    (done <- deleteValue_loop obj (split "." path) ;;
     Returned (match done with Some obj' => obj' | None => obj end)).

(** *** getAllKeys *)

(** [prefix ? `${prefix}[${i}]` : `[${i}]`] *)
Definition itemPath (prefix : string) (i : nat) : string :=
  if truthy (VString prefix) then prefix ++ "[" ++ string_of_nat i ++ "]"
  else "[" ++ string_of_nat i ++ "]".

(** [prefix ? `${prefix}.${key}` : key] *)
Definition keyPath (prefix key : string) : string :=
  if truthy (VString prefix) then prefix ++ "." ++ key else key.

(** [prefix ? `${prefix}[...${n} more items]` : `[...${n} more items]`] *)
Definition moreItems (prefix : string) (n : nat) : string :=
  if truthy (VString prefix)
  then prefix ++ "[..." ++ string_of_nat n ++ " more items]"
  else "[..." ++ string_of_nat n ++ " more items]".

(** The [for] loop of the array branch: [rest] is what is left of the array
    from index [i] on, [bound] is [Math.min(obj.length, 10)], and [nested]
    is the recursive call. *)
Fixpoint getAllKeys_items (nested : value -> string -> list string)
  (prefix : string) (bound : nat) (rest : list (option value)) (i : nat)
  : list string :=
  match rest with
  | [] => []
  | item :: rest' =>
      if (i <? bound)%nat then
        let itemPrefix := itemPath prefix i in
        [itemPrefix]
        ++ match item with
           | Some child =>
               if is_object child then nested child itemPrefix else []
           | None => []
           end
        ++ getAllKeys_items nested prefix bound rest' (S i)
      else []
  end.

(** The [for ... in] loop of the object branch. *)
Fixpoint getAllKeys_props (nested : value -> string -> list string)
  (prefix : string) (rest : list (string * value)) : list string :=
  match rest with
  | [] => []
  | (key, child) :: rest' =>
      let fullKey := keyPath prefix key in
      [fullKey]
      ++ (if is_object child then nested child fullKey else [])
      ++ getAllKeys_props nested prefix rest'
  end.

Fixpoint getAllKeys (obj : value) (prefix : string) (maxDepth currentDepth : Z)
  {struct obj} : list string :=
  if (maxDepth <=? currentDepth)%Z || negb (truthy obj)
     || negb (String.eqb (typeof obj) "object")
  then []
  else
    let nested := fun child prefix' =>
      getAllKeys child prefix' maxDepth (currentDepth + 1) in
    match obj with
    | VArray items =>
        getAllKeys_items nested prefix (Nat.min (length items) 10) items O
        ++ (if (10 <? length items)%nat
            then [moreItems prefix (length items - 10)] else [])
    | VObject props => getAllKeys_props nested prefix props
    | _ => []
    end.

(** *** getStructure *)

(** The descriptor returned at the depth boundary. *)
Definition boundary (data : value) : value :=
  match data with
  | VArray items =>
      VString ("[Array(" ++ string_of_nat (length items) ++ ")]")%string
  | VObject props =>
      VString ("{Object with " ++ string_of_nat (length props) ++ " keys}")
  | _ => VString (typeof data)
  end.

(** [result[key] = x] on the object literal being filled: a data property
    is created or overwritten, except that the key [__proto__], unless
    already an own property, reaches the inherited setter and creates
    none. *)
Definition fill (result : list (string * value)) (key : string) (x : value)
  : list (string * value) :=
  match own result key with
  | Some _ => overwrite result key x
  | None => if String.eqb key "__proto__" then result else define result key x
  end.

(** [data.slice(0, n).map(callback)]: the shapes, a hole staying a hole,
    and the calls the callbacks made. *)
Fixpoint getStructure_sample (callback : value -> value * list Z)
  (rest : list (option value)) (n : nat) : list (option value) * list Z :=
  match rest, n with
  | item :: rest', S n' =>
      let '(shape, here) :=
        match item with
        | Some child => let '(s, c) := callback child in (Some s, c)
        | None => (None, [])
        end in
      let '(shapes, later) := getStructure_sample callback rest' n' in
      (shape :: shapes, here ++ later)
  | _, _ => ([], [])
  end.

(** [for (const key of keys.slice(0, n)) result[key] = callback(data[key])] *)
Fixpoint getStructure_fields (callback : value -> value * list Z)
  (rest : list (string * value)) (n : nat)
  (result : list (string * value)) (calls : list Z)
  : list (string * value) * list Z :=
  match rest, n with
  | (key, child) :: rest', S n' =>
      let '(s, c) := callback child in
      getStructure_fields callback rest' n' (fill result key s) (calls ++ c)
  | _, _ => (result, calls)
  end.

(** [getStructure], together with the [currentDepth] of every call made,
    the call itself first. *)
Fixpoint getStructure_calls (data : value) (maxDepth currentDepth : Z)
  {struct data} : value * list Z :=
  if (maxDepth <=? currentDepth)%Z then (boundary data, [currentDepth])
  else
    let callback := fun item =>
      getStructure_calls item maxDepth (currentDepth + 1) in
    match data with
    | VNull | VUndefined => (data, [currentDepth])
    | VArray items =>
        match items with
        | [] => (VArray [], [currentDepth])
        | _ =>
            let '(sample, calls) := getStructure_sample callback items 3 in
            let size := string_of_nat (length items) in
            let label :=
              if (3 <? length items)%nat
              then ("Array(" ++ size ++ ") - Sample:")%string
              else ("Array(" ++ size ++ "):")%string in
            (VArray [Some (VString label); Some (VArray sample)],
             currentDepth :: calls)
        end
    | VObject props =>
        let '(result, calls) := getStructure_fields callback props 20 [] [] in
        let result :=
          if (20 <? length props)%nat
          then fill result "..."
                 (VString (string_of_nat (length props - 20) ++ " more keys"))
          else result in
        (VObject result, currentDepth :: calls)
    | _ => (VString (typeof data), [currentDepth])
    end.

Definition getStructure (data : value) (maxDepth currentDepth : Z) : value :=
  fst (getStructure_calls data maxDepth currentDepth).

(** *** getPreview *)

Definition getPreview (value : JS.value) : JS.value :=
  match value with
  | VString s =>
      if (100 <? String.length s)%nat
      then VString (substring0 100 s ++ "...") else value
  | VArray items => VString ("Array(" ++ string_of_nat (length items) ++ ")")
  | VObject props =>
      VString ("Object(" ++ string_of_nat (length props) ++ " keys)")
  | VUndefined => VString "undefined"
  | VNull => VString "null"
  | VBool b => VString (if b then "true" else "false")
  | VNumber n => VString (string_of_Z n)
  end.

(** *** searchKeyword *)

Record options : Type := {
  searchKeys : bool;
  searchValues : bool;
  caseSensitive : bool;
  regex : bool;
  maxResults : Z
}.

(** The defaults of the destructuring in [searchKeyword]. *)
Definition defaults : options :=
  {| searchKeys := true; searchValues := true; caseSensitive := false;
     regex := false; maxResults := 100 |}.

(** One element of [results]. *)
Record result : Type := {
  type : string;
  path : string;
  key : string;
  value : JS.value
}.

(** [searchPattern]: the keyword itself, or the pattern compiled from it. *)
Inductive term : Type :=
| Keyword (keyword : string)
| Pattern (re : RegExp).

(** What the walk mutates: the [results] array and the [lastIndex] of the
    compiled pattern. *)
Record state : Type := {
  results : list result;
  lastIndex : nat
}.

Definition push (r : result) (st : state) : state :=
  {| results := results st ++ [r]; lastIndex := lastIndex st |}.

Section Search.

(** [new RegExp(keyword, flags)] of the engine: the compiled pattern, or the
    SyntaxError of a malformed source. *)
Variable RegExp_new : string -> string -> outcome RegExp.

Variable opts : options.

(** The closure [matches]: the answer and the state after the test. *)
Definition matches (text : string) (t : term) (st : state) : bool * state :=
  match t with
  | Keyword keyword =>
      (if caseSensitive opts then includes text keyword
       else includes (toLowerCase text) (toLowerCase keyword), st)
  | Pattern re =>
      let '(found, next) := test re text (lastIndex st) in
      (found, {| results := results st; lastIndex := next |})
  end.

(** The body of the [for (const key in current)] loop up to the recursion:
    the key test, then the value test. *)
Definition visit (searchPattern : term) (fullPath key : string)
  (value : JS.value) (st : state) : state :=
  let st :=
    if searchKeys opts then
      let '(found, st) := matches key searchPattern st in
      if (found : bool)
      then push {| type := "key"; path := fullPath; key := key;
                   value := getPreview value |} st
      else st
    else st in
  if searchValues opts then
    match value with
    | VString text =>
        let '(found, st) := matches text searchPattern st in
        if (found : bool)
        then push {| type := "value"; path := fullPath; key := key;
                     value := value |} st
        else st
    | _ => st
    end
  else st.

(** The [for] loop over the elements of an array.  A hole reads as
    [undefined], on which [search] returns at once. *)
Fixpoint search_items (search : JS.value -> string -> state -> state)
  (path : string) (rest : list (option JS.value)) (i : nat) (st : state)
  : state :=
  match rest with
  | [] => st
  | item :: rest' =>
      search_items search path rest' (S i)
        (match item with
         | Some child => search child (itemPath path i) st
         | None => st
         end)
  end.

(** The [for ... in] loop over the keys of an object. *)
Fixpoint search_props (searchPattern : term)
  (search : JS.value -> string -> state -> state)
  (path : string) (rest : list (string * JS.value)) (st : state) : state :=
  match rest with
  | [] => st
  | (key, value) :: rest' =>
      let fullPath := keyPath path key in
      let st := visit searchPattern fullPath key value st in
      search_props searchPattern search path rest'
        (if is_object value then search value fullPath st else st)
  end.

(** The closure [search]. *)
Fixpoint search (searchPattern : term) (current : JS.value) (path : string)
  (st : state) {struct current} : state :=
  if (maxResults opts <=? Z.of_nat (length (results st)))%Z then st
  else if negb (truthy current) || negb (String.eqb (typeof current) "object")
  then st
  else
    match current with
    | VArray items => search_items (search searchPattern) path items O st
    | VObject props =>
        search_props searchPattern (search searchPattern) path props st
    | _ => st
    end.

Definition searchKeyword (obj : JS.value) (keyword : string)
  : outcome (list result) :=
  rethrow "Search failed"
    (searchPattern <-
       (if regex opts
        then re <- RegExp_new keyword
                     (if caseSensitive opts then "g" else "gi") ;;
             Returned (Pattern re)
        else Returned (Keyword keyword)) ;;
     Returned (results (search searchPattern obj ""
                          {| results := []; lastIndex := O |}))).

End Search.

End JSONHandler.

(** ** The YAML handler (src/modules/yaml/yaml.js): searchKeyword *)

Module YAMLHandler.
Import JS.

Definition options := JSONHandler.options.
Definition defaults := JSONHandler.defaults.
Definition getPreview := JSONHandler.getPreview.
Definition itemPath := JSONHandler.itemPath.
Definition keyPath := JSONHandler.keyPath.

(** One element of [results]. *)
Record result : Type := {
  type : string;
  path : string;
  key : string;
  value : JS.value;
  matchType : string
}.

Record state : Type := {
  results : list result;
  lastIndex : nat
}.

Definition push (r : result) (st : state) : state :=
  {| results := results st ++ [r]; lastIndex := lastIndex st |}.

Section Search.

Variable RegExp_new : string -> string -> outcome RegExp.

Variable opts : options.

Definition matches (text : string) (t : JSONHandler.term) (st : state)
  : bool * state :=
  match t with
  | JSONHandler.Keyword keyword =>
      (if JSONHandler.caseSensitive opts then includes text keyword
       else includes (toLowerCase text) (toLowerCase keyword), st)
  | JSONHandler.Pattern re =>
      let '(found, next) := test re text (lastIndex st) in
      (found, {| results := results st; lastIndex := next |})
  end.

(** The body of the [for (const key in current)] loop up to the recursion;
    the value test is made on [String(value)], whatever the value. *)
Definition visit (searchPattern : JSONHandler.term) (fullPath key : string)
  (value : JS.value) (st : state) : outcome state :=
  let st :=
    if JSONHandler.searchKeys opts then
      let '(found, st) := matches key searchPattern st in
      if (found : bool)
      then push {| type := "key"; path := fullPath; key := key;
                   value := getPreview value; matchType := "key" |} st
      else st
    else st in
  if JSONHandler.searchValues opts then
    stringValue <- String_of value ;;
    let '(found, st) := matches stringValue searchPattern st in
    Returned (if (found : bool)
              then push {| type := "value"; path := fullPath; key := key;
                           value := value; matchType := "value" |} st
              else st)
  else Returned st.

Fixpoint search_items (search : JS.value -> string -> state -> outcome state)
  (path : string) (rest : list (option JS.value)) (i : nat) (st : state)
  : outcome state :=
  match rest with
  | [] => Returned st
  | item :: rest' =>
      st <- match item with
            | Some child => search child (itemPath path i) st
            | None => Returned st
            end ;;
      search_items search path rest' (S i) st
  end.

Fixpoint search_props (searchPattern : JSONHandler.term)
  (search : JS.value -> string -> state -> outcome state)
  (path : string) (rest : list (string * JS.value)) (st : state)
  : outcome state :=
  match rest with
  | [] => Returned st
  | (key, value) :: rest' =>
      let fullPath := keyPath path key in
      st <- visit searchPattern fullPath key value st ;;
      st <- (if is_object value then search value fullPath st
             else Returned st) ;;
      search_props searchPattern search path rest' st
  end.

Fixpoint search (searchPattern : JSONHandler.term) (current : JS.value)
  (path : string) (st : state) {struct current} : outcome state :=
  if (JSONHandler.maxResults opts <=? Z.of_nat (length (results st)))%Z
  then Returned st
  else if negb (truthy current) || negb (String.eqb (typeof current) "object")
  then Returned st
  else
    match current with
    | VArray items => search_items (search searchPattern) path items O st
    | VObject props =>
        search_props searchPattern (search searchPattern) path props st
    | _ => Returned st
    end.

Definition searchKeyword (obj : JS.value) (keyword : string)
  : outcome (list result) :=
  rethrow "Search failed"
    (searchPattern <-
       (if JSONHandler.regex opts
        then re <- RegExp_new keyword
                     (if JSONHandler.caseSensitive opts then "g" else "gi") ;;
             Returned (JSONHandler.Pattern re)
        else Returned (JSONHandler.Keyword keyword)) ;;
     st <- search searchPattern obj "" {| results := []; lastIndex := O |} ;;
     Returned (results st)).

End Search.

End YAMLHandler.

(** ** Specification-level definitions and the inputs of the scenarios *)

Module Spec.
Import JS.

(** [assign] as the specification words it, on a Mapping: walk all segments
    but the last; where the next node is missing or is not a Mapping, put a
    fresh empty Mapping in its place; set the last segment to the value.
    The Mapping is stored as the object is, so setting a key is
    [JS.define]. *)
Fixpoint assign (mapping : list (string * value)) (keys : list string)
  (v : value) : list (string * value) :=
  match keys with
  | [] => mapping
  | [last] => define mapping last v
  | key :: rest =>
      let next :=
        match own mapping key with
        | Some (VObject m) => m
        | _ => []
        end in
      define mapping key (VObject (assign next rest v))
  end.

(** The walk of [keys] from a Mapping meets only Mappings, scalars and
    missing entries, and no property of [Object.prototype]. *)
Fixpoint plain_route (mapping : list (string * value)) (keys : list string)
  : bool :=
  match keys with
  | [] => false
  | [last] => is_some (own mapping last) || negb (String.eqb last "__proto__")
  | key :: rest =>
      match own mapping key with
      | Some (VObject m) => plain_route m rest
      | Some (VArray _) | Some VNull => false
      | Some _ => plain_route [] rest
      | None => negb (inherited_by_object key) && plain_route [] rest
      end
  end.

(** The path [keys] does not exist in a Mapping: its walk, through Mappings
    only, stops at a missing entry or at a scalar, or reaches a Mapping that
    does not hold the last segment. *)
Fixpoint absent (mapping : list (string * value)) (keys : list string) : bool :=
  match keys with
  | [] => false
  | [last] => negb (is_some (own mapping last))
  | key :: rest =>
      match own mapping key with
      | Some (VObject m) => absent m rest
      | Some (VArray _) | Some VNull => false
      | Some _ => true
      | None => negb (inherited_by_object key)
      end
  end.

(** An element of a Sequence that is no Mapping and no Sequence, or a
    hole. *)
Definition scalar (item : option value) : bool :=
  match item with
  | Some v => negb (is_object v)
  | None => true
  end.

(** The paths one element of a Sequence contributes: its bracket path, then
    the paths below it. *)
Definition item_paths (prefix : string) (maxDepth currentDepth : Z)
  (entry : nat * option value) : list string :=
  let itemPrefix := JSONHandler.itemPath prefix (fst entry) in
  itemPrefix ::
  match snd entry with
  | Some child =>
      if is_object child
      then JSONHandler.getAllKeys child itemPrefix maxDepth (currentDepth + 1)
      else []
  | None => []
  end.

(** The paths one entry of a Mapping contributes: its dotted path, then the
    paths below it. *)
Definition key_paths (prefix : string) (maxDepth currentDepth : Z)
  (entry : string * value) : list string :=
  let fullKey := JSONHandler.keyPath prefix (fst entry) in
  fullKey ::
  (if is_object (snd entry)
   then JSONHandler.getAllKeys (snd entry) fullKey maxDepth (currentDepth + 1)
   else []).

End Spec.

Module Scenario.
Import JS.

Definition num (n : Z) : option value := Some (VNumber n).
Definition str (s : string) : option value := Some (VString s).

(** The engine's [RegExp] on the sources made of letters and digits only,
    which compile to literal patterns. *)
Definition word_char (c : ascii) : bool :=
  let n := nat_of_ascii c in
  ((48 <=? n) && (n <=? 57) || (65 <=? n) && (n <=? 90)
   || (97 <=? n) && (n <=? 122))%nat.

Fixpoint word (s : string) : bool :=
  match s with
  | EmptyString => true
  | String c rest => word_char c && word rest
  end.

Definition RegExp_new (source flags : string) : outcome RegExp :=
  if word source then Returned (literal source (includes flags "i"))
  else Unmodelled.

(** [{"name":"widget","tags":["red","blue"]}] *)
Definition widget : value :=
  VObject [("name", VString "widget");
           ("tags", VArray [str "red"; str "blue"])].

(** [[1,2,3]] *)
Definition one_two_three : list (option value) := [num 1; num 2; num 3].

(** [{"a":{"b":[1,2,3]}}] *)
Definition nested : value :=
  VObject [("a", VObject [("b", VArray one_two_three)])].

(** [{"a":null}] *)
Definition null_child : value := VObject [("a", VNull)].

(** [{"aa":"aa"}] *)
Definition twice : value := VObject [("aa", VString "aa")].

(** [{"x":"a","y":"a"}] *)
Definition same_text : value :=
  VObject [("x", VString "a"); ("y", VString "a")].

(** [[0,1,...,11]] *)
Definition dozen : list (option value) :=
  List.map (fun n => num (Z.of_nat n)) (seq 0 12).

End Scenario.

(** ** Paths the model does not answer for *)

Module Route.
Import JS.

(** Where the model of [setValue] gives no answer: a segment of the path
    names a property of [Object.prototype], or a segment that is no index
    is applied to a Sequence of the tree, the one found at the segments
    before it. *)
Definition outside (obj : value) (keys : list string) : Prop :=
  (exists key, In key keys /\ inherited_by_object key = true)
  \/ (exists pre key rest items,
        keys = pre ++ key :: rest
        /\ array_index key = None
        /\ JSONHandler.getValue_loop obj pre = Returned (VArray items)).

(** The path has no segment [__proto__], through which a walk reaches
    [Object.prototype], an object that every tree shares. *)
Definition plain (path : string) : bool :=
  negb (mem "__proto__" (split "." path)).

End Route.

(** ** The rest of the JSON handler: appendToArray and getSummary *)

Module JSONHandlerMore.
Import JS.

(** *** appendToArray *)

(** [obj] once the value that [getValue] reached along [keys], an object
    shared with [obj], has been mutated in place into [mutated]. *)
Fixpoint put_back (current : value) (keys : list string) (mutated : value)
  : value :=
  match keys with
  | [] => mutated
  | key :: rest =>
      match get_property current key with
      | Returned next => with_child current key (put_back next rest mutated)
      | _ => current
      end
  end.

Definition appendToArray (obj : value) (arrayPath : string) (value : value)
  : outcome JS.value :=
  rethrow "Failed to append to array"
    (array <- JSONHandler.getValue obj arrayPath ;;
     match array with
     | VArray items =>
         Returned (put_back obj (split "." arrayPath)
                     (VArray (items ++ [Some value])))
     | _ =>
         Threw (Error ("Path " ++ arrayPath ++ " does not point to an array"))
     end).

(** *** getSummary *)

Record summary : Type := {
  type : string;
  size : nat;
  depth : nat;
  keys : nat
}.

(** [for (const item of obj)] of the closure [analyze]; a hole reads as
    [undefined]. *)
Fixpoint analyze_items (analyze : value -> summary -> summary)
  (rest : list (option value)) (s : summary) : summary :=
  match rest with
  | [] => s
  | item :: rest' =>
      analyze_items analyze rest'
        (match item with
         | Some child => if is_object child then analyze child s else s
         | None => s
         end)
  end.

(** [for (const value of Object.values(obj))] of the closure [analyze]. *)
Fixpoint analyze_values (analyze : value -> summary -> summary)
  (rest : list (string * value)) (s : summary) : summary :=
  match rest with
  | [] => s
  | (_, child) :: rest' =>
      analyze_values analyze rest'
        (if is_object child then analyze child s else s)
  end.

(** The closure [analyze], which updates [summary]. *)
Fixpoint analyze (obj : value) (currentDepth : nat) (s : summary)
  {struct obj} : summary :=
  let s := {| type := type s; size := size s;
              depth := Nat.max (depth s) currentDepth; keys := keys s |} in
  let deeper := fun child => analyze child (S currentDepth) in
  match obj with
  | VArray items =>
      analyze_items deeper items
        {| type := type s; size := size s + length items;
           depth := depth s; keys := keys s |}
  | VObject props =>
      analyze_values deeper props
        {| type := type s; size := size s + length props;
           depth := depth s; keys := keys s + length props |}
  | _ => s
  end.

Definition getSummary (data : value) : summary :=
  analyze data 0
    {| type := match data with VArray _ => "array" | _ => "object" end;
       size := 0; depth := 0; keys := 0 |}.

End JSONHandlerMore.

(** ** Counting the nodes of a tree *)

Module Count.
Import JS.

Fixpoint sum_items (f : value -> nat) (rest : list (option value)) : nat :=
  match rest with
  | [] => 0
  | Some child :: rest' => f child + sum_items f rest'
  | None :: rest' => sum_items f rest'
  end.

Fixpoint sum_props (f : value -> nat) (rest : list (string * value)) : nat :=
  match rest with
  | [] => 0
  | (_, child) :: rest' => f child + sum_props f rest'
  end.

Fixpoint max_items (f : value -> nat) (rest : list (option value)) : nat :=
  match rest with
  | [] => 0
  | Some child :: rest' => Nat.max (f child) (max_items f rest')
  | None :: rest' => max_items f rest'
  end.

Fixpoint max_props (f : value -> nat) (rest : list (string * value)) : nat :=
  match rest with
  | [] => 0
  | (_, child) :: rest' => Nat.max (f child) (max_props f rest')
  end.

(** The places below a node: the elements (holes included) and entries of
    the node and of every Sequence and Mapping under it. *)
Fixpoint below (v : value) : nat :=
  match v with
  | VArray items => length items + sum_items below items
  | VObject props => length props + sum_props below props
  | _ => 0
  end.

(** The entries of the Mappings at and below a node. *)
Fixpoint entries (v : value) : nat :=
  match v with
  | VArray items => sum_items entries items
  | VObject props => length props + sum_props entries props
  | _ => 0
  end.

(** How many Sequences and Mappings are nested below a node, at most. *)
Fixpoint height (v : value) : nat :=
  let step := fun child => if is_object child then S (height child) else 0 in
  match v with
  | VArray items => max_items step items
  | VObject props => max_props step props
  | _ => 0
  end.

(** The keys of every Mapping of the tree are pairwise different, as in a
    parsed document. *)
Fixpoint distinct (keys : list string) : bool :=
  match keys with
  | [] => true
  | key :: rest => negb (mem key rest) && distinct rest
  end.

Fixpoint all_items (f : value -> bool) (rest : list (option value)) : bool :=
  match rest with
  | [] => true
  | Some child :: rest' => f child && all_items f rest'
  | None :: rest' => all_items f rest'
  end.

Fixpoint all_props (f : value -> bool) (rest : list (string * value)) : bool :=
  match rest with
  | [] => true
  | (_, child) :: rest' => f child && all_props f rest'
  end.

Fixpoint unique_keys (v : value) : bool :=
  match v with
  | VArray items => all_items unique_keys items
  | VObject props =>
      distinct (List.map fst props) && all_props unique_keys props
  | _ => true
  end.

(** A key that is one segment of a dotted path: not empty, and free of
    dots. *)
Fixpoint dotless (s : string) : bool :=
  match s with
  | EmptyString => true
  | String c rest => negb (Ascii.eqb c ".") && dotless rest
  end.

Definition segment (key : string) : bool :=
  negb (String.eqb key "") && dotless key.

(** A tree of Mappings and scalars whose keys are segments. *)
Fixpoint segmented (v : value) : bool :=
  match v with
  | VObject props =>
      forallb segment (List.map fst props) && all_props segmented props
  | VArray _ | VUndefined => false
  | _ => true
  end.

(** What one call of [analyze] adds to the summary. *)
Definition analyzed (obj : value) (currentDepth : nat)
  (s : JSONHandlerMore.summary) : Prop :=
  JSONHandlerMore.analyze obj currentDepth s
  = {| JSONHandlerMore.type := JSONHandlerMore.type s;
       JSONHandlerMore.size := JSONHandlerMore.size s + Count.below obj;
       JSONHandlerMore.depth :=
         Nat.max (JSONHandlerMore.depth s) (currentDepth + Count.height obj);
       JSONHandlerMore.keys := JSONHandlerMore.keys s + Count.entries obj |}.

End Count.

(** ** What a search result stands for *)

Module Hit.
Import JS.

(** The answer of the closure [matches] of the JSON handler for a keyword
    that is not compiled to a pattern. *)
Definition hit (opts : JSONHandler.options) (keyword text : string) : bool :=
  fst (JSONHandler.matches opts text (JSONHandler.Keyword keyword)
         {| JSONHandler.results := []; JSONHandler.lastIndex := O |}).

(** A result reports an entry of a Mapping under its key: a [key] result for
    a key that matches, asked for with [searchKeys], or a [value] result for
    a String value that matches, asked for with [searchValues]. *)
Definition sound (opts : JSONHandler.options) (keyword : string)
  (r : JSONHandler.result) : Prop :=
  (exists prefix,
     JSONHandler.path r = JSONHandler.keyPath prefix (JSONHandler.key r))
  /\ ((JSONHandler.type r = "key"
       /\ JSONHandler.searchKeys opts = true
       /\ hit opts keyword (JSONHandler.key r) = true)
      \/ (JSONHandler.type r = "value"
          /\ JSONHandler.searchValues opts = true
          /\ exists text,
               JSONHandler.value r = VString text
               /\ hit opts keyword text = true)).

(** The results one entry of a Mapping gives: those of the loop body run on
    an empty list. *)
Definition hits_at (opts : JSONHandler.options) (keyword : string)
  (fullPath key : string) (v : value) : list JSONHandler.result :=
  JSONHandler.results
    (JSONHandler.visit opts (JSONHandler.Keyword keyword) fullPath key v
       {| JSONHandler.results := []; JSONHandler.lastIndex := O |}).

Fixpoint all_items (nested : value -> string -> list JSONHandler.result)
  (path : string) (rest : list (option value)) (i : nat)
  : list JSONHandler.result :=
  match rest with
  | [] => []
  | item :: rest' =>
      match item with
      | Some child => nested child (JSONHandler.itemPath path i)
      | None => []
      end ++ all_items nested path rest' (S i)
  end.

Fixpoint all_props (opts : JSONHandler.options) (keyword : string)
  (nested : value -> string -> list JSONHandler.result)
  (path : string) (rest : list (string * value)) : list JSONHandler.result :=
  match rest with
  | [] => []
  | (key, v) :: rest' =>
      let fullPath := JSONHandler.keyPath path key in
      hits_at opts keyword fullPath key v
      ++ (if is_object v then nested v fullPath else [])
      ++ all_props opts keyword nested path rest'
  end.

(** Every match of the tree, in document order: the walk of [search] with
    no limit on the number of results. *)
Fixpoint all (opts : JSONHandler.options) (keyword : string)
  (current : value) (path : string) {struct current}
  : list JSONHandler.result :=
  match current with
  | VArray items => all_items (all opts keyword) path items O
  | VObject props => all_props opts keyword (all opts keyword) path props
  | _ => []
  end.

(** The entries of the Mappings of a tree, in document order, each under
    the path and the key that [search] gives it.  An element of a Sequence
    is no entry; the entries of a Mapping that is such an element are. *)
Fixpoint entries_items (nested : value -> string -> list (string * string * value))
  (path : string) (rest : list (option value)) (i : nat)
  : list (string * string * value) :=
  match rest with
  | [] => []
  | item :: rest' =>
      match item with
      | Some child => nested child (JSONHandler.itemPath path i)
      | None => []
      end ++ entries_items nested path rest' (S i)
  end.

Fixpoint entries_props (nested : value -> string -> list (string * string * value))
  (path : string) (rest : list (string * value))
  : list (string * string * value) :=
  match rest with
  | [] => []
  | (key, v) :: rest' =>
      let fullPath := JSONHandler.keyPath path key in
      (fullPath, key, v)
      :: (if is_object v then nested v fullPath else [])
      ++ entries_props nested path rest'
  end.

Fixpoint entries (current : value) (path : string) {struct current}
  : list (string * string * value) :=
  match current with
  | VArray items => entries_items entries path items O
  | VObject props => entries_props entries path props
  | _ => []
  end.

(** The results of one entry. *)
Definition hits_of (opts : JSONHandler.options) (keyword : string)
  (entry : string * string * value) : list JSONHandler.result :=
  let '(fullPath, key, v) := entry in hits_at opts keyword fullPath key v.

(** [{"name":"widget","parts":[{"colour":"red"},"red"]}] *)
Definition catalogue : value :=
  VObject [("name", VString "widget");
           ("parts", VArray [Some (VObject [("colour", VString "red")]);
                             Some (VString "red")])].

(** The state once [found] has been pushed. *)
Definition pushed (st : JSONHandler.state) (found : list JSONHandler.result)
  : JSONHandler.state :=
  {| JSONHandler.results := JSONHandler.results st ++ found;
     JSONHandler.lastIndex := JSONHandler.lastIndex st |}.

End Hit.

(** ** The YAML handler (src/modules/yaml/yaml.js): getValue, setValue and
    deleteValue.  The TOML handler has the same three functions, the XML
    handler the first two, word for word. *)

Module YAMLHandlerMore.
Import JS.

Definition getValue (obj : value) (path : string) : outcome value :=
  rethrow "Failed to get value"
    (JSONHandler.getValue_loop obj (split "." path)).

Definition setValue (obj : value) (path : string) (value : value)
  : outcome JS.value :=
  rethrow "Failed to set value"
    (JSONHandler.setValue_loop obj (split "." path) value).

Definition deleteValue (obj : value) (path : string) : outcome value :=
  rethrow "Failed to delete value"
    (done <- JSONHandler.deleteValue_loop obj (split "." path) ;;
     Returned (match done with Some obj' => obj' | None => obj end)).

End YAMLHandlerMore.

(** ** The XML handler (src/modules/jsoneditor/jsoneditor.js, class
    XMLHandler): searchKeyword *)

Module XMLHandler.
Import JS.

Record options : Type := {
  searchKeys : bool;
  searchValues : bool;
  searchAttributes : bool;
  caseSensitive : bool;
  regex : bool;
  maxResults : Z
}.

(** The defaults of the destructuring in [searchKeyword]. *)
Definition defaults : options :=
  {| searchKeys := true; searchValues := true; searchAttributes := true;
     caseSensitive := false; regex := false; maxResults := 100 |}.

(** One element of [results]. *)
Record result : Type := {
  type : string;
  path : string;
  key : string;
  value : JS.value;
  matchType : string
}.

Record state : Type := {
  results : list result;
  lastIndex : nat
}.

Definition push (r : result) (st : state) : state :=
  {| results := results st ++ [r]; lastIndex := lastIndex st |}.

Definition getPreview := JSONHandler.getPreview.

(** [key.startsWith('@_') ? key.substring(2) : key] *)
Definition name_of (key : string) : string :=
  if startsWith "@_" key then drop 2 key else key.

Section Search.

Variable RegExp_new : string -> string -> outcome RegExp.

Variable opts : options.

Definition matches (text : string) (t : JSONHandler.term) (st : state)
  : bool * state :=
  match t with
  | JSONHandler.Keyword keyword =>
      (if caseSensitive opts then includes text keyword
       else includes (toLowerCase text) (toLowerCase keyword), st)
  | JSONHandler.Pattern re =>
      let '(found, next) := test re text (lastIndex st) in
      (found, {| results := results st; lastIndex := next |})
  end.

(** The body of the [for (const key in current)] loop up to the recursion. *)
Definition visit (searchPattern : JSONHandler.term) (fullPath key : string)
  (value : JS.value) (st : state) : state :=
  let st :=
    if searchKeys opts then
      let '(found, st) := matches key searchPattern st in
      if (found : bool)
      then push {| type := "key"; path := fullPath; key := name_of key;
                   value := getPreview value;
                   matchType := if startsWith "@_" key then "attribute-name"
                                else "element-name" |} st
      else st
    else st in
  if searchValues opts then
    match value with
    | VString text =>
        let '(found, st) := matches text searchPattern st in
        if (found : bool)
        then push {| type := "value"; path := fullPath; key := name_of key;
                     value := value;
                     matchType := if startsWith "@_" key then "attribute-value"
                                  else if String.eqb key "#text"
                                       then "text-content" else "value" |} st
        else st
    | _ => st
    end
  else st.

Fixpoint search_items (search : JS.value -> string -> state -> state)
  (path : string) (rest : list (option JS.value)) (i : nat) (st : state)
  : state :=
  match rest with
  | [] => st
  | item :: rest' =>
      search_items search path rest' (S i)
        (match item with
         | Some child => search child (JSONHandler.itemPath path i) st
         | None => st
         end)
  end.

Fixpoint search_props (searchPattern : JSONHandler.term)
  (search : JS.value -> string -> state -> state)
  (path : string) (rest : list (string * JS.value)) (st : state) : state :=
  match rest with
  | [] => st
  | (key, value) :: rest' =>
      let fullPath := JSONHandler.keyPath path key in
      let st := visit searchPattern fullPath key value st in
      search_props searchPattern search path rest'
        (if is_object value then search value fullPath st else st)
  end.

Fixpoint search (searchPattern : JSONHandler.term) (current : JS.value)
  (path : string) (st : state) {struct current} : state :=
  if (maxResults opts <=? Z.of_nat (length (results st)))%Z then st
  else if negb (truthy current) || negb (String.eqb (typeof current) "object")
  then st
  else
    match current with
    | VArray items => search_items (search searchPattern) path items O st
    | VObject props =>
        search_props searchPattern (search searchPattern) path props st
    | _ => st
    end.

Definition searchKeyword (obj : JS.value) (keyword : string)
  : outcome (list result) :=
  rethrow "Search failed"
    (searchPattern <-
       (if regex opts
        then re <- RegExp_new keyword
                     (if caseSensitive opts then "g" else "gi") ;;
             Returned (JSONHandler.Pattern re)
        else Returned (JSONHandler.Keyword keyword)) ;;
     Returned (results (search searchPattern obj ""
                          {| results := []; lastIndex := O |}))).

End Search.

(** The options of the JSON handler that an XML search is given. *)
Definition json_options (opts : options) : JSONHandler.options :=
  {| JSONHandler.searchKeys := searchKeys opts;
     JSONHandler.searchValues := searchValues opts;
     JSONHandler.caseSensitive := caseSensitive opts;
     JSONHandler.regex := regex opts;
     JSONHandler.maxResults := maxResults opts |}.

(** A result of the JSON search as the XML search words it: the [@_] of an
    attribute is taken off the key, and the kind of match is told. *)
Definition labelled (r : JSONHandler.result) : result :=
  let key := JSONHandler.key r in
  {| type := JSONHandler.type r;
     path := JSONHandler.path r;
     key := name_of key;
     value := JSONHandler.value r;
     matchType :=
       if String.eqb (JSONHandler.type r) "key"
       then if startsWith "@_" key then "attribute-name" else "element-name"
       else if startsWith "@_" key then "attribute-value"
            else if String.eqb key "#text" then "text-content" else "value" |}.

Definition labelled_state (st : JSONHandler.state) : state :=
  {| results := List.map labelled (JSONHandler.results st);
     lastIndex := JSONHandler.lastIndex st |}.

End XMLHandler.

(** ** The todo tools (src/modules/jsoneditor/jsoneditor.js, the module that
    keeps [const tasks = []])

    A tool is run on the list [tasks] as it stands and gives the text of its
    answer and the list as it leaves it. *)

Module Todo.
Import JS.

Record task : Type := {
  id : string;
  title : string;
  description : string;
  rules : string;
  instructions : string;
  priority : Z;
  status : string;
  progress : string
}.

(** [tasks.findIndex(task => task.id === id)]; [None] is [-1]. *)
Fixpoint findIndex (id' : string) (tasks : list task) : option nat :=
  match tasks with
  | [] => None
  | task :: rest =>
      if String.eqb (id task) id' then Some O
      else option_map S (findIndex id' rest)
  end.

(** [tasks.splice(index, 1)]: the list without the element at [index]. *)
Fixpoint splice (index : nat) (tasks : list task) : list task :=
  match tasks, index with
  | [], _ => []
  | _ :: rest, O => rest
  | task :: rest, S index' => task :: splice index' rest
  end.

(** [const task = tasks.find(task => task.id === id); if (task) { ... }],
    the body being an assignment to a field of [task]: the task found is an
    element of [tasks], so the assignment shows in the list, at the place of
    the first task with this [id].  [None] when no task is found. *)
Fixpoint find (id' : string) (assign : task -> task) (tasks : list task)
  : option (list task) :=
  match tasks with
  | [] => None
  | task :: rest =>
      if String.eqb (id task) id' then Some (assign task :: rest)
      else option_map (cons task) (find id' assign rest)
  end.

Module Tool.

(** The tool [add]; [uuid] is what [uuidv4()] returns. *)
Definition add (uuid : string) (title description rules instructions : string)
  (tasks : list task) : string * list task :=
  let newTask :=
    {| id := uuid; title := title; description := description;
       rules := rules; instructions := instructions;
       priority := 10; status := "pending"; progress := "" |} in
  (("Task added: " ++ quoted title)%string, tasks ++ [newTask]).

(** The tool [remove]. *)
Definition remove (id : string) (tasks : list task) : string * list task :=
  match findIndex id tasks with
  | Some index => (("Task removed: " ++ quoted id)%string, splice index tasks)
  | None => (("Task not found: " ++ quoted id)%string, tasks)
  end.

(** The tool [priority]. *)
Definition priority (id : string) (priority : Z) (tasks : list task)
  : string * list task :=
  match find id (fun task =>
                   {| Todo.id := Todo.id task; title := title task;
                      description := description task; rules := rules task;
                      instructions := instructions task;
                      Todo.priority := priority; Todo.status := Todo.status task;
                      Todo.progress := Todo.progress task |}) tasks with
  | Some tasks' => (("Priority set for task: " ++ quoted id)%string, tasks')
  | None => (("Task not found: " ++ quoted id)%string, tasks)
  end.

(** The tool [status]. *)
Definition status (id : string) (status : string) (tasks : list task)
  : string * list task :=
  match find id (fun task =>
                   {| Todo.id := Todo.id task; title := title task;
                      description := description task; rules := rules task;
                      instructions := instructions task;
                      Todo.priority := Todo.priority task;
                      Todo.status := status;
                      Todo.progress := Todo.progress task |}) tasks with
  | Some tasks' => (("Status set for task: " ++ quoted id)%string, tasks')
  | None => (("Task not found: " ++ quoted id)%string, tasks)
  end.

(** The tool [progress]. *)
Definition progress (id : string) (progress : string) (tasks : list task)
  : string * list task :=
  match find id (fun task =>
                   {| Todo.id := Todo.id task; title := title task;
                      description := description task; rules := rules task;
                      instructions := instructions task;
                      Todo.priority := Todo.priority task;
                      Todo.status := Todo.status task;
                      Todo.progress := progress |}) tasks with
  | Some tasks' => (("Progress set for task: " ++ quoted id)%string, tasks')
  | None => (("Task not found: " ++ quoted id)%string, tasks)
  end.

End Tool.

(** No task of the list has this id. *)
Definition unused (id' : string) (tasks : list task) : Prop :=
  forall task, In task tasks -> id task <> id'.

(** Two tasks, as [add] makes them and the tools have left them. *)
Definition first_task : task :=
  {| id := "a"; title := "t"; description := "d"; rules := "r";
     instructions := "i"; priority := 3; status := "done"; progress := "p" |}.

Definition second_task : task :=
  {| id := "b"; title := "t2"; description := "d2"; rules := "r2";
     instructions := "i2"; priority := 10; status := "pending";
     progress := "" |}.

End Todo.

(** ** Sequential thinking (src/modules/jsoneditor/jsoneditor.js, class
    SequentialThinking)

    A method is run on the handler as it stands and gives what it returns
    and the handler as it leaves it.  [now] is what [new Date()] reads, in
    milliseconds; what [log] prints is not kept. *)

Module SequentialThinking.
Import JS.

Module Thought.
(** An element of [session.thoughts].  [revised] holds [revisionReason]
    once [isRevised] has been set; until then neither property exists. *)
Record t : Type := {
  id : nat;
  content : string;
  type : string;
  timestamp : Z;
  confidence : option Z;
  tags : list string;
  parentThought : option Z;
  isRevision : bool;
  revised : option (option string)
}.
End Thought.

Module ThoughtData.
(** The argument [thoughtData] of [addThought]; [None] is a property that
    is missing or [undefined]. *)
Record t : Type := {
  content : string;
  type : option string;
  confidence : option Z;
  tags : option (list string);
  parentThought : option Z;
  isRevision : option bool
}.
End ThoughtData.

Module Revision.
Record t : Type := {
  originalThoughtId : Z;
  originalContent : string;
  newContent : string;
  reason : option string;
  timestamp : Z
}.
End Revision.

Module Branch.
(** The thought a branch starts with. *)
Record start : Type := {
  start_id : nat;
  content : string;
  type : string;
  start_timestamp : Z;
  parentThought : Z
}.

Record t : Type := {
  id : string;
  name : string;
  fromThoughtId : Z;
  thoughts : list start;
  timestamp : Z
}.
End Branch.

Module Session.
Record t : Type := {
  id : string;
  thoughts : list Thought.t;
  currentThought : nat;
  totalThoughts : Z;
  startTime : Z;
  branches : list Branch.t;
  revisions : list Revision.t
}.
End Session.

Module Progress.
Record t : Type := {
  sessionId : string;
  currentThought : nat;
  totalThoughts : Z;
  progress : string;
  percentComplete : Z;
  thoughtsRemaining : Z;
  branches : nat;
  revisions : nat;
  duration : Z
}.
End Progress.

(** The handler: the Map [sessions], in insertion order, and
    [sessionCounter]. *)
Record handler : Type := {
  sessions : list (string * Session.t);
  sessionCounter : nat
}.

(** [new SequentialThinking()] *)
Definition constructor : handler := {| sessions := []; sessionCounter := O |}.

(** [sessions.get(key)] *)
Fixpoint get (key : string) (entries : list (string * Session.t))
  : option Session.t :=
  match entries with
  | [] => None
  | (k, session) :: rest =>
      if String.eqb k key then Some session else get key rest
  end.

(** [sessions.set(key, session)]: a key that is there keeps its place. *)
Fixpoint set (key : string) (session : Session.t)
  (entries : list (string * Session.t)) : list (string * Session.t) :=
  match entries with
  | [] => [(key, session)]
  | (k, old) :: rest =>
      if String.eqb k key then (k, session) :: rest
      else (k, old) :: set key session rest
  end.

(** [sessions.delete(key)]: whether the key was there, and what is left. *)
Fixpoint delete (key : string) (entries : list (string * Session.t))
  : bool * list (string * Session.t) :=
  match entries with
  | [] => (false, [])
  | (k, old) :: rest =>
      if String.eqb k key then (true, rest)
      else let '(existed, rest') := delete key rest in
           (existed, (k, old) :: rest')
  end.

(** The session found by [sessions.get(sessionId)] is the object the Map
    holds: what a method assigns to its fields is seen through the Map,
    under the same key. *)
Definition mutate (sessionId : string) (session : Session.t) (h : handler)
  : handler :=
  {| sessions := set sessionId session (sessions h);
     sessionCounter := sessionCounter h |}.

(** [const session = this.sessions.get(sessionId); if (!session) throw ...] *)
Definition found (sessionId : string) (h : handler) : outcome Session.t :=
  match get sessionId (sessions h) with
  | Some session => Returned session
  | None => Threw (Error ("Session " ++ sessionId ++ " not found"))
  end.

(** The session [createSession] makes. *)
Definition fresh (id : string) (now : Z) : Session.t :=
  {| Session.id := id; Session.thoughts := []; Session.currentThought := O;
     Session.totalThoughts := 10; Session.startTime := now;
     Session.branches := []; Session.revisions := [] |}.

Definition createSession (sessionId : option string) (now : Z) (h : handler)
  : Session.t * handler :=
  let '(id, counter) :=
    match sessionId with
    | Some s =>
        if truthy (VString s) then (s, sessionCounter h)
        else (("session_" ++ string_of_nat (S (sessionCounter h)))%string,
              S (sessionCounter h))
    | None =>
        (("session_" ++ string_of_nat (S (sessionCounter h)))%string,
         S (sessionCounter h))
    end in
  let session := fresh id now in
  (session, {| sessions := set id session (sessions h);
               sessionCounter := counter |}).

Definition addThought (sessionId : string) (thoughtData : ThoughtData.t)
  (now : Z) (h : handler) : outcome (Thought.t * handler) :=
  session <- found sessionId h ;;
  let thought :=
    {| Thought.id := length (Session.thoughts session) + 1;
       Thought.content := ThoughtData.content thoughtData;
       Thought.type :=
         match ThoughtData.type thoughtData with
         | Some s => if truthy (VString s) then s else "analysis"
         | None => "analysis"
         end;
       Thought.timestamp := now;
       Thought.confidence :=
         match ThoughtData.confidence thoughtData with
         | Some n => if truthy (VNumber n) then Some n else None
         | None => None
         end;
       Thought.tags :=
         match ThoughtData.tags thoughtData with
         | Some tags => tags
         | None => []
         end;
       Thought.parentThought :=
         match ThoughtData.parentThought thoughtData with
         | Some n => if truthy (VNumber n) then Some n else None
         | None => None
         end;
       Thought.isRevision :=
         match ThoughtData.isRevision thoughtData with
         | Some b => b
         | None => false
         end;
       Thought.revised := None |} in
  let thoughts := Session.thoughts session ++ [thought] in
  Returned
    (thought,
     mutate sessionId {| Session.id := Session.id session;
               Session.thoughts := thoughts;
               Session.currentThought := length thoughts;
               Session.totalThoughts := Session.totalThoughts session;
               Session.startTime := Session.startTime session;
               Session.branches := Session.branches session;
               Session.revisions := Session.revisions session |} h).

(** [originalThought.content = newContent; originalThought.isRevised = true;
    originalThought.revisionReason = reason] *)
Definition revised_thought (t : Thought.t) (newContent : string)
  (reason : option string) : Thought.t :=
  {| Thought.id := Thought.id t;
     Thought.content := newContent;
     Thought.type := Thought.type t;
     Thought.timestamp := Thought.timestamp t;
     Thought.confidence := Thought.confidence t;
     Thought.tags := Thought.tags t;
     Thought.parentThought := Thought.parentThought t;
     Thought.isRevision := Thought.isRevision t;
     Thought.revised := Some reason |}.

(** [session.thoughts.find(t => t.id === thoughtId)] followed by the
    assignments to the thought found, which is an element of the list:
    the thought as it was, and the list as the assignments leave it. *)
Fixpoint revise (thoughtId : Z) (newContent : string) (reason : option string)
  (thoughts : list Thought.t) : option (Thought.t * list Thought.t) :=
  match thoughts with
  | [] => None
  | t :: rest =>
      if (Z.of_nat (Thought.id t) =? thoughtId)%Z
      then Some (t, revised_thought t newContent reason :: rest)
      else match revise thoughtId newContent reason rest with
           | Some (original, rest') => Some (original, t :: rest')
           | None => None
           end
  end.

Definition revisethought (sessionId : string) (thoughtId : Z)
  (newContent : string) (reason : option string) (now : Z) (h : handler)
  : outcome (Revision.t * handler) :=
  session <- found sessionId h ;;
  match revise thoughtId newContent reason (Session.thoughts session) with
  | None =>
      Threw (Error ("Thought " ++ string_of_Z thoughtId ++ " not found"))
  | Some (originalThought, thoughts) =>
      let revision :=
        {| Revision.originalThoughtId := thoughtId;
           Revision.originalContent := Thought.content originalThought;
           Revision.newContent := newContent;
           Revision.reason := reason;
           Revision.timestamp := now |} in
      Returned
        (revision,
         mutate sessionId {| Session.id := Session.id session;
                   Session.thoughts := thoughts;
                   Session.currentThought := Session.currentThought session;
                   Session.totalThoughts := Session.totalThoughts session;
                   Session.startTime := Session.startTime session;
                   Session.branches := Session.branches session;
                   Session.revisions :=
                     Session.revisions session ++ [revision] |} h)
  end.

(** [now] is read for the branch, [later] for its first thought. *)
Definition branchThinking (sessionId : string) (fromThoughtId : Z)
  (branchName initialThought : string) (now later : Z) (h : handler)
  : outcome (Branch.t * handler) :=
  session <- found sessionId h ;;
  let branch :=
    {| Branch.id :=
         sessionId ++ "_branch_"
         ++ string_of_nat (length (Session.branches session) + 1);
       Branch.name := branchName;
       Branch.fromThoughtId := fromThoughtId;
       Branch.thoughts :=
         if truthy (VString initialThought)
         then [{| Branch.start_id := 1;
                  Branch.content := initialThought;
                  Branch.type := "branch_start";
                  Branch.start_timestamp := later;
                  Branch.parentThought := fromThoughtId |}]
         else [];
       Branch.timestamp := now |} in
  Returned
    (branch,
     mutate sessionId {| Session.id := Session.id session;
               Session.thoughts := Session.thoughts session;
               Session.currentThought := Session.currentThought session;
               Session.totalThoughts := Session.totalThoughts session;
               Session.startTime := Session.startTime session;
               Session.branches := Session.branches session ++ [branch];
               Session.revisions := Session.revisions session |} h).

(** What [adjustTotalThoughts] returns: [{ oldTotal, newTotal, reason }]. *)
Record adjustment : Type := {
  oldTotal : Z;
  newTotal : Z;
  reason : option string
}.

Definition adjustTotalThoughts (sessionId : string) (newTotal : Z)
  (reason : option string) (h : handler) : outcome (adjustment * handler) :=
  session <- found sessionId h ;;
  let total := Z.max 1 newTotal in
  Returned
    ({| oldTotal := Session.totalThoughts session; newTotal := total;
        reason := reason |},
     mutate sessionId {| Session.id := Session.id session;
               Session.thoughts := Session.thoughts session;
               Session.currentThought := Session.currentThought session;
               Session.totalThoughts := total;
               Session.startTime := Session.startTime session;
               Session.branches := Session.branches session;
               Session.revisions := Session.revisions session |} h).

Definition getSession (sessionId : string) (h : handler) : outcome Session.t :=
  found sessionId h.

Section Progress.

(** [Math.round((currentThought / totalThoughts) * 100)], in the floating
    point arithmetic of the engine. *)
Variable percent : nat -> Z -> Z.

Definition getProgress (sessionId : string) (now : Z) (h : handler)
  : outcome Progress.t :=
  session <- getSession sessionId h ;;
  Returned
    {| Progress.sessionId := Session.id session;
       Progress.currentThought := Session.currentThought session;
       Progress.totalThoughts := Session.totalThoughts session;
       Progress.progress :=
         string_of_nat (Session.currentThought session) ++ "/"
         ++ string_of_Z (Session.totalThoughts session);
       Progress.percentComplete :=
         percent (Session.currentThought session)
           (Session.totalThoughts session);
       Progress.thoughtsRemaining :=
         Z.max 0 (Session.totalThoughts session
                  - Z.of_nat (Session.currentThought session));
       Progress.branches := length (Session.branches session);
       Progress.revisions := length (Session.revisions session);
       Progress.duration := now - Session.startTime session |}.

End Progress.

Definition deleteSession (sessionId : string) (h : handler) : bool * handler :=
  let '(existed, rest) := delete sessionId (sessions h) in
  (existed, {| sessions := rest; sessionCounter := sessionCounter h |}).

(** The first lines of the tool [sequentialthinking]:
    [if (sessionId && thinkingHandler.sessions.has(sessionId))
       session = thinkingHandler.getSession(sessionId);
     else session = thinkingHandler.createSession(sessionId);] *)
Definition sequentialthinking_session (sessionId : option string) (now : Z)
  (h : handler) : outcome (Session.t * handler) :=
  match sessionId with
  | Some s =>
      if truthy (VString s) && is_some (get s (sessions h))
      then session <- getSession s h ;; Returned (session, h)
      else Returned (createSession sessionId now h)
  | None => Returned (createSession sessionId now h)
  end.

(** A session as the methods keep it: it is stored under its own id, its
    thoughts are numbered 1, 2, ... in their order, [currentThought] is
    their number, and [totalThoughts] is at least 1. *)
Definition kept (entry : string * Session.t) : Prop :=
  let session := snd entry in
  fst entry = Session.id session
  /\ List.map Thought.id (Session.thoughts session)
     = seq 1 (length (Session.thoughts session))
  /\ Session.currentThought session = length (Session.thoughts session)
  /\ (1 <= Session.totalThoughts session)%Z.

(** A handler as the methods keep it: the keys of the Map are distinct, as
    in any Map, and every session is kept. *)
Definition kept_all (h : handler) : Prop :=
  NoDup (List.map fst (sessions h)) /\ Forall kept (sessions h).

(** A handler at work: the session [s], made at time 0, to which
    [addThought] has added two thoughts, at times 1 and 2, of which only the
    content was given. *)
Definition said (content : string) : ThoughtData.t :=
  {| ThoughtData.content := content; ThoughtData.type := None;
     ThoughtData.confidence := None; ThoughtData.tags := None;
     ThoughtData.parentThought := None; ThoughtData.isRevision := None |}.

Definition thought_at (id : nat) (content : string) (now : Z) : Thought.t :=
  {| Thought.id := id; Thought.content := content;
     Thought.type := "analysis"; Thought.timestamp := now;
     Thought.confidence := None; Thought.tags := [];
     Thought.parentThought := None; Thought.isRevision := false;
     Thought.revised := None |}.

Definition working_session : Session.t :=
  {| Session.id := "s";
     Session.thoughts := [thought_at 1 "first" 1; thought_at 2 "second" 2];
     Session.currentThought := 2;
     Session.totalThoughts := 10;
     Session.startTime := 0;
     Session.branches := [];
     Session.revisions := [] |}.

Definition working : handler :=
  {| sessions := [("s", working_session)]; sessionCounter := O |}.

End SequentialThinking.

(** * Properties *)

Import JS.

(** ** The object model *)

Lemma own_overwrite (props : list (string * value)) (key : string) (x : value) :
  own props key <> None -> own (overwrite props key x) key = Some x.
Proof.
  induction props as [|[k v] props IH]; simpl; intros Hown.
  - congruence.
  - destruct (String.eqb k key) eqn:E; simpl; rewrite E; auto.
Qed.

Lemma own_insert_index (n : N) (props : list (string * value)) (key : string)
  (x : value) :
  own props key = None -> own (insert_index n key x props) key = Some x.
Proof.
  induction props as [|[k v] props IH]; simpl; intros Hown.
  - now rewrite String.eqb_refl.
  - destruct (String.eqb k key) eqn:E; [discriminate|].
    destruct (array_index k) as [m|]; [destruct (m <? n)%N|]; simpl;
      rewrite ?E, ?String.eqb_refl; auto.
Qed.

Lemma own_app_fresh (props : list (string * value)) (key : string) (x : value) :
  own props key = None -> own (props ++ [(key, x)]) key = Some x.
Proof.
  induction props as [|[k v] props IH]; simpl; intros Hown.
  - now rewrite String.eqb_refl.
  - destruct (String.eqb k key); [discriminate | auto].
Qed.

Lemma own_define (props : list (string * value)) (key : string) (x : value) :
  own (define props key x) key = Some x.
Proof.
  unfold define. destruct (own props key) eqn:Hown.
  - apply own_overwrite. congruence.
  - destruct (array_index key); [apply own_insert_index | apply own_app_fresh];
      assumption.
Qed.

Lemma overwrite_overwrite (props : list (string * value)) (key : string)
  (x y : value) :
  overwrite (overwrite props key x) key y = overwrite props key y.
Proof.
  induction props as [|[k v] props IH]; simpl; [reflexivity|].
  destruct (String.eqb k key) eqn:E; simpl; rewrite E; [reflexivity|].
  now rewrite IH.
Qed.

Lemma overwrite_insert_index (n : N) (props : list (string * value))
  (key : string) (x y : value) :
  own props key = None ->
  overwrite (insert_index n key x props) key y = insert_index n key y props.
Proof.
  induction props as [|[k v] props IH]; simpl; intros Hown.
  - now rewrite String.eqb_refl.
  - destruct (String.eqb k key) eqn:E; [discriminate|].
    destruct (array_index k) as [m|]; [destruct (m <? n)%N|]; simpl;
      rewrite ?E, ?String.eqb_refl; auto.
    now rewrite IH.
Qed.

Lemma overwrite_app_fresh (props : list (string * value)) (key : string)
  (x y : value) :
  own props key = None ->
  overwrite (props ++ [(key, x)]) key y = props ++ [(key, y)].
Proof.
  induction props as [|[k v] props IH]; simpl; intros Hown.
  - now rewrite String.eqb_refl.
  - destruct (String.eqb k key); [discriminate|]. now rewrite IH.
Qed.

Lemma overwrite_define (props : list (string * value)) (key : string)
  (x y : value) :
  overwrite (define props key x) key y = define props key y.
Proof.
  unfold define. destruct (own props key) eqn:Hown.
  - apply overwrite_overwrite.
  - destruct (array_index key);
      [apply overwrite_insert_index | apply overwrite_app_fresh]; assumption.
Qed.

Lemma nth_error_store (items : list (option value)) (i : nat)
  (x : option value) :
  nth_error (store items i x) i = Some x.
Proof.
  revert items. induction i as [|i IH]; intros [|y items]; simpl; auto.
Qed.

Lemma element_store (items : list (option value)) (i : N) (x : value) :
  element (store items (N.to_nat i) (Some x)) i = Some x.
Proof. unfold element. now rewrite nth_error_store. Qed.

(** A held value that the walk descends into is reached again, as the walk
    left it, through the rebuilt parent. *)
Lemma child_link (parent : value) (key : string) (held child : value) :
  has_property parent key = Returned true ->
  get_property parent key = Returned held ->
  is_object held = true ->
  has_property (with_child parent key child) key = Returned true
  /\ get_property (with_child parent key child) key = Returned child.
Proof.
  destruct parent as [| | | | |items|props]; simpl; try discriminate.
  - destruct (array_index key) as [i|] eqn:Hidx.
    + intros Hhas _ _. injection Hhas as Hhas. rewrite Hhas. simpl.
      rewrite Hidx. now rewrite element_store.
    + destruct (String.eqb key "length").
      * intros _ Hget Hobj. injection Hget as <-. discriminate.
      * destruct (inherited_by_array key); [discriminate|].
        intros _ Hget Hobj. injection Hget as <-. discriminate.
  - destruct (own props key) as [v|] eqn:Hown.
    + intros _ _ _. simpl. rewrite own_overwrite by congruence. auto.
    + destruct (inherited_by_object key); [discriminate|].
      intros _ Hget Hobj. injection Hget as <-. discriminate.
Qed.

Lemma typeof_object (v : value) :
  String.eqb (typeof v) "object" = true -> v = VNull \/ is_object v = true.
Proof. destruct v; simpl; intros H; auto; discriminate. Qed.

Lemma is_object_walkable (v : value) :
  is_object v = true ->
  truthy v && String.eqb (typeof v) "object" = true.
Proof. destruct v; simpl; intros H; auto; discriminate. Qed.

Lemma walkable_is_object (v : value) :
  truthy v && String.eqb (typeof v) "object" = true -> is_object v = true.
Proof. destruct v; simpl; intros H; auto; try discriminate.
  all: apply andb_prop in H; destruct H; discriminate. Qed.

Lemma split_nonempty (sep : ascii) (s : string) : split sep s <> [].
Proof.
  destruct s as [|c s]; simpl; [discriminate|].
  destruct (Ascii.eqb c sep); [discriminate|].
  destruct (split sep s); discriminate.
Qed.

Lemma bind_returned {A B : Type} (m : outcome A) (k : A -> outcome B) (b : B) :
  bind m k = Returned b -> exists a, m = Returned a /\ k a = Returned b.
Proof. destruct m; simpl; intros H; try discriminate. eauto. Qed.

Lemma rethrow_returned {A : Type} (prefix : string) (m : outcome A) (a : A) :
  rethrow prefix m = Returned a -> m = Returned a.
Proof. destruct m; simpl; intros H; congruence. Qed.

Lemma has_property_container (parent : value) (key : string) (b : bool) :
  has_property parent key = Returned b -> is_object parent = true.
Proof. destruct parent; simpl; intros H; auto; discriminate. Qed.

Lemma is_object_with_child (parent : value) (key : string) (child : value) :
  is_object (with_child parent key child) = is_object parent.
Proof.
  destruct parent; simpl; auto. destruct (array_index key); reflexivity.
Qed.

Lemma length_resize (items : list (option value)) (n : nat) :
  length (resize items n) = n.
Proof.
  unfold resize. rewrite length_app, length_firstn, repeat_length. lia.
Qed.

(** After [current[key] = x], [key in current] holds and [current[key]]
    is [x]; the [length] of an array is the number that [x] was converted
    to. *)
Lemma set_then_get (current : value) (key : string) (x current' : value) :
  set_property current key x = Returned current' ->
  has_property current' key = Returned true
  /\ (get_property current' key = Returned x
      \/ (key = "length"
          /\ exists s n,
               x = VString s
               /\ to_length x = Returned n
               /\ get_property current' key
                  = Returned (VNumber (Z.of_nat n)))).
Proof.
  destruct current as [| | | | |items|props]; simpl; try discriminate.
  - destruct (array_index key) as [i|] eqn:Hidx.
    + intros H. injection H as <-. simpl. rewrite Hidx, element_store. auto.
    + destruct (String.eqb key "length") eqn:Hlen; [|discriminate].
      destruct (to_length x) as [n| |] eqn:Hn; simpl; try discriminate.
      intros H. injection H as <-. simpl. rewrite Hidx, Hlen. simpl.
      apply String.eqb_eq in Hlen. rewrite length_resize.
      split; [reflexivity|].
      destruct x as [| | |z|s| |]; try discriminate; [left | eauto 8].
      simpl in Hn.
      destruct ((0 <=? z)%Z && (z <? 4294967296)%Z) eqn:Hrange;
        [|discriminate].
      injection Hn as <-. apply andb_prop in Hrange.
      destruct Hrange as [Hpos _]. apply Z.leb_le in Hpos.
      now rewrite Z2Nat.id.
  - destruct (own props key) as [old|] eqn:Hown.
    + intros H. injection H as <-. simpl.
      rewrite own_overwrite by congruence. auto.
    + destruct (String.eqb key "__proto__"); [discriminate|].
      intros H. injection H as <-. simpl. rewrite own_define. auto.
Qed.

Tactic Notation "bind_inv" hyp(H) "as" ident(a) ident(Ha) :=
  apply bind_returned in H; destruct H as (a & Ha & H).

(** The node the walk of [setValue] moves to is an object or an array, or
    else [null], from where the walk cannot go on. *)
Lemma setValue_step (current : value) (key : string) (fresh : bool)
  (current' next : value) :
  JSONHandler.not_an_object_at current key = Returned fresh ->
  (if fresh then set_property current key (VObject []) else Returned current)
    = Returned current' ->
  get_property current' key = Returned next ->
  has_property current' key = Returned true
  /\ (next = VNull \/ is_object next = true).
Proof.
  unfold JSONHandler.not_an_object_at. intros Hfresh Hset Hget.
  bind_inv Hfresh as present Hpresent. destruct fresh.
  - apply set_then_get in Hset.
    destruct Hset as [Hhas [Hget' | (_ & s & n & Hs & _)]]; [|discriminate].
    rewrite Hget' in Hget. injection Hget as <-. auto.
  - injection Hset as <-. destruct present; [|discriminate].
    bind_inv Hfresh as held Hheld. rewrite Hheld in Hget. injection Hget as <-.
    injection Hfresh as Hfresh. apply negb_false_iff in Hfresh.
    split; [assumption | now apply typeof_object].
Qed.

Lemma setValue_loop_null (keys : list string) (v : value) :
  JSONHandler.setValue_loop VNull keys v = Threw TypeError.
Proof. destruct keys as [|key [|k2 rest]]; reflexivity. Qed.

(** What [getValue] reads where [setValue] has written [v]: [v], or, where
    the last segment is the [length] of an array, the number [v] was
    converted to. *)
Lemma setValue_loop_then_getValue_loop (keys : list string) :
  forall current v current',
    keys <> [] ->
    JSONHandler.setValue_loop current keys v = Returned current' ->
    JSONHandler.getValue_loop current' keys = Returned v
    \/ (last keys "" = "length"
        /\ exists s n,
             v = VString s
             /\ to_length v = Returned n
             /\ JSONHandler.getValue_loop current' keys
                = Returned (VNumber (Z.of_nat n))).
Proof.
  induction keys as [|key rest IH]; intros current v current' Hne Hset;
    [contradiction|].
  destruct rest as [|k2 rest].
  - simpl in Hset. pose proof (set_then_get _ _ _ _ Hset) as [Hhas Hget].
    cbn [JSONHandler.getValue_loop last].
    rewrite (is_object_walkable current')
      by (eapply has_property_container; eassumption).
    rewrite Hhas. cbn [bind].
    destruct Hget as [-> | (Hlen & s & n & Hs & Hn & ->)]; cbn [bind];
      eauto 8.
  - change (JSONHandler.setValue_loop current (key :: k2 :: rest) v) with
      (fresh <- JSONHandler.not_an_object_at current key ;;
       current' <- (if (fresh : bool)
                    then set_property current key (VObject [])
                    else Returned current) ;;
       next <- get_property current' key ;;
       next' <- JSONHandler.setValue_loop next (k2 :: rest) v ;;
       Returned (with_child current' key next')) in Hset.
    bind_inv Hset as fresh Hfresh. bind_inv Hset as parent Hparent.
    bind_inv Hset as next Hnext. bind_inv Hset as next' Hnext'.
    injection Hset as <-.
    destruct (setValue_step _ _ _ _ _ Hfresh Hparent Hnext)
      as [Hhas [-> | Hobj]].
    { rewrite setValue_loop_null in Hnext'. discriminate. }
    destruct (child_link _ _ _ next' Hhas Hnext Hobj) as [Hhas' Hget'].
    change (last (key :: k2 :: rest) "") with (last (k2 :: rest) "").
    cbn [JSONHandler.getValue_loop].
    rewrite is_object_walkable
      by (rewrite is_object_with_child;
          eapply has_property_container; eassumption).
    rewrite Hhas'. cbn [bind]. rewrite Hget'. cbn [bind].
    apply IH with (current := next); [discriminate | assumption].
Qed.

(** ** C6: the empty path *)

(** C6, counterexample: on the tree [{"a":{"b":[1,2,3]}}] the empty path
    resolves to [undefined], not to the tree. *)
Lemma getValue_empty_path_is_not_the_tree :
  JSONHandler.getValue Scenario.nested "" = Returned VUndefined
  /\ JSONHandler.getValue Scenario.nested "" <> Returned Scenario.nested.
Proof. split; [reflexivity | discriminate]. Qed.

(** C6, as amended: the empty path is the single segment made of the empty
    key, so [getValue] returns what a Mapping holds under the empty key, and
    [undefined] for a Mapping without it and for every other tree. *)
Theorem getValue_empty_path (obj : value) :
  JSONHandler.getValue obj "" =
  Returned match obj with
           | VObject props =>
               match own props "" with
               | Some v => v
               | None => VUndefined
               end
           | _ => VUndefined
           end.
Proof.
  unfold JSONHandler.getValue.
  destruct obj as [| |b|n|s|items|props]; simpl; try reflexivity.
  - now rewrite andb_false_r.
  - now rewrite andb_false_r.
  - now rewrite andb_false_r.
  - destruct (own props ""); reflexivity.
Qed.

(** The two loops, one step unrolled. *)
Lemma setValue_loop_cons (current : value) (key : string) (rest : list string)
  (v : value) :
  rest <> [] ->
  JSONHandler.setValue_loop current (key :: rest) v =
  (fresh <- JSONHandler.not_an_object_at current key ;;
   current' <- (if (fresh : bool) then set_property current key (VObject [])
                else Returned current) ;;
   next <- get_property current' key ;;
   next' <- JSONHandler.setValue_loop next rest v ;;
   Returned (with_child current' key next')).
Proof. destruct rest; [contradiction | reflexivity]. Qed.

Lemma deleteValue_loop_cons (current : value) (key : string)
  (rest : list string) :
  rest <> [] ->
  JSONHandler.deleteValue_loop current (key :: rest) =
  (missing <- JSONHandler.not_an_object_at current key ;;
   if (missing : bool) then Returned None
   else
     next <- get_property current key ;;
     done <- JSONHandler.deleteValue_loop next rest ;;
     Returned (option_map (with_child current key) done)).
Proof. destruct rest; [contradiction | reflexivity]. Qed.

(** ** C3: what [setValue] builds *)

Lemma assign_cons (props : list (string * value)) (key : string)
  (rest : list string) (v : value) :
  rest <> [] ->
  Spec.assign props (key :: rest) v =
  define props key
    (VObject (Spec.assign
                match own props key with
                | Some (VObject m) => m
                | _ => []
                end rest v)).
Proof. destruct rest; [contradiction | reflexivity]. Qed.

Lemma plain_route_cons (props : list (string * value)) (key : string)
  (rest : list string) :
  rest <> [] ->
  Spec.plain_route props (key :: rest) =
  match own props key with
  | Some (VObject m) => Spec.plain_route m rest
  | Some (VArray _) | Some VNull => false
  | Some _ => Spec.plain_route [] rest
  | None => negb (inherited_by_object key) && Spec.plain_route [] rest
  end.
Proof. destruct rest; [contradiction | reflexivity]. Qed.

Lemma setValue_loop_plain_route (keys : list string) :
  forall props v,
    Spec.plain_route props keys = true ->
    JSONHandler.setValue_loop (VObject props) keys v
    = Returned (VObject (Spec.assign props keys v)).
Proof.
  induction keys as [|key rest IH]; intros props v Hroute; [discriminate|].
  destruct (list_eq_dec string_dec rest []) as [-> | Hne].
  - simpl in *. unfold define. destruct (own props key); [reflexivity|].
    simpl in Hroute. apply negb_true_iff in Hroute. now rewrite Hroute.
  - rewrite setValue_loop_cons, assign_cons by assumption.
    rewrite plain_route_cons in Hroute by assumption.
    unfold JSONHandler.not_an_object_at. simpl has_property.
    destruct (own props key) as [held|] eqn:Hown.
    + assert (Hdef : forall x, define props key x = overwrite props key x)
        by (intros x; unfold define; now rewrite Hown).
      destruct held; try discriminate;
        repeat (simpl;
                first [rewrite Hown | rewrite own_overwrite by congruence]);
        simpl; rewrite (IH _ _ Hroute); simpl;
        rewrite ?overwrite_overwrite, Hdef; reflexivity.
    + apply andb_prop in Hroute. destruct Hroute as [Hin Hroute].
      apply negb_true_iff in Hin. rewrite Hin.
      simpl. rewrite Hown.
      assert (Hproto : String.eqb key "__proto__" = false).
      { destruct (String.eqb key "__proto__") eqn:E; [|reflexivity].
        apply String.eqb_eq in E. subst key. discriminate. }
      rewrite Hproto. simpl. rewrite own_define.
      simpl. rewrite (IH _ _ Hroute). simpl.
      now rewrite overwrite_define.
Qed.

(** C3, counterexample: a Sequence on the way is not overwritten with a
    fresh Mapping.  In [{"a":[1,2]}] the path [a.0] is walked into the
    Sequence and replaces its first element, where the specification has the
    Sequence replaced by the Mapping [{"0":9}].  And [setValue] does fail
    on some paths: one that starts with a dollar sign is rejected. *)
Lemma setValue_descends_into_sequence :
  JSONHandler.setValue
    (VObject [("a", VArray [Scenario.num 1; Scenario.num 2])]) "a.0" (VNumber 9)
  = Returned (VObject [("a", VArray [Scenario.num 9; Scenario.num 2])])
  /\ Spec.assign [("a", VArray [Scenario.num 1; Scenario.num 2])]
       (split "." "a.0") (VNumber 9)
     = [("a", VObject [("0", VNumber 9)])]
  /\ JSONHandler.setValue
       (VObject [("a", VArray [Scenario.num 1; Scenario.num 2])]) "a.0"
       (VNumber 9)
     <> Returned
          (VObject (Spec.assign [("a", VArray [Scenario.num 1; Scenario.num 2])]
                      (split "." "a.0") (VNumber 9)))
  /\ JSONHandler.setValue (VObject []) "$.a" (VNumber 9)
     = Threw (Failed "Failed to set value"
                (Error ("Use dot notation for setting values (e.g., "
                        ++ quoted "user.name" ++ ")"))).
Proof. repeat split; try reflexivity. discriminate. Qed.

(** C3, as amended: on a Mapping, for a path that does not start with a
    dollar sign and whose walk meets only Mappings, Bool, Number or String
    scalars and missing entries, [setValue] returns the tree the
    specification describes: every missing or scalar node on the way is
    replaced by a fresh empty Mapping and the last segment is set to the
    value. *)
Theorem setValue_builds_mappings (props : list (string * value))
  (path : string) (v : value) :
  startsWith "$" path = false ->
  Spec.plain_route props (split "." path) = true ->
  JSONHandler.setValue (VObject props) path v
  = Returned (VObject (Spec.assign props (split "." path) v)).
Proof.
  intros Hdollar Hroute. unfold JSONHandler.setValue. rewrite Hdollar.
  now rewrite setValue_loop_plain_route.
Qed.

(** An instance: [assign({}, "a.b.c", 5)] is [{"a":{"b":{"c":5}}}]. *)
Lemma setValue_builds_mappings_witness :
  startsWith "$" "a.b.c" = false
  /\ Spec.plain_route [] (split "." "a.b.c") = true
  /\ JSONHandler.setValue (VObject []) "a.b.c" (VNumber 5)
     = Returned (VObject [("a", VObject [("b", VObject [("c", VNumber 5)])])]).
Proof.
  split; [reflexivity|]. split; [reflexivity|].
  apply (setValue_builds_mappings [] "a.b.c" (VNumber 5)); reflexivity.
Defined.

(** ** C5: write, then read *)

Lemma bind_unmodelled {A B : Type} (m : outcome A) (k : A -> outcome B) :
  bind m k = Unmodelled ->
  m = Unmodelled \/ exists a, m = Returned a /\ k a = Unmodelled.
Proof. destruct m; simpl; intros H; try discriminate; eauto. Qed.

Lemma get_property_unmodelled (current : value) (key : string) :
  has_property current key = Returned true ->
  get_property current key = Unmodelled ->
  inherited_by_object key = true
  \/ (array_index key = None /\ exists items, current = VArray items).
Proof.
  destruct current as [| | | | |items|props]; simpl; try discriminate.
  - destruct (array_index key); [discriminate|]. eauto.
  - destruct (own props key); [discriminate|].
    destruct (inherited_by_object key); [auto | discriminate].
Qed.

Lemma set_property_unmodelled (current : value) (key : string) (x : value) :
  set_property current key x = Unmodelled ->
  inherited_by_object key = true
  \/ (array_index key = None /\ exists items, current = VArray items).
Proof.
  destruct current as [| | | | |items|props]; simpl; try discriminate.
  - destruct (array_index key); [discriminate|]. eauto.
  - destruct (own props key); [discriminate|].
    destruct (String.eqb key "__proto__") eqn:E; [|discriminate].
    apply String.eqb_eq in E. subst key. auto.
Qed.

(** Nothing is found along a path in an empty Mapping. *)
Lemma getValue_loop_empty (pre : list string) (items : list (option value)) :
  JSONHandler.getValue_loop (VObject []) pre <> Returned (VArray items).
Proof.
  destruct pre as [|key pre]; simpl; [discriminate|].
  destruct (inherited_by_object key); simpl; discriminate.
Qed.

Lemma outside_here (current : value) (key : string) (rest : list string) :
  inherited_by_object key = true
  \/ (array_index key = None /\ exists items, current = VArray items) ->
  Route.outside current (key :: rest).
Proof.
  intros [Hinh | (Hidx & items & ->)].
  - left. exists key. simpl. auto.
  - right. exists [], key, rest, items. auto.
Qed.

Lemma setValue_loop_outside (keys : list string) :
  forall current v,
    keys <> [] ->
    JSONHandler.setValue_loop current keys v = Unmodelled ->
    Route.outside current keys.
Proof.
  induction keys as [|key rest IH]; intros current v Hne Hset;
    [contradiction|].
  destruct (list_eq_dec string_dec rest []) as [->|Hrest].
  - apply outside_here. now apply set_property_unmodelled with (x := v).
  - rewrite setValue_loop_cons in Hset by assumption.
    apply bind_unmodelled in Hset.
    destruct Hset as [Hfresh | (fresh & Hfresh & Hset)].
    { unfold JSONHandler.not_an_object_at in Hfresh.
      apply bind_unmodelled in Hfresh.
      destruct Hfresh as [Hhas | (present & Hpresent & Hfresh)].
      - destruct current; simpl in Hhas; try discriminate.
        + destruct (array_index key); discriminate.
        + destruct (own props key); discriminate.
      - destruct present; [|discriminate].
        apply bind_unmodelled in Hfresh.
        destruct Hfresh as [Hget | (held & _ & Hfresh)]; [|discriminate].
        apply outside_here. now apply get_property_unmodelled. }
    apply bind_unmodelled in Hset.
    destruct Hset as [Hparent | (parent & Hparent & Hset)].
    { destruct fresh; [|discriminate].
      apply outside_here.
      now apply set_property_unmodelled with (x := VObject []). }
    apply bind_unmodelled in Hset.
    destruct Hset as [Hnext | (next & Hnext & Hset)].
    { exfalso. destruct fresh.
      - apply set_then_get in Hparent.
        destruct Hparent as [_ [Hget | (_ & s & n & Hs & _)]];
          [congruence | discriminate].
      - injection Hparent as <-.
        unfold JSONHandler.not_an_object_at in Hfresh.
        bind_inv Hfresh as present Hpresent.
        destruct present; [|discriminate].
        bind_inv Hfresh as held Hheld. congruence. }
    apply bind_unmodelled in Hset.
    destruct Hset as [Hbelow | (next' & _ & Hset)]; [|discriminate].
    destruct (IH next v Hrest Hbelow)
      as [(k & Hin & Hinh) | (pre & k & rest' & items & -> & Hidx & Hread)].
    { left. exists k. simpl. auto. }
    right. exists (key :: pre), k, rest', items.
    split; [reflexivity|]. split; [assumption|].
    destruct fresh.
    + exfalso. apply set_then_get in Hparent.
      destruct Hparent as [_ [Hget | (_ & s & n & Hs & _)]];
        [|discriminate].
      rewrite Hget in Hnext. injection Hnext as <-.
      now apply getValue_loop_empty in Hread.
    + injection Hparent as <-.
      unfold JSONHandler.not_an_object_at in Hfresh.
      bind_inv Hfresh as present Hpresent.
      destruct present; [|discriminate].
      bind_inv Hfresh as held Hheld. rewrite Hheld in Hnext.
      injection Hnext as <-.
      cbn [JSONHandler.getValue_loop].
      rewrite is_object_walkable
        by (eapply has_property_container; eassumption).
      rewrite Hpresent. cbn [bind]. rewrite Hheld. cbn [bind]. exact Hread.
Qed.

Lemma getValue_loop_assign (keys : list string) :
  forall props v,
    Spec.plain_route props keys = true ->
    JSONHandler.getValue_loop (VObject (Spec.assign props keys v)) keys
    = Returned v.
Proof.
  induction keys as [|key rest IH]; intros props v Hroute; [discriminate|].
  destruct (list_eq_dec string_dec rest []) as [->|Hrest].
  - simpl. now rewrite own_define.
  - rewrite assign_cons by assumption.
    rewrite plain_route_cons in Hroute by assumption.
    cbn [JSONHandler.getValue_loop]. simpl. rewrite own_define. simpl.
    apply IH.
    destruct (own props key) as [[| | | | | |m]|]; try discriminate;
      try assumption.
    now apply andb_prop in Hroute.
Qed.

(** C5, counterexample: [assign] does not complete on every input, and
    where it completes the value read back is not always the value
    assigned.  A path that starts with a dollar sign, here [$ref], is
    rejected by the guard at the head of [setValue], and nothing can be
    assigned inside a tree that is a number; in both cases no tree is
    returned to resolve in.  And the String [3] assigned to the [length] of
    the Sequence of [{"a":[1]}] is read back as the number 3. *)
Lemma setValue_rejects_dollar_path :
  JSONHandler.setValue (VObject []) "$ref" (VNumber 5)
  = Threw (Failed "Failed to set value"
             (Error ("Use dot notation for setting values (e.g., "
                     ++ quoted "user.name" ++ ")")))
  /\ JSONHandler.setValue (VNumber 7) "a" (VNumber 5)
     = Threw (Failed "Failed to set value" TypeError)
  /\ ~ (exists obj',
          JSONHandler.setValue (VObject []) "$ref" (VNumber 5) = Returned obj'
          /\ JSONHandler.getValue obj' "$ref" = Returned (VNumber 5))
  /\ JSONHandler.setValue (VObject [("a", VArray [Scenario.num 1])])
       "a.length" (VString "3")
     = Returned (VObject [("a", VArray [Scenario.num 1; None; None])])
  /\ JSONHandler.getValue
       (VObject [("a", VArray [Scenario.num 1; None; None])]) "a.length"
     = Returned (VNumber 3)
  /\ JSONHandler.getValue
       (VObject [("a", VArray [Scenario.num 1; None; None])]) "a.length"
     <> Returned (VString "3").
Proof.
  split; [reflexivity|]. split; [reflexivity|].
  split; [intros (obj' & Hset & _); discriminate|].
  split; [reflexivity|]. split; [reflexivity | discriminate].
Qed.

(** C5, as amended: for every tree, every value and every path that does
    not start with a dollar sign, whenever [setValue] completes, [getValue]
    of the same path in the tree it returns is the value assigned, except
    that a String of digits assigned to the [length] of a Sequence is read
    back as the number it was converted to; and [setValue] does complete,
    so that the value is read back, on every Mapping and path whose walk
    meets only Mappings, Bool, Number or String scalars and missing
    entries.  The paths this statement does not answer for are those with a
    segment that names a property of [Object.prototype], such as
    [__proto__], and those that apply to a Sequence a segment that is no
    index; of these, [length] is answered for when the value is a Number
    below 2^32 or a String of digits. *)
Theorem setValue_then_getValue (obj : value) (path : string) (v : value) :
  startsWith "$" path = false ->
  (forall obj',
     JSONHandler.setValue obj path v = Returned obj' ->
     JSONHandler.getValue obj' path = Returned v
     \/ (last (split "." path) "" = "length"
         /\ exists s n,
              v = VString s
              /\ to_length v = Returned n
              /\ JSONHandler.getValue obj' path
                 = Returned (VNumber (Z.of_nat n))))
  /\ (forall props,
        obj = VObject props ->
        Spec.plain_route props (split "." path) = true ->
        exists obj',
          JSONHandler.setValue obj path v = Returned obj'
          /\ JSONHandler.getValue obj' path = Returned v)
  /\ (JSONHandler.setValue obj path v = Unmodelled ->
      Route.outside obj (split "." path)).
Proof.
  intros Hdollar. split; [|split].
  - unfold JSONHandler.setValue, JSONHandler.getValue. rewrite Hdollar.
    intros obj' Hset. apply rethrow_returned in Hset.
    destruct (setValue_loop_then_getValue_loop _ _ _ _
                (split_nonempty _ _) Hset)
      as [-> | (Hlast & s & n & Hs & Hn & ->)]; simpl; eauto 8.
  - intros props -> Hroute.
    unfold JSONHandler.setValue, JSONHandler.getValue. rewrite Hdollar.
    rewrite setValue_loop_plain_route by assumption. simpl.
    eexists. split; [reflexivity|].
    now rewrite getValue_loop_assign.
  - unfold JSONHandler.setValue. rewrite Hdollar. intros Hset.
    apply setValue_loop_outside with (v := v); [apply split_nonempty|].
    destruct (JSONHandler.setValue_loop obj (split "." path) v);
      simpl in Hset; congruence.
Qed.

(** An instance: the second step of the scenario of the specification, on
    [{"a":{"b":[1,2,3]}}]. *)
Lemma setValue_then_getValue_witness :
  startsWith "$" "a.c" = false
  /\ JSONHandler.setValue Scenario.nested "a.c" (VString "x")
     = Returned (VObject [("a", VObject [("b", VArray Scenario.one_two_three);
                                         ("c", VString "x")])])
  /\ JSONHandler.getValue
       (VObject [("a", VObject [("b", VArray Scenario.one_two_three);
                                ("c", VString "x")])]) "a.c"
     = Returned (VString "x").
Proof.
  split; [reflexivity|]. split; [reflexivity|].
  destruct (proj1 (setValue_then_getValue Scenario.nested "a.c" (VString "x")
                     eq_refl) _ eq_refl) as [H | (Hlast & _)];
    [exact H | discriminate Hlast].
Defined.

(** ** C4: deleting below [null] *)

Lemma overwrite_same (props : list (string * value)) (key : string)
  (v : value) :
  own props key = Some v -> overwrite props key v = props.
Proof.
  induction props as [|[k x] props IH]; simpl; [reflexivity|].
  destruct (String.eqb k key) eqn:E.
  - intros H. injection H as ->. reflexivity.
  - intros H. now rewrite IH.
Qed.

Lemma remove_absent (props : list (string * value)) (key : string) :
  own props key = None -> remove props key = props.
Proof.
  induction props as [|[k x] props IH]; simpl; [reflexivity|].
  destruct (String.eqb k key); [discriminate|].
  intros H. now rewrite IH.
Qed.

Lemma absent_cons (props : list (string * value)) (key : string)
  (rest : list string) :
  rest <> [] ->
  Spec.absent props (key :: rest) =
  match own props key with
  | Some (VObject m) => Spec.absent m rest
  | Some (VArray _) | Some VNull => false
  | Some _ => true
  | None => negb (inherited_by_object key)
  end.
Proof. destruct rest; [contradiction | reflexivity]. Qed.

Lemma deleteValue_loop_absent (keys : list string) :
  forall props,
    Spec.absent props keys = true ->
    JSONHandler.deleteValue_loop (VObject props) keys = Returned None
    \/ JSONHandler.deleteValue_loop (VObject props) keys
       = Returned (Some (VObject props)).
Proof.
  induction keys as [|key rest IH]; intros props Habsent; [discriminate|].
  destruct (list_eq_dec string_dec rest []) as [-> | Hne].
  - right. simpl in *. destruct (own props key) eqn:Hown; [discriminate|].
    now rewrite remove_absent.
  - rewrite deleteValue_loop_cons by assumption.
    rewrite absent_cons in Habsent by assumption.
    unfold JSONHandler.not_an_object_at. simpl has_property.
    destruct (own props key) as [held|] eqn:Hown.
    + destruct held; try discriminate;
        repeat (simpl; try rewrite Hown); auto.
      destruct (IH _ Habsent) as [-> | ->]; simpl; auto.
      right. now rewrite overwrite_same.
    + apply negb_true_iff in Habsent. rewrite Habsent. simpl. auto.
Qed.

(** Where the path does not exist in a Mapping, and the walk has met no
    [null] and no Sequence, [deleteValue] returns the tree as it was. *)
Lemma deleteValue_absent (props : list (string * value)) (path : string) :
  Spec.absent props (split "." path) = true ->
  JSONHandler.deleteValue (VObject props) path = Returned (VObject props).
Proof.
  intros Habsent. unfold JSONHandler.deleteValue.
  destruct (deleteValue_loop_absent _ _ Habsent) as [-> | ->]; reflexivity.
Qed.

Lemma deleteValue_loop_null (keys : list string) :
  JSONHandler.deleteValue_loop VNull keys = Threw TypeError.
Proof. destruct keys as [|key [|k2 rest]]; reflexivity. Qed.

(** Below a key that holds [null], both walks throw. *)
Lemma walks_throw_below_null (props : list (string * value)) (key : string)
  (rest : list string) (v : value) :
  own props key = Some VNull ->
  rest <> [] ->
  JSONHandler.setValue_loop (VObject props) (key :: rest) v = Threw TypeError
  /\ JSONHandler.deleteValue_loop (VObject props) (key :: rest)
     = Threw TypeError.
Proof.
  intros Hown Hne.
  rewrite setValue_loop_cons, deleteValue_loop_cons by assumption.
  unfold JSONHandler.not_an_object_at. simpl. rewrite Hown. simpl.
  rewrite Hown. simpl.
  now rewrite setValue_loop_null, deleteValue_loop_null.
Qed.

(** C4, the failing input: in [{"a":null}] the path [a.b] does not exist.
    [getValue] says so, and [deleteValue] leaves a tree alone whose [a] is a
    number, but on [null] it throws. *)
Theorem deleteValue_throws_below_null :
  JSONHandler.deleteValue Scenario.null_child "a.b"
  = Threw (Failed "Failed to delete value" TypeError)
  /\ JSONHandler.getValue Scenario.null_child "a.b" = Returned VUndefined
  /\ JSONHandler.deleteValue (VObject [("a", VNumber 5)]) "a.b"
     = Returned (VObject [("a", VNumber 5)]).
Proof. repeat split; reflexivity. Qed.

(** ** C7: numeric segments below a Sequence *)

Lemma getValue_loop_undefined (keys : list string) :
  JSONHandler.getValue_loop VUndefined keys = Returned VUndefined.
Proof. destruct keys; reflexivity. Qed.

Lemma getValue_loop_app (pre rest : list string) :
  forall current,
    JSONHandler.getValue_loop current (pre ++ rest) =
    (reached <- JSONHandler.getValue_loop current pre ;;
     JSONHandler.getValue_loop reached rest).
Proof.
  induction pre as [|key pre IH]; intros current; [reflexivity|].
  simpl. destruct (truthy current && String.eqb (typeof current) "object").
  - destruct (has_property current key) as [[|]| |]; simpl;
      try reflexivity; [|now rewrite getValue_loop_undefined].
    destruct (get_property current key); simpl; auto.
  - simpl. now rewrite getValue_loop_undefined.
Qed.

Lemma getValue_loop_cons_inv (current : value) (key : string)
  (rest : list string) (items : list (option value)) :
  JSONHandler.getValue_loop current (key :: rest) = Returned (VArray items) ->
  is_object current = true
  /\ has_property current key = Returned true
  /\ exists next,
       get_property current key = Returned next
       /\ JSONHandler.getValue_loop next rest = Returned (VArray items).
Proof.
  simpl.
  destruct (truthy current && String.eqb (typeof current) "object") eqn:W;
    [|discriminate].
  intros H. bind_inv H as present Hpresent. destruct present; [|discriminate].
  bind_inv H as next Hnext. split; [now apply walkable_is_object|]. eauto.
Qed.

Lemma getValue_loop_array_source (keys : list string) (current : value)
  (items : list (option value)) :
  JSONHandler.getValue_loop current keys = Returned (VArray items) ->
  is_object current = true.
Proof.
  destruct keys as [|key rest]; intros H.
  - injection H as ->. reflexivity.
  - now apply getValue_loop_cons_inv in H.
Qed.

Lemma is_object_typeof (v : value) :
  is_object v = true -> String.eqb (typeof v) "object" = true.
Proof. destruct v; simpl; intros H; auto; discriminate. Qed.

Lemma not_an_object_at_held (current : value) (key : string) (held : value) :
  has_property current key = Returned true ->
  get_property current key = Returned held ->
  is_object held = true ->
  JSONHandler.not_an_object_at current key = Returned false.
Proof.
  intros Hhas Hget Hobj. unfold JSONHandler.not_an_object_at.
  rewrite Hhas. simpl. rewrite Hget. simpl.
  now rewrite (is_object_typeof _ Hobj).
Qed.

Section Element.

Variables (key : string) (i : N).
Hypothesis Hindex : array_index key = Some i.

Lemma setValue_loop_reaches_element (pre : list string) (v : value) :
  forall current items,
    JSONHandler.getValue_loop current pre = Returned (VArray items) ->
    exists current',
      JSONHandler.setValue_loop current (pre ++ [key]) v = Returned current'
      /\ JSONHandler.getValue_loop current' pre
         = Returned (VArray (store items (N.to_nat i) (Some v))).
Proof.
  induction pre as [|k pre IH]; intros current items Hget.
  - injection Hget as ->. simpl. rewrite Hindex. eauto.
  - pose proof (getValue_loop_cons_inv _ _ _ _ Hget)
      as (Hobj & Hhas & next & Hnext & Hrest).
    pose proof (getValue_loop_array_source _ _ _ Hrest) as Hnextobj.
    destruct (IH _ _ Hrest) as (next' & Hset & Hget').
    exists (with_child current k next').
    destruct (child_link _ _ _ next' Hhas Hnext Hnextobj) as [Hhas' Hnext'].
    split.
    + change ((k :: pre) ++ [key]) with (k :: (pre ++ [key])).
      rewrite setValue_loop_cons by (now destruct pre).
      rewrite (not_an_object_at_held _ _ _ Hhas Hnext Hnextobj). simpl.
      rewrite Hnext. simpl. now rewrite Hset.
    + cbn [JSONHandler.getValue_loop].
      rewrite is_object_walkable by (now rewrite is_object_with_child).
      rewrite Hhas'. simpl. rewrite Hnext'. simpl. assumption.
Qed.

Lemma deleteValue_loop_reaches_element (pre : list string) :
  forall current items,
    JSONHandler.getValue_loop current pre = Returned (VArray items) ->
    exists current',
      JSONHandler.deleteValue_loop current (pre ++ [key])
      = Returned (Some current')
      /\ JSONHandler.getValue_loop current' pre
         = Returned (VArray (punch items (N.to_nat i))).
Proof.
  induction pre as [|k pre IH]; intros current items Hget.
  - injection Hget as ->. simpl. rewrite Hindex. simpl. eauto.
  - pose proof (getValue_loop_cons_inv _ _ _ _ Hget)
      as (Hobj & Hhas & next & Hnext & Hrest).
    pose proof (getValue_loop_array_source _ _ _ Hrest) as Hnextobj.
    destruct (IH _ _ Hrest) as (next' & Hdel & Hget').
    exists (with_child current k next').
    destruct (child_link _ _ _ next' Hhas Hnext Hnextobj) as [Hhas' Hnext'].
    split.
    + change ((k :: pre) ++ [key]) with (k :: (pre ++ [key])).
      rewrite deleteValue_loop_cons by (now destruct pre).
      rewrite (not_an_object_at_held _ _ _ Hhas Hnext Hnextobj). simpl.
      rewrite Hnext. simpl. now rewrite Hdel.
    + cbn [JSONHandler.getValue_loop].
      rewrite is_object_walkable by (now rewrite is_object_with_child).
      rewrite Hhas'. simpl. rewrite Hnext'. simpl. assumption.
Qed.

End Element.

(** Replacing or deleting an element leaves the length and the other
    elements alone. *)
Lemma length_store (items : list (option value)) (i : nat) (x : option value) :
  (i < length items)%nat -> length (store items i x) = length items.
Proof.
  revert i. induction items as [|y items IH]; intros [|i] Hin; simpl in *;
    try lia. rewrite IH; lia.
Qed.

Lemma nth_error_store_other (items : list (option value)) (i j : nat)
  (x : option value) :
  (i < length items)%nat -> j <> i ->
  nth_error (store items i x) j = nth_error items j.
Proof.
  revert i j. induction items as [|y items IH]; intros [|i] [|j] Hin Hne;
    simpl in *; try lia; try reflexivity.
  apply IH; lia.
Qed.

Lemma length_punch (items : list (option value)) (i : nat) :
  length (punch items i) = length items.
Proof.
  revert i. induction items as [|y items IH]; intros [|i]; simpl;
    try reflexivity. now rewrite IH.
Qed.

Lemma nth_error_punch_other (items : list (option value)) (i j : nat) :
  j <> i -> nth_error (punch items i) j = nth_error items j.
Proof.
  revert i j. induction items as [|y items IH]; intros [|i] [|j] Hne;
    simpl in *; try lia; try reflexivity.
  apply IH; lia.
Qed.

Lemma nth_error_punch (items : list (option value)) (i : nat) :
  nth_error (punch items i) i = None \/ nth_error (punch items i) i = Some None.
Proof.
  revert items. induction i as [|i IH]; intros [|y items]; simpl; auto.
Qed.

Lemma element_punch (items : list (option value)) (i : N) :
  element (punch items (N.to_nat i)) i = None.
Proof.
  unfold element. destruct (nth_error_punch items (N.to_nat i)) as [-> | ->];
    reflexivity.
Qed.

Lemma split_app (sep : ascii) (a b : string) :
  split sep (a ++ String sep b) = split sep a ++ split sep b.
Proof.
  induction a as [|c a IH]; simpl.
  - now rewrite Ascii.eqb_refl.
  - destruct (Ascii.eqb c sep); [now rewrite IH|].
    rewrite IH. pose proof (split_nonempty sep a).
    destruct (split sep a); [contradiction | reflexivity].
Qed.

Lemma uint_of_char_dot (d : option Decimal.uint) :
  DecimalString.uint_of_char "." d = None.
Proof. destruct d; reflexivity. Qed.

Lemma digits_split (s : string) (u : Decimal.uint) :
  NilEmpty.uint_of_string s = Some u -> split "." s = [s].
Proof.
  revert u. induction s as [|c s IH]; intros u H; [reflexivity|].
  simpl in *. destruct (Ascii.eqb c ".") eqn:E.
  - apply Ascii.eqb_eq in E. subst c. rewrite uint_of_char_dot in H.
    discriminate.
  - destruct (NilEmpty.uint_of_string s) as [u'|] eqn:Hs.
    + now rewrite (IH u').
    + destruct c as [[|] [|] [|] [|] [|] [|] [|] [|]]; discriminate.
Qed.

Lemma array_index_split (key : string) (i : N) :
  array_index key = Some i -> split "." key = [key].
Proof.
  unfold array_index, NilZero.uint_of_string. intros H.
  destruct key as [|c key]; [discriminate|].
  destruct (NilEmpty.uint_of_string (String c key)) as [u|] eqn:Hu;
    [|discriminate].
  now apply digits_split with u.
Qed.

Lemma startsWith_dollar_app (prefix rest : string) :
  startsWith "$" (prefix ++ "." ++ rest) = startsWith "$" prefix.
Proof. destruct prefix; reflexivity. Qed.

(** C7, counterexample: in [{"a":{"b":[1,2,3]}}] the path [a.b.0] addresses
    the first element of the Sequence; [setValue] replaces it and
    [deleteValue] removes it. *)
Lemma setValue_deleteValue_change_element :
  JSONHandler.getValue Scenario.nested "a.b.0" = Returned (VNumber 1)
  /\ (exists obj',
        JSONHandler.setValue Scenario.nested "a.b.0" (VNumber 9) = Returned obj'
        /\ JSONHandler.getValue obj' "a.b.0" = Returned (VNumber 9)
        /\ JSONHandler.getValue obj' "a.b.0"
           <> JSONHandler.getValue Scenario.nested "a.b.0")
  /\ (exists obj',
        JSONHandler.deleteValue Scenario.nested "a.b.0" = Returned obj'
        /\ JSONHandler.getValue obj' "a.b.0" = Returned VUndefined
        /\ JSONHandler.getValue obj' "a.b.0"
           <> JSONHandler.getValue Scenario.nested "a.b.0").
Proof.
  split; [reflexivity|]. split; eexists; (split; [reflexivity|]);
    (split; [reflexivity | discriminate]).
Qed.

Lemma nth_error_punch_hole (items : list (option value)) (i : nat) :
  (i < length items)%nat -> nth_error (punch items i) i = Some None.
Proof.
  revert i. induction items as [|y items IH]; intros [|i] Hin; simpl in *;
    try lia; [reflexivity | apply IH; lia].
Qed.

Lemma element_in_range (items : list (option value)) (i : N) (x : value) :
  element items i = Some x -> (N.to_nat i < length items)%nat.
Proof.
  unfold element. intros H. apply nth_error_Some.
  destruct (nth_error items (N.to_nat i)); [discriminate | discriminate].
Qed.

(** C7, as amended: where a path resolves to a Sequence, the path extended
    by a numeric segment that addresses one of its elements is writable and
    deletable.  [setValue] puts the value in the place of that element and
    [getValue] then returns it; [deleteValue] leaves a hole in the place of
    that element, which then resolves to [undefined].  In both cases the
    length of the Sequence and its other elements stay as they were. *)
Theorem setValue_deleteValue_reach_elements (obj : value) (prefix key : string)
  (i : N) (items : list (option value)) (x v : value) :
  JSONHandler.getValue obj prefix = Returned (VArray items) ->
  array_index key = Some i ->
  element items i = Some x ->
  (exists obj' items',
     JSONHandler.setValue obj (prefix ++ "." ++ key) v = Returned obj'
     /\ JSONHandler.getValue obj' (prefix ++ "." ++ key) = Returned v
     /\ JSONHandler.getValue obj' prefix = Returned (VArray items')
     /\ length items' = length items
     /\ nth_error items' (N.to_nat i) = Some (Some v)
     /\ forall j, j <> N.to_nat i -> nth_error items' j = nth_error items j)
  /\ (exists obj' items',
        JSONHandler.deleteValue obj (prefix ++ "." ++ key) = Returned obj'
        /\ JSONHandler.getValue obj' (prefix ++ "." ++ key)
           = Returned VUndefined
        /\ JSONHandler.getValue obj' prefix = Returned (VArray items')
        /\ length items' = length items
        /\ nth_error items' (N.to_nat i) = Some None
        /\ forall j, j <> N.to_nat i -> nth_error items' j = nth_error items j).
Proof.
  intros Hget Hindex Helement.
  pose proof (element_in_range _ _ _ Helement) as Hrange.
  unfold JSONHandler.getValue, JSONHandler.setValue, JSONHandler.deleteValue
    in *.
  rewrite startsWith_dollar_app.
  destruct (startsWith "$" prefix); [discriminate|].
  apply rethrow_returned in Hget.
  change (prefix ++ "." ++ key)%string with (prefix ++ String "." key)%string.
  rewrite split_app, (array_index_split _ _ Hindex).
  split.
  - destruct (setValue_loop_reaches_element key i Hindex _ v _ _ Hget)
      as (obj' & Hset & Hget').
    assert (Hne : split "." prefix ++ [key] <> [])
      by (intros E; apply app_eq_nil in E; destruct E; discriminate).
    exists obj', (store items (N.to_nat i) (Some v)).
    assert (Hread : JSONHandler.getValue_loop obj' (split "." prefix ++ [key])
                    = Returned v).
    { destruct (setValue_loop_then_getValue_loop _ _ _ _ Hne Hset)
        as [H | (Hlast & _)]; [exact H|].
      rewrite last_last in Hlast. subst key. discriminate Hindex. }
    rewrite Hset, Hget', Hread.
    repeat split.
    + now apply length_store.
    + apply nth_error_store.
    + intros j Hj. now apply nth_error_store_other.
  - destruct (deleteValue_loop_reaches_element key i Hindex _ _ _ Hget)
      as (obj' & Hdel & Hget').
    exists obj', (punch items (N.to_nat i)).
    rewrite Hdel, Hget'. rewrite getValue_loop_app, Hget'. simpl.
    rewrite Hindex, element_punch.
    repeat split.
    + apply length_punch.
    + now apply nth_error_punch_hole.
    + intros j Hj. now apply nth_error_punch_other.
Qed.

(** An instance: the first element of the Sequence of
    [{"a":{"b":[1,2,3]}}]. *)
Lemma setValue_deleteValue_reach_elements_witness :
  JSONHandler.getValue Scenario.nested "a.b"
  = Returned (VArray Scenario.one_two_three)
  /\ array_index "0" = Some 0%N
  /\ element Scenario.one_two_three 0 = Some (VNumber 1)
  /\ JSONHandler.setValue Scenario.nested "a.b.0" (VNumber 9)
     = Returned (VObject [("a", VObject [("b", VArray [Scenario.num 9;
                                                       Scenario.num 2;
                                                       Scenario.num 3])])])
  /\ JSONHandler.deleteValue Scenario.nested "a.b.0"
     = Returned (VObject [("a", VObject [("b", VArray [None;
                                                       Scenario.num 2;
                                                       Scenario.num 3])])])
  /\ (exists obj' items',
        JSONHandler.setValue Scenario.nested "a.b.0" (VNumber 9) = Returned obj'
        /\ JSONHandler.getValue obj' "a.b.0" = Returned (VNumber 9)
        /\ JSONHandler.getValue obj' "a.b" = Returned (VArray items')
        /\ length items' = 3%nat
        /\ nth_error items' 0 = Some (Some (VNumber 9))
        /\ forall j, j <> 0%nat ->
                     nth_error items' j = nth_error Scenario.one_two_three j).
Proof.
  split; [reflexivity|]. split; [reflexivity|]. split; [reflexivity|].
  split; [reflexivity|]. split; [reflexivity|].
  apply (setValue_deleteValue_reach_elements Scenario.nested "a.b" "0" 0%N
           Scenario.one_two_three (VNumber 1) (VNumber 9)); reflexivity.
Defined.

(** ** Induction on trees *)

Lemma value_induction (P : value -> Prop) :
  P VUndefined -> P VNull ->
  (forall b, P (VBool b)) -> (forall n, P (VNumber n)) ->
  (forall s, P (VString s)) ->
  (forall items,
     Forall (fun item => match item with Some v => P v | None => True end) items ->
     P (VArray items)) ->
  (forall props, Forall (fun kv => P (snd kv)) props -> P (VObject props)) ->
  forall v, P v.
Proof.
  intros Hundefined Hnull Hbool Hnumber Hstring Harray Hobject.
  set (Q := fun item : option value =>
              match item with Some v => P v | None => True end) in *.
  refine (fix IH (v : value) : P v :=
            match v with
            | VUndefined => Hundefined
            | VNull => Hnull
            | VBool b => Hbool b
            | VNumber n => Hnumber n
            | VString s => Hstring s
            | VArray items =>
                Harray items
                  ((fix each (l : list (option value)) : Forall Q l :=
                      match l with
                      | [] => Forall_nil Q
                      | item :: l' =>
                          @Forall_cons _ Q item l'
                            (match item as o return Q o with
                             | Some child => IH child
                             | None => I
                             end) (each l')
                      end) items)
            | VObject props =>
                Hobject props
                  ((fix each (l : list (string * value))
                      : Forall (fun kv => P (snd kv)) l :=
                      match l with
                      | [] => Forall_nil _
                      | kv :: l' =>
                          @Forall_cons _ (fun kv => P (snd kv)) kv l'
                            (IH (snd kv)) (each l')
                      end) props)
            end).
Qed.

(** ** C8: the depth bound of [getStructure] *)






(** ** C9: what [getAllKeys] lists *)

Lemma getAllKeys_items_flat_map (prefix : string) (maxDepth currentDepth : Z)
  (bound : nat) (rest : list (option value)) :
  forall i,
    JSONHandler.getAllKeys_items
      (fun child prefix' =>
         JSONHandler.getAllKeys child prefix' maxDepth (currentDepth + 1))
      prefix bound rest i
    = flat_map (Spec.item_paths prefix maxDepth currentDepth)
        (combine (seq i (bound - i)) rest).
Proof.
  induction rest as [|item rest IH]; intros i; simpl.
  - now destruct (seq i (bound - i)).
  - destruct (i <? bound)%nat eqn:Hi.
    + apply Nat.ltb_lt in Hi.
      replace (bound - i)%nat with (S (bound - S i)) by lia.
      simpl. rewrite IH. reflexivity.
    + apply Nat.ltb_ge in Hi.
      replace (bound - i)%nat with O by lia. reflexivity.
Qed.

Lemma getAllKeys_props_flat_map (prefix : string) (maxDepth currentDepth : Z)
  (rest : list (string * value)) :
  JSONHandler.getAllKeys_props
    (fun child prefix' =>
       JSONHandler.getAllKeys child prefix' maxDepth (currentDepth + 1))
    prefix rest
  = flat_map (Spec.key_paths prefix maxDepth currentDepth) rest.
Proof.
  induction rest as [|[key child] rest IH]; simpl; [reflexivity|].
  now rewrite IH.
Qed.


Lemma getAllKeys_array (items : list (option value)) (prefix : string)
  (maxDepth currentDepth : Z) :
  (maxDepth <=? currentDepth)%Z = false ->
  JSONHandler.getAllKeys (VArray items) prefix maxDepth currentDepth
  = JSONHandler.getAllKeys_items
      (fun child prefix' =>
         JSONHandler.getAllKeys child prefix' maxDepth (currentDepth + 1))
      prefix (Nat.min (length items) 10) items O
    ++ (if (10 <? length items)%nat
        then [JSONHandler.moreItems prefix (length items - 10)] else []).
Proof. intros Hdepth. simpl. now rewrite Hdepth. Qed.

Lemma getAllKeys_object (props : list (string * value)) (prefix : string)
  (maxDepth currentDepth : Z) :
  (maxDepth <=? currentDepth)%Z = false ->
  JSONHandler.getAllKeys (VObject props) prefix maxDepth currentDepth
  = JSONHandler.getAllKeys_props
      (fun child prefix' =>
         JSONHandler.getAllKeys child prefix' maxDepth (currentDepth + 1))
      prefix props.
Proof. intros Hdepth. simpl. now rewrite Hdepth. Qed.

Lemma getAllKeys_beyond (obj : value) (prefix : string)
  (maxDepth currentDepth : Z) :
  (maxDepth <=? currentDepth)%Z = true ->
  JSONHandler.getAllKeys obj prefix maxDepth currentDepth = [].
Proof. intros Hdepth. destruct obj; simpl; now rewrite Hdepth. Qed.



(** ** C2: which values [searchKeyword] tests *)

Lemma search_scalar (opts : JSONHandler.options) (pattern : JSONHandler.term)
  (current : value) (path : string) (st : JSONHandler.state) :
  is_object current = false ->
  JSONHandler.search opts pattern current path st = st.
Proof.
  destruct current; simpl; intros H; try discriminate;
    destruct (JSONHandler.maxResults opts <=? _)%Z; try reflexivity;
    match goal with |- (if ?c then _ else _) = _ => destruct c end;
    reflexivity.
Qed.

Lemma search_items_scalars (opts : JSONHandler.options)
  (pattern : JSONHandler.term) (path : string) (items : list (option value)) :
  forallb Spec.scalar items = true ->
  forall i st,
    JSONHandler.search_items (JSONHandler.search opts pattern) path items i st
    = st.
Proof.
  induction items as [|item items IH]; simpl; intros H i st; [reflexivity|].
  apply andb_prop in H. destruct H as [Hitem Hitems].
  rewrite IH by assumption. destruct item as [child|]; [|reflexivity].
  apply search_scalar. now apply negb_true_iff in Hitem.
Qed.

Lemma yaml_search_scalar (opts : YAMLHandler.options)
  (pattern : JSONHandler.term) (current : value) (path : string)
  (st : YAMLHandler.state) :
  is_object current = false ->
  YAMLHandler.search opts pattern current path st = Returned st.
Proof.
  destruct current; simpl; intros H; try discriminate;
    destruct (JSONHandler.maxResults opts <=? _)%Z; try reflexivity;
    match goal with |- (if ?c then _ else _) = _ => destruct c end;
    reflexivity.
Qed.

Lemma yaml_search_items_scalars (opts : YAMLHandler.options)
  (pattern : JSONHandler.term) (path : string) (items : list (option value)) :
  forallb Spec.scalar items = true ->
  forall i st,
    YAMLHandler.search_items (YAMLHandler.search opts pattern) path items i st
    = Returned st.
Proof.
  induction items as [|item items IH]; simpl; intros H i st; [reflexivity|].
  apply andb_prop in H. destruct H as [Hitem Hitems].
  destruct item as [child|]; simpl; [|now apply IH].
  rewrite yaml_search_scalar by (now apply negb_true_iff in Hitem).
  simpl. now apply IH.
Qed.

(** C2, counterexample: the search of [{"name":"widget","tags":["red","blue"]}]
    for [red] with the default options.  The JSON handler returns no Match;
    the YAML handler returns one, for the key [tags] and with the whole
    Sequence as its value.  Neither returns a Match at [tags[0]]. *)
Lemma searchKeyword_misses_sequence_element :
  JSONHandler.searchKeyword Scenario.RegExp_new JSONHandler.defaults
    Scenario.widget "red" = Returned []
  /\ YAMLHandler.searchKeyword Scenario.RegExp_new YAMLHandler.defaults
       Scenario.widget "red"
     = Returned [{| YAMLHandler.type := "value";
                    YAMLHandler.path := "tags";
                    YAMLHandler.key := "tags";
                    YAMLHandler.value :=
                      VArray [Scenario.str "red"; Scenario.str "blue"];
                    YAMLHandler.matchType := "value" |}]
  /\ ~ (exists key,
          JSONHandler.searchKeyword Scenario.RegExp_new JSONHandler.defaults
            Scenario.widget "red"
          = Returned [{| JSONHandler.type := "value";
                         JSONHandler.path := "tags[0]";
                         JSONHandler.key := key;
                         JSONHandler.value := VString "red" |}]).
Proof.
  split; [reflexivity|]. split; [reflexivity|].
  intros [key H]. discriminate.
Qed.

(** ** C1: the cap on the results *)

(** The one place where the cap is looked at: a call of [search] that is
    entered with the cap reached returns at once. *)
Lemma search_at_cap (opts : JSONHandler.options) (pattern : JSONHandler.term)
  (current : value) (path : string) (st : JSONHandler.state) :
  (JSONHandler.maxResults opts
   <= Z.of_nat (length (JSONHandler.results st)))%Z ->
  JSONHandler.search opts pattern current path st = st.
Proof.
  intros Hcap. apply Z.leb_le in Hcap.
  destruct current; simpl; rewrite Hcap; reflexivity.
Qed.

(** C1, the failing input: the search of [{"aa":"aa"}] for [a] with
    maxResults 1 returns two Matches.  The cap is looked at when [search]
    is entered, not when a Match is pushed. *)
Theorem searchKeyword_exceeds_maxResults :
  forall RegExp_new,
    JSONHandler.searchKeyword RegExp_new
      {| JSONHandler.searchKeys := true; JSONHandler.searchValues := true;
         JSONHandler.caseSensitive := false; JSONHandler.regex := false;
         JSONHandler.maxResults := 1 |}
      Scenario.twice "a"
    = Returned [{| JSONHandler.type := "key"; JSONHandler.path := "aa";
                   JSONHandler.key := "aa";
                   JSONHandler.value := VString "aa" |};
                {| JSONHandler.type := "value"; JSONHandler.path := "aa";
                   JSONHandler.key := "aa";
                   JSONHandler.value := VString "aa" |}].
Proof. reflexivity. Qed.

(** ** C10: the state of the compiled pattern *)

(** In substring mode the answer of [matches] is a function of the text. *)
Lemma matches_keyword_stateless (opts : JSONHandler.options)
  (text keyword : string) (st st' : JSONHandler.state) :
  fst (JSONHandler.matches opts text (JSONHandler.Keyword keyword) st)
  = fst (JSONHandler.matches opts text (JSONHandler.Keyword keyword) st').
Proof. reflexivity. Qed.

(** C10, the failing input: the search of [{"x":"a","y":"a"}] for the
    pattern [a] in the values.  The two values are the same text; the first
    is matched and leaves [lastIndex] at 1, from where the test of the
    second fails. *)
Theorem regex_test_depends_on_earlier_tests :
  JSONHandler.searchKeyword Scenario.RegExp_new
    {| JSONHandler.searchKeys := false; JSONHandler.searchValues := true;
       JSONHandler.caseSensitive := false; JSONHandler.regex := true;
       JSONHandler.maxResults := 100 |}
    Scenario.same_text "a"
  = Returned [{| JSONHandler.type := "value"; JSONHandler.path := "x";
                 JSONHandler.key := "x"; JSONHandler.value := VString "a" |}]
  /\ YAMLHandler.searchKeyword Scenario.RegExp_new
       {| JSONHandler.searchKeys := false; JSONHandler.searchValues := true;
          JSONHandler.caseSensitive := false; JSONHandler.regex := true;
          JSONHandler.maxResults := 100 |}
       Scenario.same_text "a"
     = Returned [{| YAMLHandler.type := "value"; YAMLHandler.path := "x";
                    YAMLHandler.key := "x"; YAMLHandler.value := VString "a";
                    YAMLHandler.matchType := "value" |}]
  /\ test (literal "a" true) "a" 0 = (true, 1%nat)
  /\ test (literal "a" true) "a" 1 = (false, 0%nat).
Proof. repeat split; reflexivity. Qed.

(** * Further properties *)

(** ** Reading never throws *)

Lemma getValue_loop_never_throws (keys : list string) :
  forall current e, JSONHandler.getValue_loop current keys <> Threw e.
Proof.
  induction keys as [|key rest IH]; intros current e; simpl; [discriminate|].
  destruct (truthy current && String.eqb (typeof current) "object") eqn:Hwalk;
    [|discriminate].
  apply walkable_is_object in Hwalk.
  destruct current as [| | | | |items|props]; try discriminate; simpl.
  - destruct (array_index key) as [i|]; simpl.
    + destruct (is_some (element items i)); [apply IH | discriminate].
    + destruct (String.eqb key "length"); simpl; [apply IH|].
      destruct (inherited_by_array key); simpl; discriminate.
  - destruct (own props key) as [v|]; simpl; [apply IH|].
    destruct (inherited_by_object key); simpl; discriminate.
Qed.

Lemma getValue_never_throws_dot (obj : value) (path : string) (e : error) :
  startsWith "$" path = false ->
  JSONHandler.getValue obj path <> Threw e.
Proof.
  intros Hdot. unfold JSONHandler.getValue. rewrite Hdot.
  destruct (JSONHandler.getValue_loop obj (split "." path)) as [v|e'|] eqn:Hloop;
    simpl; try discriminate.
  now apply getValue_loop_never_throws in Hloop.
Qed.

(** X1.  [getValue] on a dot-notation path never throws, whatever the tree
    and the path: it returns the value found or [undefined] (or reaches a
    property inherited from a prototype).  Only a path that starts with [$]
    can end in the error [Failed to get value]. *)
Theorem getValue_never_throws (obj : value) (path : string) (e : error) :
  startsWith "$" path = false ->
  JSONHandler.getValue obj path <> Threw e.
Proof.
  apply getValue_never_throws_dot.
Qed.

Lemma getValue_never_throws_witness :
  startsWith "$" "a.b.c" = false
  /\ JSONHandler.getValue Scenario.null_child "a.b.c"
     <> Threw (Failed "Failed to get value" TypeError).
Proof.
  split; [reflexivity|].
  apply (getValue_never_throws Scenario.null_child "a.b.c"). reflexivity.
Defined.

(** ** appendToArray *)

Lemma getValue_loop_put_back (keys : list string) :
  forall current items mutated,
    JSONHandler.getValue_loop current keys = Returned (VArray items) ->
    JSONHandler.getValue_loop
      (JSONHandlerMore.put_back current keys mutated) keys
    = Returned mutated.
Proof.
  induction keys as [|key rest IH]; intros current items mutated Hget;
    [reflexivity|].
  destruct (getValue_loop_cons_inv _ _ _ _ Hget)
    as (Hobj & Hhas & next & Hnext & Hrest).
  assert (Hnext_obj : is_object next = true)
    by (eapply getValue_loop_array_source; eassumption).
  cbn [JSONHandlerMore.put_back]. rewrite Hnext.
  destruct (child_link _ _ _ (JSONHandlerMore.put_back next rest mutated)
              Hhas Hnext Hnext_obj) as [Hhas' Hget'].
  cbn [JSONHandler.getValue_loop].
  rewrite is_object_walkable by (now rewrite is_object_with_child).
  rewrite Hhas'. simpl. rewrite Hget'. simpl. eauto.
Qed.

(** X2.  Where [getValue] finds a Sequence at a dot-notation path,
    [appendToArray] returns, and the tree it returns holds at that path the
    same Sequence with the value added as its last element. *)
Theorem appendToArray_appends (obj : value) (arrayPath : string)
  (items : list (option value)) (v : value) :
  JSONHandler.getValue obj arrayPath = Returned (VArray items) ->
  exists obj',
    JSONHandlerMore.appendToArray obj arrayPath v = Returned obj'
    /\ JSONHandler.getValue obj' arrayPath
       = Returned (VArray (items ++ [Some v])).
Proof.
  intros Hget. unfold JSONHandlerMore.appendToArray. rewrite Hget. simpl.
  eexists. split; [reflexivity|].
  apply rethrow_returned in Hget. unfold JSONHandler.getValue in *.
  destruct (startsWith "$" arrayPath); [discriminate|]. simpl.
  erewrite getValue_loop_put_back by eassumption. reflexivity.
Qed.

Lemma appendToArray_appends_witness :
  JSONHandler.getValue Scenario.nested "a.b"
  = Returned (VArray Scenario.one_two_three)
  /\ exists obj',
       JSONHandlerMore.appendToArray Scenario.nested "a.b" (VNumber 4)
       = Returned obj'
       /\ JSONHandler.getValue obj' "a.b"
          = Returned (VArray (Scenario.one_two_three ++ [Some (VNumber 4)])).
Proof.
  split; [reflexivity|].
  apply (appendToArray_appends Scenario.nested "a.b" Scenario.one_two_three).
  reflexivity.
Defined.

(** X3.  On a dot-notation path, where [getValue] finds anything but a
    Sequence, also [undefined] for a path that does not exist,
    [appendToArray] throws [Failed to append to array: Path ... does not
    point to an array]; it never creates the Sequence, and it throws no
    other error. *)
Theorem appendToArray_needs_array (obj : value) (arrayPath : string)
  (v : value) :
  startsWith "$" arrayPath = false ->
  (forall found,
     JSONHandler.getValue obj arrayPath = Returned found ->
     (forall items, found <> VArray items) ->
     JSONHandlerMore.appendToArray obj arrayPath v
     = Threw (Failed "Failed to append to array"
                (Error ("Path " ++ arrayPath
                        ++ " does not point to an array"))))
  /\ (forall e,
        JSONHandlerMore.appendToArray obj arrayPath v = Threw e ->
        e = Failed "Failed to append to array"
              (Error ("Path " ++ arrayPath ++ " does not point to an array"))).
Proof.
  intros Hdot. split.
  - intros found Hget Hother. unfold JSONHandlerMore.appendToArray.
    rewrite Hget. destruct found; try reflexivity. now elim (Hother items).
  - intros e. unfold JSONHandlerMore.appendToArray.
    destruct (JSONHandler.getValue obj arrayPath) as [found|e'|] eqn:Hget;
      simpl.
    + destruct found; simpl; congruence.
    + now apply getValue_never_throws_dot in Hget.
    + discriminate.
Qed.

Lemma appendToArray_needs_array_witness :
  startsWith "$" "a.c" = false
  /\ JSONHandler.getValue Scenario.nested "a.c" = Returned VUndefined
  /\ JSONHandlerMore.appendToArray Scenario.nested "a.c" (VNumber 4)
     = Threw (Failed "Failed to append to array"
                (Error "Path a.c does not point to an array")).
Proof.
  split; [reflexivity|]. split; [reflexivity|].
  apply (proj1 (appendToArray_needs_array Scenario.nested "a.c" (VNumber 4)
                  eq_refl) VUndefined); [reflexivity | discriminate].
Defined.

(** ** Writing back what was read *)


Lemma element_nth_error (items : list (option value)) (i : N) (x : value) :
  element items i = Some x -> nth_error items (N.to_nat i) = Some (Some x).
Proof.
  unfold element. destruct (nth_error items (N.to_nat i)) as [[y|]|];
    congruence.
Qed.









(** ** What a write and a deletion leave alone *)

Lemma own_overwrite_other (props : list (string * value)) (key k : string)
  (x : value) :
  k <> key -> own (overwrite props key x) k = own props k.
Proof.
  intros Hk. induction props as [|[k' v] props IH]; simpl; [reflexivity|].
  destruct (String.eqb k' key) eqn:E; simpl.
  - apply String.eqb_eq in E. subst k'.
    apply String.eqb_neq in Hk. rewrite String.eqb_sym in Hk. now rewrite Hk.
  - now rewrite IH.
Qed.

Lemma own_insert_index_other (n : N) (props : list (string * value))
  (key k : string) (x : value) :
  k <> key -> own (insert_index n key x props) k = own props k.
Proof.
  intros Hk. apply String.eqb_neq in Hk. rewrite String.eqb_sym in Hk.
  induction props as [|[k' v] props IH]; simpl; [now rewrite Hk|].
  destruct (array_index k') as [m|]; [destruct (m <? n)%N|]; simpl;
    rewrite ?Hk, ?IH; reflexivity.
Qed.

Lemma own_app_other (props : list (string * value)) (key k : string)
  (x : value) :
  k <> key -> own (props ++ [(key, x)]) k = own props k.
Proof.
  intros Hk. apply String.eqb_neq in Hk. rewrite String.eqb_sym in Hk.
  induction props as [|[k' v] props IH]; simpl; [now rewrite Hk|].
  now rewrite IH.
Qed.

Lemma own_define_other (props : list (string * value)) (key k : string)
  (x : value) :
  k <> key -> own (define props key x) k = own props k.
Proof.
  intros Hk. unfold define. destruct (own props key).
  - now apply own_overwrite_other.
  - destruct (array_index key);
      [now apply own_insert_index_other | now apply own_app_other].
Qed.

Lemma own_remove_other (props : list (string * value)) (key k : string) :
  k <> key -> own (remove props key) k = own props k.
Proof.
  intros Hk. induction props as [|[k' v] props IH]; simpl; [reflexivity|].
  destruct (String.eqb k' key) eqn:E; simpl.
  - apply String.eqb_eq in E. subst k'.
    apply String.eqb_neq in Hk. rewrite String.eqb_sym in Hk. now rewrite Hk.
  - now rewrite IH.
Qed.

(** Two Mappings whose entries under [k] agree are read alike along a path
    that starts with [k]. *)
Lemma getValue_loop_same_entry (props props' : list (string * value))
  (k : string) (rest : list string) :
  own props' k = own props k ->
  JSONHandler.getValue_loop (VObject props') (k :: rest)
  = JSONHandler.getValue_loop (VObject props) (k :: rest).
Proof. intros Hown. simpl. now rewrite Hown. Qed.

Lemma set_property_object_frame (props : list (string * value))
  (key : string) (x current' : value) :
  set_property (VObject props) key x = Returned current' ->
  exists props',
    current' = VObject props'
    /\ forall k, k <> key -> own props' k = own props k.
Proof.
  simpl. destruct (own props key).
  - intros H. injection H as <-. eexists. split; [reflexivity|].
    intros k Hk. now apply own_overwrite_other.
  - destruct (String.eqb key "__proto__"); [discriminate|].
    intros H. injection H as <-. eexists. split; [reflexivity|].
    intros k Hk. now apply own_define_other.
Qed.

Lemma setValue_loop_object_frame (props : list (string * value))
  (key : string) (rest : list string) (v obj' : value) :
  JSONHandler.setValue_loop (VObject props) (key :: rest) v = Returned obj' ->
  exists props',
    obj' = VObject props'
    /\ forall k, k <> key -> own props' k = own props k.
Proof.
  destruct (list_eq_dec string_dec rest []) as [->|Hne].
  - apply set_property_object_frame.
  - rewrite setValue_loop_cons by assumption. intros Hset.
    bind_inv Hset as fresh Hfresh. bind_inv Hset as parent Hparent.
    bind_inv Hset as next Hnext. bind_inv Hset as next' Hnext'.
    injection Hset as <-.
    assert (Hframe : exists props1,
               parent = VObject props1
               /\ forall k, k <> key -> own props1 k = own props k).
    { destruct fresh.
      - now apply set_property_object_frame in Hparent.
      - injection Hparent as <-. eauto. }
    destruct Hframe as (props1 & -> & Hframe). simpl.
    eexists. split; [reflexivity|]. intros k Hk.
    rewrite own_overwrite_other by assumption. auto.
Qed.

Lemma deleteValue_loop_object_frame (props : list (string * value))
  (key : string) (rest : list string) (obj' : value) :
  JSONHandler.deleteValue_loop (VObject props) (key :: rest)
  = Returned (Some obj') ->
  exists props',
    obj' = VObject props'
    /\ forall k, k <> key -> own props' k = own props k.
Proof.
  destruct (list_eq_dec string_dec rest []) as [->|Hne].
  - simpl. intros H. injection H as <-. eexists. split; [reflexivity|].
    intros k Hk. now apply own_remove_other.
  - rewrite deleteValue_loop_cons by assumption. intros Hdel.
    bind_inv Hdel as missing Hmissing. destruct missing; [discriminate|].
    bind_inv Hdel as next Hnext. bind_inv Hdel as done Hdone.
    destruct done as [next'|]; [|discriminate]. injection Hdel as <-. simpl.
    eexists. split; [reflexivity|]. intros k Hk.
    now apply own_overwrite_other.
Qed.

(** X5.  [setValue] on a Mapping, at a path that has no segment
    [__proto__], changes nothing outside the entry named by the first
    segment of the path: the result is a Mapping, and every path whose first
    segment is another key reads after the write what it read before.
    (Through a segment [__proto__] the walk reaches [Object.prototype],
    which every tree shares; such a path is set aside.  A path that names
    another inherited property, or applies to a Sequence a segment that is
    no index, is not answered for.) *)
Theorem setValue_keeps_other_entries (props : list (string * value))
  (path : string) (v obj' : value) (other : string) :
  Route.plain path = true ->
  JSONHandler.setValue (VObject props) path v = Returned obj' ->
  hd "" (split "." other) <> hd "" (split "." path) ->
  (exists props', obj' = VObject props')
  /\ JSONHandler.getValue obj' other
     = JSONHandler.getValue (VObject props) other.
Proof.
  intros _ Hset Hother. apply rethrow_returned in Hset.
  unfold JSONHandler.getValue.
  destruct (startsWith "$" path); [discriminate|].
  destruct (split "." path) as [|key rest] eqn:Hpath;
    [now apply split_nonempty in Hpath|].
  apply setValue_loop_object_frame in Hset.
  destruct Hset as (props' & -> & Hframe). split; [eauto|].
  destruct (startsWith "$" other); [reflexivity|].
  destruct (split "." other) as [|k rest'] eqn:Hk;
    [now apply split_nonempty in Hk|].
  simpl in Hother. now rewrite (getValue_loop_same_entry props props') by auto.
Qed.

Lemma setValue_keeps_other_entries_witness :
  Route.plain "tags.0" = true
  /\ JSONHandler.setValue Scenario.widget "tags.0" (VString "green")
     = Returned (VObject [("name", VString "widget");
                          ("tags", VArray [Scenario.str "green";
                                           Scenario.str "blue"])])
  /\ hd "" (split "." "name") <> hd "" (split "." "tags.0")
  /\ JSONHandler.getValue
       (VObject [("name", VString "widget");
                 ("tags", VArray [Scenario.str "green"; Scenario.str "blue"])])
       "name"
     = JSONHandler.getValue Scenario.widget "name".
Proof.
  split; [reflexivity|]. split; [reflexivity|]. split; [discriminate|].
  apply (setValue_keeps_other_entries
           [("name", VString "widget");
            ("tags", VArray [Scenario.str "red"; Scenario.str "blue"])]
           "tags.0" (VString "green"));
    [reflexivity | reflexivity | discriminate].
Defined.

(** X6.  [deleteValue] on a Mapping, at a path that has no segment
    [__proto__], changes nothing outside the entry named by the first
    segment of the path: the result is a Mapping, and every path whose first
    segment is another key reads after the deletion what it read before.
    (Through a segment [__proto__] the walk reaches [Object.prototype],
    which every tree shares; such a path is set aside.  A path that names
    another inherited property before its last segment is not answered
    for.) *)
Theorem deleteValue_keeps_other_entries (props : list (string * value))
  (path : string) (obj' : value) (other : string) :
  Route.plain path = true ->
  JSONHandler.deleteValue (VObject props) path = Returned obj' ->
  hd "" (split "." other) <> hd "" (split "." path) ->
  (exists props', obj' = VObject props')
  /\ JSONHandler.getValue obj' other
     = JSONHandler.getValue (VObject props) other.
Proof.
  intros _ Hdel Hother. apply rethrow_returned in Hdel.
  bind_inv Hdel as done Hdone. injection Hdel as <-.
  destruct done as [obj'|]; [|eauto].
  unfold JSONHandler.getValue.
  destruct (split "." path) as [|key rest] eqn:Hpath;
    [now apply split_nonempty in Hpath|].
  apply deleteValue_loop_object_frame in Hdone.
  destruct Hdone as (props' & -> & Hframe). split; [eauto|].
  destruct (startsWith "$" other); [reflexivity|].
  destruct (split "." other) as [|k rest'] eqn:Hk;
    [now apply split_nonempty in Hk|].
  simpl in Hother. now rewrite (getValue_loop_same_entry props props') by auto.
Qed.

Lemma deleteValue_keeps_other_entries_witness :
  Route.plain "tags.0" = true
  /\ JSONHandler.deleteValue Scenario.widget "tags.0"
     = Returned (VObject [("name", VString "widget");
                          ("tags", VArray [None; Scenario.str "blue"])])
  /\ hd "" (split "." "name") <> hd "" (split "." "tags.0")
  /\ JSONHandler.getValue
       (VObject [("name", VString "widget");
                 ("tags", VArray [None; Scenario.str "blue"])])
       "name"
     = JSONHandler.getValue Scenario.widget "name".
Proof.
  split; [reflexivity|]. split; [reflexivity|]. split; [discriminate|].
  apply (deleteValue_keeps_other_entries
           [("name", VString "widget");
            ("tags", VArray [Scenario.str "red"; Scenario.str "blue"])]
           "tags.0"); [reflexivity | reflexivity | discriminate].
Defined.

(** ** Reading after a deletion *)

Lemma own_not_mem (props : list (string * value)) (key : string) :
  mem key (List.map fst props) = false -> own props key = None.
Proof.
  unfold mem. induction props as [|[k v] props IH]; simpl; [reflexivity|].
  intros H. apply orb_false_elim in H. destruct H as [Hk Hrest].
  rewrite String.eqb_sym, Hk. auto.
Qed.

Lemma own_remove (props : list (string * value)) (key : string) :
  Count.distinct (List.map fst props) = true ->
  own (remove props key) key = None.
Proof.
  induction props as [|[k v] props IH]; simpl; [reflexivity|].
  intros H. apply andb_prop in H. destruct H as [Hfresh Hrest].
  destruct (String.eqb k key) eqn:E; simpl.
  - apply String.eqb_eq in E. subst k. apply own_not_mem.
    now apply negb_true_iff in Hfresh.
  - rewrite E. auto.
Qed.

Lemma unique_keys_own (props : list (string * value)) (key : string)
  (child : value) :
  Count.all_props Count.unique_keys props = true ->
  own props key = Some child ->
  Count.unique_keys child = true.
Proof.
  induction props as [|[k v] props IH]; simpl; [discriminate|].
  intros H. apply andb_prop in H. destruct H as [Hv Hrest].
  destruct (String.eqb k key); [congruence | auto].
Qed.

Lemma unique_keys_nth_error (items : list (option value)) (i : nat)
  (child : value) :
  Count.all_items Count.unique_keys items = true ->
  nth_error items i = Some (Some child) ->
  Count.unique_keys child = true.
Proof.
  revert i. induction items as [|[y|] items IH]; intros [|i]; simpl;
    try discriminate.
  - intros H Hy. injection Hy as ->. now apply andb_prop in H.
  - intros H. apply andb_prop in H. destruct H. eauto.
  - eauto.
Qed.

Lemma unique_keys_get_property (parent : value) (key : string)
  (child : value) :
  Count.unique_keys parent = true ->
  get_property parent key = Returned child ->
  Count.unique_keys child = true.
Proof.
  destruct parent as [| | | | |items|props]; try discriminate.
  - cbn [get_property Count.unique_keys]. intros Hall.
    destruct (array_index key) as [i|].
    + destruct (element items i) as [x|] eqn:Helt;
        intros H; injection H as <-; [|reflexivity].
      apply element_nth_error in Helt. eapply unique_keys_nth_error; eauto.
    + destruct (String.eqb key "length"); [intros H; now injection H as <-|].
      destruct (inherited_by_array key); [discriminate|].
      intros H; now injection H as <-.
  - cbn [get_property Count.unique_keys]. intros Hall.
    apply andb_prop in Hall. destruct Hall as [_ Hall].
    destruct (own props key) as [x|] eqn:Hown.
    + intros H. injection H as <-. eapply unique_keys_own; eauto.
    + destruct (inherited_by_object key); [discriminate|].
      intros H; now injection H as <-.
Qed.

Lemma not_walkable (v : value) :
  String.eqb (typeof v) "object" = false ->
  truthy v && String.eqb (typeof v) "object" = false.
Proof. intros ->. apply andb_false_r. Qed.

Lemma inherited_by_object_array (key : string) :
  inherited_by_object key = true -> inherited_by_array key = true.
Proof. unfold inherited_by_array, inherited_by_object. intros ->. apply orb_true_r. Qed.

(** The tree a deletion leaves, [done] being what the loop produced. *)
Lemma deleteValue_loop_then_getValue_loop (keys : list string) :
  forall current done,
    keys <> [] ->
    Count.unique_keys current = true ->
    JSONHandler.deleteValue_loop current keys = Returned done ->
    let current' := match done with Some c => c | None => current end in
    JSONHandler.getValue_loop current' keys = Returned VUndefined
    \/ (JSONHandler.getValue_loop current' keys = Unmodelled
        /\ inherited_by_array (last keys "") = true).
Proof.
  induction keys as [|key rest IH]; intros current done Hne Huniq Hdel;
    [contradiction|].
  destruct (list_eq_dec string_dec rest []) as [->|Hrest].
  - cbn [JSONHandler.deleteValue_loop] in Hdel.
    bind_inv Hdel as current' Hcurrent'. injection Hdel as <-.
    cbn [last JSONHandler.getValue_loop].
    destruct current as [| |b|n|s|items|props]; simpl in Hcurrent';
      try discriminate.
    + injection Hcurrent' as <-. left. simpl. now rewrite andb_false_r.
    + injection Hcurrent' as <-. left. simpl. now rewrite andb_false_r.
    + destruct (array_index key) as [i|] eqn:Hidx.
      * injection Hcurrent' as <-. simpl. rewrite Hidx, element_punch. auto.
      * destruct (String.eqb key "length") eqn:Hlen; [discriminate|].
        injection Hcurrent' as <-. simpl. rewrite Hidx, Hlen. simpl.
        destruct (inherited_by_array key); simpl; auto.
    + injection Hcurrent' as <-. simpl.
      simpl in Huniq. apply andb_prop in Huniq. destruct Huniq as [Hdist _].
      rewrite own_remove by assumption. simpl.
      destruct (inherited_by_object key) eqn:Hinh; simpl; [|auto].
      right. split; [reflexivity|]. now apply inherited_by_object_array.
  - assert (Hlast : last (key :: rest) "" = last rest "")
      by (destruct rest; [contradiction | reflexivity]).
    rewrite Hlast. rewrite deleteValue_loop_cons in Hdel by assumption.
    bind_inv Hdel as missing Hmissing. destruct missing.
    + injection Hdel as <-. left.
      unfold JSONHandler.not_an_object_at in Hmissing.
      bind_inv Hmissing as present Hpresent.
      cbn [JSONHandler.getValue_loop].
      destruct (truthy current && String.eqb (typeof current) "object");
        [|reflexivity].
      rewrite Hpresent. simpl. destruct present; [|reflexivity].
      bind_inv Hmissing as held Hheld. rewrite Hheld. simpl.
      injection Hmissing as Hmissing. apply negb_true_iff in Hmissing.
      destruct rest as [|k2 rest]; [contradiction|].
      cbn [JSONHandler.getValue_loop]. now rewrite not_walkable.
    + unfold JSONHandler.not_an_object_at in Hmissing.
      bind_inv Hmissing as present Hpresent.
      destruct present; [|discriminate].
      bind_inv Hmissing as held Hheld. injection Hmissing as Hmissing.
      apply negb_false_iff in Hmissing.
      bind_inv Hdel as next Hnext. rewrite Hheld in Hnext.
      injection Hnext as <-.
      bind_inv Hdel as below Hbelow. injection Hdel as <-.
      destruct (typeof_object _ Hmissing) as [-> | Hobj].
      { rewrite deleteValue_loop_null in Hbelow. discriminate. }
      assert (Huniq' : Count.unique_keys held = true)
        by (eapply unique_keys_get_property; eassumption).
      specialize (IH held below Hrest Huniq' Hbelow).
      assert (Hcontainer : is_object current = true)
        by (eapply has_property_container; eassumption).
      destruct below as [next'|]; cbn [option_map].
      * destruct (child_link _ _ _ next' Hpresent Hheld Hobj)
          as [Hhas' Hget'].
        cbn [JSONHandler.getValue_loop].
        rewrite is_object_walkable by (now rewrite is_object_with_child).
        rewrite Hhas'. simpl. rewrite Hget'. simpl. exact IH.
      * cbn [JSONHandler.getValue_loop].
        rewrite is_object_walkable by assumption.
        rewrite Hpresent. simpl. rewrite Hheld. simpl. exact IH.
Qed.

(** X7.  After [deleteValue] has returned, [getValue] finds nothing at the
    path: it returns [undefined], whether the deletion removed an entry, left
    a hole in a Sequence or found no such path.  The one exception is a last
    segment that names a property every object inherits (such as
    [toString]), which is still there after the deletion.  The keys of each
    Mapping of the tree are taken to be distinct, as they are in any object. *)
Theorem deleteValue_then_getValue (obj : value) (path : string) (obj' : value) :
  Count.unique_keys obj = true ->
  startsWith "$" path = false ->
  JSONHandler.deleteValue obj path = Returned obj' ->
  JSONHandler.getValue obj' path = Returned VUndefined
  \/ (JSONHandler.getValue obj' path = Unmodelled
      /\ inherited_by_array (last (split "." path) "") = true).
Proof.
  intros Huniq Hdot Hdel. apply rethrow_returned in Hdel.
  bind_inv Hdel as done Hdone. injection Hdel as <-.
  unfold JSONHandler.getValue. rewrite Hdot.
  destruct (deleteValue_loop_then_getValue_loop _ _ _ (split_nonempty _ _)
              Huniq Hdone) as [-> | [-> Hinh]]; auto.
Qed.

Lemma deleteValue_then_getValue_witness :
  Count.unique_keys Scenario.widget = true
  /\ startsWith "$" "tags.1" = false
  /\ JSONHandler.deleteValue Scenario.widget "tags.1"
     = Returned (VObject [("name", VString "widget");
                          ("tags", VArray [Scenario.str "red"; None])])
  /\ JSONHandler.getValue
       (VObject [("name", VString "widget");
                 ("tags", VArray [Scenario.str "red"; None])]) "tags.1"
     = Returned VUndefined.
Proof.
  split; [reflexivity|]. split; [reflexivity|]. split; [reflexivity|].
  destruct (deleteValue_then_getValue Scenario.widget "tags.1"
              (VObject [("name", VString "widget");
                        ("tags", VArray [Scenario.str "red"; None])]))
    as [H | [H _]]; [reflexivity | reflexivity | reflexivity | exact H |].
  discriminate H.
Defined.

(** ** Writing twice, deleting twice *)

Lemma store_store (items : list (option value)) (i : nat)
  (x y : option value) :
  store (store items i x) i y = store items i y.
Proof.
  revert items. induction i as [|i IH]; intros [|z items]; simpl;
    try reflexivity.
  - now rewrite (IH []).
  - now rewrite IH.
Qed.

Lemma set_property_twice (current : value) (key : string) (x y current' : value) :
  key <> "length" ->
  set_property current key x = Returned current' ->
  set_property current' key y = set_property current key y.
Proof.
  intros Hkey. apply String.eqb_neq in Hkey.
  destruct current as [| | | | |items|props]; simpl; try discriminate.
  - destruct (array_index key) as [i|] eqn:Hidx;
      [|rewrite Hkey; discriminate].
    intros H. injection H as <-. simpl. rewrite Hidx. now rewrite store_store.
  - destruct (own props key) as [old|] eqn:Hown.
    + intros H. injection H as <-. simpl.
      rewrite own_overwrite by congruence. now rewrite overwrite_overwrite.
    + destruct (String.eqb key "__proto__"); [discriminate|].
      intros H. injection H as <-. simpl.
      rewrite own_define. now rewrite overwrite_define.
Qed.

Lemma set_property_container (current : value) (key : string)
  (x current' : value) :
  set_property current key x = Returned current' -> is_object current' = true.
Proof.
  destruct current as [| | | | |items|props]; simpl; try discriminate.
  - destruct (array_index key); [intros H; now injection H as <-|].
    destruct (String.eqb key "length"); [|discriminate].
    destruct (to_length x); simpl; try discriminate.
    intros H. now injection H as <-.
  - destruct (own props key); [intros H; now injection H as <-|].
    destruct (String.eqb key "__proto__"); [discriminate|].
    intros H. now injection H as <-.
Qed.

Lemma setValue_loop_container (keys : list string) (current v current' : value) :
  JSONHandler.setValue_loop current keys v = Returned current' ->
  is_object current' = true.
Proof.
  destruct keys as [|key rest]; [apply set_property_container|].
  destruct (list_eq_dec string_dec rest []) as [->|Hne];
    [apply set_property_container|].
  rewrite setValue_loop_cons by assumption. intros Hset.
  bind_inv Hset as fresh Hfresh. bind_inv Hset as parent Hparent.
  bind_inv Hset as next Hnext. bind_inv Hset as next' Hnext'.
  injection Hset as <-. rewrite is_object_with_child.
  destruct fresh.
  - eapply set_property_container; eassumption.
  - injection Hparent as <-. unfold JSONHandler.not_an_object_at in Hfresh.
    bind_inv Hfresh as present Hpresent.
    eapply has_property_container; eassumption.
Qed.

Lemma with_child_twice (parent : value) (key : string) (held x y : value) :
  has_property parent key = Returned true ->
  get_property parent key = Returned held ->
  is_object held = true ->
  with_child (with_child parent key x) key y = with_child parent key y.
Proof.
  destruct parent as [| | | | |items|props]; simpl; try reflexivity.
  - destruct (array_index key) as [i|] eqn:Hidx; simpl; [|now rewrite Hidx].
    intros Hhas _ _. injection Hhas as Hhas. rewrite Hhas, Hidx. simpl.
    rewrite element_store. simpl. now rewrite store_store.
  - intros _ _ _. now rewrite overwrite_overwrite.
Qed.

Lemma setValue_loop_twice (keys : list string) :
  forall current v1 v2 current1,
    keys <> [] ->
    last keys "" <> "length" ->
    JSONHandler.setValue_loop current keys v1 = Returned current1 ->
    JSONHandler.setValue_loop current1 keys v2
    = JSONHandler.setValue_loop current keys v2.
Proof.
  induction keys as [|key rest IH]; intros current v1 v2 current1 Hne Hlast Hset;
    [contradiction|].
  destruct (list_eq_dec string_dec rest []) as [->|Hrest];
    [now apply set_property_twice with (x := v1)|].
  assert (Hlast' : last rest "" <> "length")
    by (destruct rest; [contradiction | exact Hlast]).
  rewrite setValue_loop_cons in Hset by assumption.
  rewrite !setValue_loop_cons by assumption.
  bind_inv Hset as fresh Hfresh. bind_inv Hset as parent Hparent.
  bind_inv Hset as next Hnext. bind_inv Hset as next1 Hnext1.
  injection Hset as <-.
  destruct (setValue_step _ _ _ _ _ Hfresh Hparent Hnext)
    as [Hhas [-> | Hobj]].
  { rewrite setValue_loop_null in Hnext1. discriminate. }
  destruct (child_link _ _ _ next1 Hhas Hnext Hobj) as [Hhas1 Hget1].
  rewrite (not_an_object_at_held _ _ _ Hhas1 Hget1)
    by (eapply setValue_loop_container; eassumption).
  rewrite Hfresh. cbn [bind]. rewrite Hparent. cbn [bind].
  rewrite Hget1, Hnext. cbn [bind].
  rewrite (IH _ _ v2 _ Hrest Hlast' Hnext1).
  destruct (JSONHandler.setValue_loop next rest v2) as [next2| |];
    cbn [bind]; try reflexivity.
  now rewrite (with_child_twice _ _ _ _ _ Hhas Hnext Hobj).
Qed.

(** X8.  The later write wins: for a path that has no segment [__proto__]
    and whose last segment is not [length], [setValue], run on what an
    earlier [setValue] at the same path has returned, gives what it gives
    without the earlier write, the same entries in the same order, and fails
    where that fails.  (Assigned to the [length] of a Sequence, a shorter
    length drops elements that a later, longer one does not bring back;
    assigned to [__proto__], an object becomes the prototype and a later
    scalar does not undo that.  A path that names another inherited
    property, or applies to a Sequence a segment that is no index, is not
    answered for.) *)
Theorem setValue_twice (obj : value) (path : string) (v1 v2 obj1 : value) :
  Route.plain path = true ->
  last (split "." path) "" <> "length" ->
  JSONHandler.setValue obj path v1 = Returned obj1 ->
  JSONHandler.setValue obj1 path v2 = JSONHandler.setValue obj path v2.
Proof.
  intros _ Hlast Hset. apply rethrow_returned in Hset.
  unfold JSONHandler.setValue in *.
  destruct (startsWith "$" path); [discriminate|].
  now rewrite (setValue_loop_twice _ _ _ _ _ (split_nonempty _ _) Hlast Hset).
Qed.

Lemma setValue_twice_witness :
  Route.plain "size.w" = true
  /\ last (split "." "size.w") "" <> "length"
  /\ JSONHandler.setValue Scenario.widget "size.w" (VNumber 1)
     = Returned (VObject [("name", VString "widget");
                          ("tags", VArray [Scenario.str "red";
                                           Scenario.str "blue"]);
                          ("size", VObject [("w", VNumber 1)])])
  /\ JSONHandler.setValue
       (VObject [("name", VString "widget");
                 ("tags", VArray [Scenario.str "red"; Scenario.str "blue"]);
                 ("size", VObject [("w", VNumber 1)])]) "size.w" (VNumber 2)
     = JSONHandler.setValue Scenario.widget "size.w" (VNumber 2)
  /\ JSONHandler.setValue Scenario.widget "size.w" (VNumber 2)
     = Returned (VObject [("name", VString "widget");
                          ("tags", VArray [Scenario.str "red";
                                           Scenario.str "blue"]);
                          ("size", VObject [("w", VNumber 2)])]).
Proof.
  split; [reflexivity|]. split; [discriminate|]. split; [reflexivity|].
  split; [|reflexivity].
  apply (setValue_twice Scenario.widget "size.w" (VNumber 1));
    [reflexivity | discriminate | reflexivity].
Defined.

(** Why [length] is set aside: on [{"a":{"b":[1,2,3]}}], the length 1 and
    then 3 leaves one element and two holes, the length 3 alone leaves the
    three elements. *)
Lemma setValue_length_twice :
  JSONHandler.setValue Scenario.nested "a.b.length" (VNumber 1)
  = Returned (VObject [("a", VObject [("b", VArray [Scenario.num 1])])])
  /\ JSONHandler.setValue
       (VObject [("a", VObject [("b", VArray [Scenario.num 1])])])
       "a.b.length" (VNumber 3)
     = Returned (VObject [("a", VObject [("b", VArray [Scenario.num 1;
                                                       None; None])])])
  /\ JSONHandler.setValue Scenario.nested "a.b.length" (VNumber 3)
     = Returned Scenario.nested.
Proof. repeat split. Qed.

Lemma punch_punch (items : list (option value)) (i : nat) :
  punch (punch items i) i = punch items i.
Proof.
  revert items. induction i as [|i IH]; intros [|z items]; simpl;
    try reflexivity.
  now rewrite IH.
Qed.

Lemma delete_property_twice (current : value) (key : string) (current' : value) :
  Count.unique_keys current = true ->
  delete_property current key = Returned current' ->
  delete_property current' key = Returned current'.
Proof.
  destruct current as [| |b|n|s|items|props]; simpl; try discriminate.
  - intros _ H. now injection H as <-.
  - intros _ H. now injection H as <-.
  - intros _. destruct (array_index key) as [i|] eqn:Hidx.
    + intros H. injection H as <-. simpl. rewrite Hidx. now rewrite punch_punch.
    + destruct (String.eqb key "length") eqn:Hlen; [discriminate|].
      intros H. injection H as <-. simpl. now rewrite Hidx, Hlen.
  - intros Huniq H. injection H as <-. simpl.
    apply andb_prop in Huniq. destruct Huniq as [Hdist _].
    now rewrite remove_absent by now apply own_remove.
Qed.

Lemma delete_property_container (current : value) (key : string)
  (current' : value) :
  delete_property current key = Returned current' ->
  is_object current' = is_object current.
Proof.
  destruct current as [| |b|n|s|items|props]; simpl; try discriminate;
    try (intros H; now injection H as <-).
  destruct (array_index key); [intros H; now injection H as <-|].
  destruct (String.eqb key "length"); [discriminate|].
  intros H; now injection H as <-.
Qed.

Lemma deleteValue_loop_container (keys : list string) (current current' : value) :
  JSONHandler.deleteValue_loop current keys = Returned (Some current') ->
  is_object current' = is_object current.
Proof.
  destruct keys as [|key rest].
  - simpl. intros H. bind_inv H as c Hc. injection H as <-.
    eapply delete_property_container; eassumption.
  - destruct (list_eq_dec string_dec rest []) as [->|Hne].
    + simpl. intros H. bind_inv H as c Hc. injection H as <-.
      eapply delete_property_container; eassumption.
    + rewrite deleteValue_loop_cons by assumption. intros H.
      bind_inv H as missing Hmissing. destruct missing; [discriminate|].
      bind_inv H as next Hnext. bind_inv H as done Hdone.
      destruct done as [next'|]; [|discriminate]. injection H as <-.
      apply is_object_with_child.
Qed.

Lemma deleteValue_loop_twice (keys : list string) :
  forall current current',
    Count.unique_keys current = true ->
    JSONHandler.deleteValue_loop current keys = Returned (Some current') ->
    JSONHandler.deleteValue_loop current' keys = Returned (Some current')
    \/ JSONHandler.deleteValue_loop current' keys = Returned None.
Proof.
  induction keys as [|key rest IH]; intros current current' Huniq Hdel.
  - simpl in *. bind_inv Hdel as c Hc. injection Hdel as <-.
    left. now rewrite (delete_property_twice _ _ _ Huniq Hc).
  - destruct (list_eq_dec string_dec rest []) as [->|Hne].
    + simpl in *. bind_inv Hdel as c Hc. injection Hdel as <-.
      left. now rewrite (delete_property_twice _ _ _ Huniq Hc).
    + rewrite deleteValue_loop_cons in Hdel by assumption.
      rewrite deleteValue_loop_cons by assumption.
      bind_inv Hdel as missing Hmissing. destruct missing; [discriminate|].
      unfold JSONHandler.not_an_object_at in Hmissing.
      bind_inv Hmissing as present Hpresent.
      destruct present; [|discriminate].
      bind_inv Hmissing as held Hheld. injection Hmissing as Hmissing.
      apply negb_false_iff in Hmissing.
      bind_inv Hdel as next Hnext. rewrite Hheld in Hnext.
      injection Hnext as <-.
      bind_inv Hdel as below Hbelow.
      destruct below as [next'|]; [|discriminate]. injection Hdel as <-.
      destruct (typeof_object _ Hmissing) as [-> | Hobj].
      { rewrite deleteValue_loop_null in Hbelow. discriminate. }
      destruct (child_link _ _ _ next' Hpresent Hheld Hobj) as [Hhas' Hget'].
      assert (Hobj' : is_object next' = true)
        by (rewrite (deleteValue_loop_container _ _ _ Hbelow); assumption).
      rewrite (not_an_object_at_held _ _ _ Hhas' Hget' Hobj'). cbn [bind].
      rewrite Hget'. cbn [bind].
      assert (Huniq' : Count.unique_keys held = true)
        by (eapply unique_keys_get_property; eassumption).
      destruct (IH held next' Huniq' Hbelow) as [-> | ->]; cbn [bind option_map];
        [left | now right].
      now rewrite (with_child_twice _ _ _ _ _ Hpresent Hheld Hobj).
Qed.

(** X9.  Deleting twice is deleting once: [deleteValue] at a path, run on
    what [deleteValue] at the same path has returned, returns that tree
    unchanged.  The keys of each Mapping of the tree are taken to be
    distinct. *)
Theorem deleteValue_twice (obj : value) (path : string) (obj' : value) :
  Count.unique_keys obj = true ->
  JSONHandler.deleteValue obj path = Returned obj' ->
  JSONHandler.deleteValue obj' path = Returned obj'.
Proof.
  intros Huniq Hdel. pose proof Hdel as Hagain.
  apply rethrow_returned in Hdel. bind_inv Hdel as done Hdone.
  injection Hdel as <-. destruct done as [obj'|]; [|exact Hagain].
  unfold JSONHandler.deleteValue.
  destruct (deleteValue_loop_twice _ _ _ Huniq Hdone) as [-> | ->]; reflexivity.
Qed.

Lemma deleteValue_twice_witness :
  Count.unique_keys Scenario.nested = true
  /\ JSONHandler.deleteValue Scenario.nested "a.b.1"
     = Returned (VObject [("a", VObject [("b", VArray [Scenario.num 1; None;
                                                       Scenario.num 3])])])
  /\ JSONHandler.deleteValue
       (VObject [("a", VObject [("b", VArray [Scenario.num 1; None;
                                              Scenario.num 3])])]) "a.b.1"
     = Returned (VObject [("a", VObject [("b", VArray [Scenario.num 1; None;
                                                       Scenario.num 3])])]).
Proof.
  split; [reflexivity|]. split; [reflexivity|].
  apply (deleteValue_twice Scenario.nested "a.b.1"); reflexivity.
Defined.

(** ** getSummary *)

Lemma counts_scalar (v : value) :
  is_object v = false -> Count.below v = 0%nat /\ Count.entries v = 0%nat.
Proof. destruct v; simpl; intros H; auto; discriminate. Qed.

Lemma height_array (items : list (option value)) :
  Count.height (VArray items)
  = Count.max_items
      (fun child => if is_object child then S (Count.height child) else 0%nat)
      items.
Proof. reflexivity. Qed.

Lemma height_object (props : list (string * value)) :
  Count.height (VObject props)
  = Count.max_props
      (fun child => if is_object child then S (Count.height child) else 0%nat)
      props.
Proof. reflexivity. Qed.

Ltac fields :=
  cbn [JSONHandlerMore.type JSONHandlerMore.size JSONHandlerMore.depth
       JSONHandlerMore.keys] in *.

Lemma summary_eq (t : string) (a b c a' b' c' : nat) :
  a = a' -> b = b' -> c = c' ->
  {| JSONHandlerMore.type := t; JSONHandlerMore.size := a;
     JSONHandlerMore.depth := b; JSONHandlerMore.keys := c |}
  = {| JSONHandlerMore.type := t; JSONHandlerMore.size := a';
       JSONHandlerMore.depth := b'; JSONHandlerMore.keys := c' |}.
Proof. now intros -> -> ->. Qed.

Lemma analyze_items_counts (c : nat) (items : list (option value)) :
  Forall (fun item => match item with
                      | Some child => forall d s, Count.analyzed child d s
                      | None => True
                      end) items ->
  forall s,
    (c <= JSONHandlerMore.depth s)%nat ->
    JSONHandlerMore.analyze_items
      (fun child => JSONHandlerMore.analyze child (S c)) items s
    = {| JSONHandlerMore.type := JSONHandlerMore.type s;
         JSONHandlerMore.size :=
           JSONHandlerMore.size s + Count.sum_items Count.below items;
         JSONHandlerMore.depth :=
           Nat.max (JSONHandlerMore.depth s)
             (c + Count.max_items
                    (fun child => if is_object child
                                  then S (Count.height child) else 0%nat)
                    items);
         JSONHandlerMore.keys :=
           JSONHandlerMore.keys s + Count.sum_items Count.entries items |}.
Proof.
  induction 1 as [|item items Hitem _ IH]; intros s Hc;
    cbn [JSONHandlerMore.analyze_items Count.sum_items Count.max_items].
  - destruct s; fields. apply summary_eq; lia.
  - destruct item as [child|].
    + destruct (is_object child) eqn:Hobj.
      * rewrite (Hitem (S c) s). rewrite IH by (fields; lia). fields.
        apply summary_eq; lia.
      * destruct (counts_scalar _ Hobj) as [-> ->]. rewrite IH by assumption.
        apply summary_eq; lia.
    + now rewrite IH.
Qed.

Lemma analyze_values_counts (c : nat) (props : list (string * value)) :
  Forall (fun kv => forall d s, Count.analyzed (snd kv) d s) props ->
  forall s,
    (c <= JSONHandlerMore.depth s)%nat ->
    JSONHandlerMore.analyze_values
      (fun child => JSONHandlerMore.analyze child (S c)) props s
    = {| JSONHandlerMore.type := JSONHandlerMore.type s;
         JSONHandlerMore.size :=
           JSONHandlerMore.size s + Count.sum_props Count.below props;
         JSONHandlerMore.depth :=
           Nat.max (JSONHandlerMore.depth s)
             (c + Count.max_props
                    (fun child => if is_object child
                                  then S (Count.height child) else 0%nat)
                    props);
         JSONHandlerMore.keys :=
           JSONHandlerMore.keys s + Count.sum_props Count.entries props |}.
Proof.
  induction 1 as [|[key child] props Hitem _ IH]; intros s Hc;
    cbn [JSONHandlerMore.analyze_values Count.sum_props Count.max_props].
  - destruct s; fields. apply summary_eq; lia.
  - cbn [snd] in Hitem. destruct (is_object child) eqn:Hobj.
    + rewrite (Hitem (S c) s). rewrite IH by (fields; lia). fields.
      apply summary_eq; lia.
    + destruct (counts_scalar _ Hobj) as [-> ->]. rewrite IH by assumption.
      apply summary_eq; lia.
Qed.

Lemma analyze_counts (obj : value) :
  forall currentDepth s, Count.analyzed obj currentDepth s.
Proof.
  induction obj as [| | | | |items IH|props IH] using value_induction;
    intros c st; unfold Count.analyzed;
    try (destruct st; cbn [JSONHandlerMore.analyze Count.below Count.height
                            Count.entries]; fields; apply summary_eq; lia).
  - cbn [JSONHandlerMore.analyze].
    rewrite (analyze_items_counts c items IH) by (fields; lia).
    rewrite height_array. cbn [Count.below Count.entries]. fields.
    apply summary_eq; lia.
  - cbn [JSONHandlerMore.analyze].
    rewrite (analyze_values_counts c props IH) by (fields; lia).
    rewrite height_object. cbn [Count.below Count.entries]. fields.
    apply summary_eq; lia.
Qed.

Lemma entries_le_below (obj : value) :
  (Count.entries obj <= Count.below obj)%nat.
Proof.
  induction obj as [| | | | |items IH|props IH] using value_induction;
    simpl; try lia.
  - enough (Count.sum_items Count.entries items
            <= Count.sum_items Count.below items)%nat by lia.
    induction IH as [|[child|] items Hitem _ IHitems]; simpl; lia.
  - enough (Count.sum_props Count.entries props
            <= Count.sum_props Count.below props)%nat by lia.
    induction IH as [|[key child] props Hitem _ IHprops]; simpl in *; lia.
Qed.

(** X10.  [getSummary] counts the whole tree: [size] is the number of
    elements and entries of every Sequence and Mapping at any depth, [keys]
    the number of Mapping entries among them (so [keys] never exceeds
    [size]), and [depth] the deepest nesting of Sequences and Mappings, 0 for
    a tree that holds scalars only.  [type] is [array] for a Sequence and
    [object] for anything else, scalars and [null] included. *)
Theorem getSummary_counts (data : value) :
  JSONHandlerMore.getSummary data
  = {| JSONHandlerMore.type :=
         match data with VArray _ => "array" | _ => "object" end;
       JSONHandlerMore.size := Count.below data;
       JSONHandlerMore.depth := Count.height data;
       JSONHandlerMore.keys := Count.entries data |}
  /\ (JSONHandlerMore.keys (JSONHandlerMore.getSummary data)
      <= JSONHandlerMore.size (JSONHandlerMore.getSummary data))%nat.
Proof.
  assert (Hsum : JSONHandlerMore.getSummary data
                 = {| JSONHandlerMore.type :=
                        match data with VArray _ => "array" | _ => "object" end;
                      JSONHandlerMore.size := Count.below data;
                      JSONHandlerMore.depth := Count.height data;
                      JSONHandlerMore.keys := Count.entries data |}).
  { unfold JSONHandlerMore.getSummary. rewrite analyze_counts. fields.
    apply summary_eq; lia. }
  split; [exact Hsum|]. rewrite Hsum. fields. apply entries_le_below.
Qed.

(** ** searchKeyword reports only what matches *)

Lemma visit_sound (opts : JSONHandler.options) (keyword prefix key : string)
  (v : value) (st : JSONHandler.state) :
  Forall (Hit.sound opts keyword) (JSONHandler.results st) ->
  Forall (Hit.sound opts keyword)
    (JSONHandler.results
       (JSONHandler.visit opts (JSONHandler.Keyword keyword)
          (JSONHandler.keyPath prefix key) key v st)).
Proof.
  intros Hst. unfold JSONHandler.visit.
  set (st1 := if JSONHandler.searchKeys opts then _ else st).
  assert (H1 : Forall (Hit.sound opts keyword) (JSONHandler.results st1)).
  { subst st1. destruct (JSONHandler.searchKeys opts) eqn:Hkeys; [|assumption].
    cbn [JSONHandler.matches].
    match goal with
    | |- context [if ?b then _ else _] => destruct b eqn:Hhit
    end; [|assumption].
    simpl. apply Forall_app. split; [assumption|].
    constructor; [|constructor]. split; [simpl; eauto|]. left.
    simpl. repeat split; try assumption. }
  clearbody st1.
  destruct (JSONHandler.searchValues opts) eqn:Hvalues; [|assumption].
  destruct v as [| | | |text| |]; try assumption.
  cbn [JSONHandler.matches].
  match goal with
  | |- context [if ?b then _ else _] => destruct b eqn:Hhit
  end; [|assumption].
  simpl. apply Forall_app. split; [assumption|].
  constructor; [|constructor]. split; [simpl; eauto|]. right.
  simpl. repeat split; try assumption. exists text. split; [reflexivity|].
  assumption.
Qed.

Lemma search_items_sound (opts : JSONHandler.options) (keyword : string)
  (search : value -> string -> JSONHandler.state -> JSONHandler.state)
  (path : string) (items : list (option value)) :
  Forall (fun item =>
            match item with
            | Some child =>
                forall path st,
                  Forall (Hit.sound opts keyword) (JSONHandler.results st) ->
                  Forall (Hit.sound opts keyword)
                    (JSONHandler.results (search child path st))
            | None => True
            end) items ->
  forall i st,
    Forall (Hit.sound opts keyword) (JSONHandler.results st) ->
    Forall (Hit.sound opts keyword)
      (JSONHandler.results (JSONHandler.search_items search path items i st)).
Proof.
  induction 1 as [|[child|] items Hitem _ IH]; intros i st Hst; simpl; auto.
Qed.

Lemma search_props_sound (opts : JSONHandler.options) (keyword : string)
  (search : value -> string -> JSONHandler.state -> JSONHandler.state)
  (path : string) (props : list (string * value)) :
  Forall (fun kv =>
            forall path st,
              Forall (Hit.sound opts keyword) (JSONHandler.results st) ->
              Forall (Hit.sound opts keyword)
                (JSONHandler.results (search (snd kv) path st))) props ->
  forall st,
    Forall (Hit.sound opts keyword) (JSONHandler.results st) ->
    Forall (Hit.sound opts keyword)
      (JSONHandler.results
         (JSONHandler.search_props opts (JSONHandler.Keyword keyword) search
            path props st)).
Proof.
  induction 1 as [|[key child] props Hitem _ IH]; intros st Hst; simpl;
    [assumption|].
  apply IH. simpl in Hitem.
  destruct (is_object child); [apply Hitem|]; now apply visit_sound.
Qed.

Lemma search_sound (opts : JSONHandler.options) (keyword : string)
  (current : value) :
  forall path st,
    Forall (Hit.sound opts keyword) (JSONHandler.results st) ->
    Forall (Hit.sound opts keyword)
      (JSONHandler.results
         (JSONHandler.search opts (JSONHandler.Keyword keyword) current path
            st)).
Proof.
  induction current as [| | | | |items IH|props IH] using value_induction;
    intros path st Hst; cbn [JSONHandler.search];
    destruct (JSONHandler.maxResults opts
              <=? Z.of_nat (length (JSONHandler.results st)))%Z;
    try assumption; simpl;
    try (match goal with
         | |- context [if ?b then _ else _] => destruct b
         end; assumption).
  - now apply search_items_sound.
  - now apply search_props_sound.
Qed.

(** X11.  Without [regex], every result of the JSON [searchKeyword] stands
    for a match: its path ends with its key (the key alone at the top), and
    it is either a [key] result whose key contains the keyword, given only
    when [searchKeys] is on, or a [value] result whose value is a String
    that contains the keyword, given only when [searchValues] is on.  Case is
    folded unless [caseSensitive] is on. *)
Theorem searchKeyword_sound
  (RegExp_new : string -> string -> outcome RegExp)
  (opts : JSONHandler.options) (obj : value) (keyword : string)
  (found : list JSONHandler.result) :
  JSONHandler.regex opts = false ->
  JSONHandler.searchKeyword RegExp_new opts obj keyword = Returned found ->
  Forall (Hit.sound opts keyword) found.
Proof.
  intros Hplain Hsearch. unfold JSONHandler.searchKeyword in Hsearch.
  rewrite Hplain in Hsearch. simpl in Hsearch. injection Hsearch as <-.
  apply search_sound. constructor.
Qed.

Lemma searchKeyword_sound_witness :
  JSONHandler.regex JSONHandler.defaults = false
  /\ JSONHandler.searchKeyword Scenario.RegExp_new JSONHandler.defaults
       Scenario.twice "a"
     = Returned [{| JSONHandler.type := "key"; JSONHandler.path := "aa";
                    JSONHandler.key := "aa";
                    JSONHandler.value := VString "aa" |};
                 {| JSONHandler.type := "value"; JSONHandler.path := "aa";
                    JSONHandler.key := "aa";
                    JSONHandler.value := VString "aa" |}]
  /\ Forall (Hit.sound JSONHandler.defaults "a")
       [{| JSONHandler.type := "key"; JSONHandler.path := "aa";
           JSONHandler.key := "aa"; JSONHandler.value := VString "aa" |};
        {| JSONHandler.type := "value"; JSONHandler.path := "aa";
           JSONHandler.key := "aa"; JSONHandler.value := VString "aa" |}].
Proof.
  split; [reflexivity|]. split; [reflexivity|].
  apply (searchKeyword_sound Scenario.RegExp_new JSONHandler.defaults
           Scenario.twice "a"); reflexivity.
Defined.

(** ** searchKeyword below the limit *)

Lemma pushed_nil (st : JSONHandler.state) : Hit.pushed st [] = st.
Proof. destruct st. unfold Hit.pushed. simpl. now rewrite List.app_nil_r. Qed.

Lemma pushed_app (st : JSONHandler.state) (a b : list JSONHandler.result) :
  Hit.pushed (Hit.pushed st a) b = Hit.pushed st (a ++ b).
Proof. unfold Hit.pushed. simpl. now rewrite List.app_assoc. Qed.

Lemma visit_pushes (opts : JSONHandler.options) (keyword fullPath key : string)
  (v : value) (st : JSONHandler.state) :
  JSONHandler.visit opts (JSONHandler.Keyword keyword) fullPath key v st
  = Hit.pushed st (Hit.hits_at opts keyword fullPath key v).
Proof.
  unfold Hit.hits_at, JSONHandler.visit. cbn [JSONHandler.matches].
  destruct (JSONHandler.searchKeys opts);
    [match goal with
     | |- context [if ?b then JSONHandler.push _ _ else _] => destruct b
     end|];
    (destruct (JSONHandler.searchValues opts);
     [destruct v as [| | | |text| |];
      try match goal with
          | |- context [if ?b then JSONHandler.push _ _ else _] => destruct b
          end|]);
    destruct st; unfold Hit.pushed, JSONHandler.push; simpl;
    rewrite <- ?List.app_assoc, ?List.app_nil_r; reflexivity.
Qed.

Section BelowLimit.

Variables (opts : JSONHandler.options) (keyword : string).

Let room (st : JSONHandler.state) (found : list JSONHandler.result) : Prop :=
  (Z.of_nat (length (JSONHandler.results st) + length found)
   < JSONHandler.maxResults opts)%Z.

Lemma search_items_below_limit
  (search : value -> string -> JSONHandler.state -> JSONHandler.state)
  (nested : value -> string -> list JSONHandler.result)
  (path : string) (items : list (option value)) :
  Forall (fun item =>
            match item with
            | Some child =>
                forall path st,
                  room st (nested child path) ->
                  search child path st = Hit.pushed st (nested child path)
            | None => True
            end) items ->
  forall i st,
    room st (Hit.all_items nested path items i) ->
    JSONHandler.search_items search path items i st
    = Hit.pushed st (Hit.all_items nested path items i).
Proof.
  unfold room.
  induction 1 as [|[child|] items Hitem _ IH]; intros i st Hroom; simpl.
  - now rewrite pushed_nil.
  - simpl in Hroom. rewrite length_app in Hroom.
    rewrite Hitem by lia. rewrite IH by (simpl; rewrite length_app; lia).
    apply pushed_app.
  - apply IH. exact Hroom.
Qed.

Lemma search_props_below_limit
  (search : value -> string -> JSONHandler.state -> JSONHandler.state)
  (nested : value -> string -> list JSONHandler.result)
  (path : string) (props : list (string * value)) :
  Forall (fun kv =>
            forall path st,
              room st (nested (snd kv) path) ->
              search (snd kv) path st = Hit.pushed st (nested (snd kv) path))
    props ->
  forall st,
    room st (Hit.all_props opts keyword nested path props) ->
    JSONHandler.search_props opts (JSONHandler.Keyword keyword) search path
      props st
    = Hit.pushed st (Hit.all_props opts keyword nested path props).
Proof.
  unfold room.
  induction 1 as [|[key child] props Hitem _ IH]; intros st Hroom; simpl.
  - now rewrite pushed_nil.
  - simpl in Hroom, Hitem. rewrite !length_app in Hroom.
    rewrite visit_pushes. destruct (is_object child).
    + rewrite Hitem by (simpl; rewrite length_app; lia).
      rewrite IH by (simpl; rewrite !length_app; lia).
      now rewrite !pushed_app.
    + rewrite IH by (simpl; rewrite !length_app; simpl in *; lia).
      now rewrite !pushed_app.
Qed.

Lemma search_below_limit (current : value) :
  forall path st,
    room st (Hit.all opts keyword current path) ->
    JSONHandler.search opts (JSONHandler.Keyword keyword) current path st
    = Hit.pushed st (Hit.all opts keyword current path).
Proof.
  unfold room.
  induction current as [| | | | |items IH|props IH] using value_induction;
    intros path st Hroom; cbn [JSONHandler.search Hit.all];
    (destruct (JSONHandler.maxResults opts
               <=? Z.of_nat (length (JSONHandler.results st)))%Z eqn:Hcap;
     [apply Z.leb_le in Hcap; lia|]);
    try (simpl; rewrite ?andb_false_r; cbn [negb orb];
         try match goal with
             | |- context [if ?b then _ else _] => destruct b
             end;
         now rewrite pushed_nil).
  - simpl. now apply search_items_below_limit.
  - simpl. now apply search_props_below_limit.
Qed.

End BelowLimit.

(** X12.  Without [regex], a tree whose matches number fewer than
    [maxResults] is searched in full: the JSON [searchKeyword] returns every
    match, in document order, a matching key before its matching value and
    both before the matches below them. *)
Theorem searchKeyword_below_limit
  (RegExp_new : string -> string -> outcome RegExp)
  (opts : JSONHandler.options) (obj : value) (keyword : string) :
  JSONHandler.regex opts = false ->
  (Z.of_nat (length (Hit.all opts keyword obj ""))
   < JSONHandler.maxResults opts)%Z ->
  JSONHandler.searchKeyword RegExp_new opts obj keyword
  = Returned (Hit.all opts keyword obj "").
Proof.
  intros Hplain Hroom. unfold JSONHandler.searchKeyword. rewrite Hplain.
  simpl. now rewrite search_below_limit.
Qed.

Lemma searchKeyword_below_limit_witness :
  JSONHandler.regex JSONHandler.defaults = false
  /\ (Z.of_nat (length (Hit.all JSONHandler.defaults "e" Scenario.widget ""))
      < JSONHandler.maxResults JSONHandler.defaults)%Z
  /\ JSONHandler.searchKeyword Scenario.RegExp_new JSONHandler.defaults
       Scenario.widget "e"
     = Returned [{| JSONHandler.type := "key"; JSONHandler.path := "name";
                    JSONHandler.key := "name";
                    JSONHandler.value := VString "widget" |};
                 {| JSONHandler.type := "value"; JSONHandler.path := "name";
                    JSONHandler.key := "name";
                    JSONHandler.value := VString "widget" |}].
Proof.
  split; [reflexivity|]. split; [reflexivity|].
  apply (searchKeyword_below_limit Scenario.RegExp_new JSONHandler.defaults
           Scenario.widget "e"); reflexivity.
Defined.

(** ** C2, as amended: the entries that are tested *)

Lemma all_items_entries (opts : JSONHandler.options) (keyword path : string)
  (items : list (option value)) :
  Forall (fun item =>
            match item with
            | Some child =>
                forall path,
                  Hit.all opts keyword child path
                  = flat_map (Hit.hits_of opts keyword)
                      (Hit.entries child path)
            | None => True
            end) items ->
  forall i,
    Hit.all_items (Hit.all opts keyword) path items i
    = flat_map (Hit.hits_of opts keyword)
        (Hit.entries_items Hit.entries path items i).
Proof.
  induction 1 as [|[child|] items Hitem _ IH]; intros i; simpl;
    [reflexivity| |apply IH].
  now rewrite flat_map_app, Hitem, IH.
Qed.

Lemma all_props_entries (opts : JSONHandler.options) (keyword path : string)
  (props : list (string * value)) :
  Forall (fun kv =>
            forall path,
              Hit.all opts keyword (snd kv) path
              = flat_map (Hit.hits_of opts keyword)
                  (Hit.entries (snd kv) path)) props ->
  Hit.all_props opts keyword (Hit.all opts keyword) path props
  = flat_map (Hit.hits_of opts keyword)
      (Hit.entries_props Hit.entries path props).
Proof.
  induction 1 as [|[key child] props Hitem _ IH]; simpl; [reflexivity|].
  simpl in Hitem. rewrite flat_map_app, IH.
  destruct (is_object child); [now rewrite Hitem | reflexivity].
Qed.

(** The walk with no limit gives the results of the entries, one entry
    after the other. *)
Lemma all_entries (opts : JSONHandler.options) (keyword : string)
  (current : value) :
  forall path,
    Hit.all opts keyword current path
    = flat_map (Hit.hits_of opts keyword) (Hit.entries current path).
Proof.
  induction current as [| | | | |items IH|props IH] using value_induction;
    intros path; try reflexivity.
  - now apply all_items_entries.
  - now apply all_props_entries.
Qed.

Lemma entries_items_scalars (path : string) (items : list (option value)) :
  forallb Spec.scalar items = true ->
  forall i, Hit.entries_items Hit.entries path items i = [].
Proof.
  induction items as [|item items IH]; simpl; intros H i; [reflexivity|].
  apply andb_prop in H. destruct H as [Hitem Hitems].
  rewrite IH by assumption. destruct item as [child|]; [|reflexivity].
  destruct child; try reflexivity; discriminate.
Qed.

(** C2, as amended: values are tested where they are held under a key of a
    Mapping, never as elements of a Sequence.  In both handlers a Sequence
    whose elements are all scalars (or holes) leaves the results as they
    were, whatever the pattern and the options.  In the JSON handler,
    without regex and as long as the Matches number fewer than maxResults,
    [searchKeyword] returns the Matches of the entries of the Mappings of
    the tree, at any depth and also of the Mappings that are elements of
    Sequences, entry after entry in document order, and nothing else; the
    elements of a Sequence are no entries.  With searchValues enabled, an
    entry that holds a String containing the keyword gets a value Match, so
    this Match is among the results.  So the search of
    [{"name":"widget","tags":["red","blue"]}] for [red] returns no Match in
    the JSON handler and, in the YAML handler, the one Match of the key
    [tags], whose value is the whole Sequence. *)
Theorem searchKeyword_tests_mapping_entries :
  (forall opts pattern items path st,
     forallb Spec.scalar items = true ->
     JSONHandler.search opts pattern (VArray items) path st = st)
  /\ (forall opts pattern items path st,
        forallb Spec.scalar items = true ->
        YAMLHandler.search opts pattern (VArray items) path st = Returned st)
  /\ (forall opts keyword fullPath key text st,
        JSONHandler.searchValues opts = true ->
        fst (JSONHandler.matches opts text (JSONHandler.Keyword keyword) st)
        = true ->
        In {| JSONHandler.type := "value"; JSONHandler.path := fullPath;
              JSONHandler.key := key; JSONHandler.value := VString text |}
           (JSONHandler.results
              (JSONHandler.visit opts (JSONHandler.Keyword keyword)
                 fullPath key (VString text) st)))
  /\ (forall RegExp_new opts obj keyword,
        JSONHandler.regex opts = false ->
        (Z.of_nat (length (flat_map (Hit.hits_of opts keyword)
                             (Hit.entries obj "")))
         < JSONHandler.maxResults opts)%Z ->
        JSONHandler.searchKeyword RegExp_new opts obj keyword
        = Returned (flat_map (Hit.hits_of opts keyword) (Hit.entries obj ""))
        /\ forall fullPath key text,
             In (fullPath, key, VString text) (Hit.entries obj "") ->
             JSONHandler.searchValues opts = true ->
             Hit.hit opts keyword text = true ->
             exists found,
               JSONHandler.searchKeyword RegExp_new opts obj keyword
               = Returned found
               /\ In {| JSONHandler.type := "value";
                        JSONHandler.path := fullPath;
                        JSONHandler.key := key;
                        JSONHandler.value := VString text |} found)
  /\ (forall path items,
        forallb Spec.scalar items = true ->
        Hit.entries (VArray items) path = [])
  /\ (forall RegExp_new,
        JSONHandler.searchKeyword RegExp_new JSONHandler.defaults
          Scenario.widget "red" = Returned [])
  /\ (forall RegExp_new,
        YAMLHandler.searchKeyword RegExp_new YAMLHandler.defaults
          Scenario.widget "red"
        = Returned [{| YAMLHandler.type := "value";
                       YAMLHandler.path := "tags";
                       YAMLHandler.key := "tags";
                       YAMLHandler.value :=
                         VArray [Scenario.str "red"; Scenario.str "blue"];
                       YAMLHandler.matchType := "value" |}]).
Proof.
  assert (Hvisit : forall opts keyword fullPath key text st,
             JSONHandler.searchValues opts = true ->
             fst (JSONHandler.matches opts text (JSONHandler.Keyword keyword)
                    st) = true ->
             In {| JSONHandler.type := "value"; JSONHandler.path := fullPath;
                   JSONHandler.key := key;
                   JSONHandler.value := VString text |}
                (JSONHandler.results
                   (JSONHandler.visit opts (JSONHandler.Keyword keyword)
                      fullPath key (VString text) st))).
  { intros opts keyword fullPath key text st Hvalues Hfound.
    unfold JSONHandler.visit. rewrite Hvalues.
    simpl in *. rewrite Hfound.
    unfold JSONHandler.push. simpl. apply in_or_app. right. now left. }
  split; [|split; [|split; [exact Hvisit|split; [|split; [|split]]]]].
  - intros opts pattern items path st Hscalars. simpl.
    destruct (JSONHandler.maxResults opts <=? _)%Z; [reflexivity|].
    now apply search_items_scalars.
  - intros opts pattern items path st Hscalars. simpl.
    destruct (JSONHandler.maxResults opts <=? _)%Z; [reflexivity|].
    now apply yaml_search_items_scalars.
  - intros RegExp_new opts obj keyword Hplain Hroom.
    assert (Hrun : JSONHandler.searchKeyword RegExp_new opts obj keyword
                   = Returned (flat_map (Hit.hits_of opts keyword)
                                 (Hit.entries obj ""))).
    { rewrite <- all_entries in *.
      unfold JSONHandler.searchKeyword. rewrite Hplain. simpl.
      now rewrite search_below_limit. }
    split; [exact Hrun|].
    intros fullPath key text Hentry Hvalues Hhit.
    eexists. split; [exact Hrun|].
    apply in_flat_map. exists (fullPath, key, VString text).
    split; [assumption|]. unfold Hit.hits_of, Hit.hits_at.
    now apply Hvisit.
  - intros path items Hscalars. simpl. now apply entries_items_scalars.
  - reflexivity.
  - reflexivity.
Qed.

(** An instance: the Sequence of the scenario; a Mapping that holds the
    same text under a key; and the tree
    [{"name":"widget","parts":[{"colour":"red"},"red"]}], where the search
    for [red] gives the Match of the entry [colour] of the Mapping that is
    the first element of [parts], and none for the second element. *)
Lemma searchKeyword_tests_mapping_entries_witness :
  forallb Spec.scalar [Scenario.str "red"; Scenario.str "blue"] = true
  /\ JSONHandler.search JSONHandler.defaults (JSONHandler.Keyword "red")
       (VArray [Scenario.str "red"; Scenario.str "blue"]) "tags"
       {| JSONHandler.results := []; JSONHandler.lastIndex := 0 |}
     = {| JSONHandler.results := []; JSONHandler.lastIndex := 0 |}
  /\ JSONHandler.searchValues JSONHandler.defaults = true
  /\ fst (JSONHandler.matches JSONHandler.defaults "red"
            (JSONHandler.Keyword "red")
            {| JSONHandler.results := []; JSONHandler.lastIndex := 0 |})
     = true
  /\ In {| JSONHandler.type := "value"; JSONHandler.path := "colour";
           JSONHandler.key := "colour"; JSONHandler.value := VString "red" |}
        (JSONHandler.results
           (JSONHandler.visit JSONHandler.defaults (JSONHandler.Keyword "red")
              "colour" "colour" (VString "red")
              {| JSONHandler.results := []; JSONHandler.lastIndex := 0 |}))
  /\ JSONHandler.regex JSONHandler.defaults = false
  /\ (Z.of_nat (length (flat_map (Hit.hits_of JSONHandler.defaults "red")
                          (Hit.entries Hit.catalogue "")))
      < JSONHandler.maxResults JSONHandler.defaults)%Z
  /\ Hit.entries Hit.catalogue ""
     = [("name", "name", VString "widget");
        ("parts", "parts",
         VArray [Some (VObject [("colour", VString "red")]);
                 Some (VString "red")]);
        ("parts[0].colour", "colour", VString "red")]
  /\ JSONHandler.searchKeyword Scenario.RegExp_new JSONHandler.defaults
       Hit.catalogue "red"
     = Returned [{| JSONHandler.type := "value";
                    JSONHandler.path := "parts[0].colour";
                    JSONHandler.key := "colour";
                    JSONHandler.value := VString "red" |}].
Proof.
  destruct searchKeyword_tests_mapping_entries
    as (Hjson & _ & Hvisit & Hentries & _).
  split; [reflexivity|]. split; [apply Hjson; reflexivity|].
  split; [reflexivity|]. split; [reflexivity|].
  split; [apply Hvisit; reflexivity|].
  split; [reflexivity|]. split; [reflexivity|]. split; [reflexivity|].
  apply (proj1 (Hentries Scenario.RegExp_new JSONHandler.defaults
                  Hit.catalogue "red" eq_refl eq_refl)).
Defined.

(** ** The YAML, TOML and XML handlers on paths *)

(** X13.  The YAML, TOML and XML handlers read back what they have
    written: where [setValue] returns, [getValue] on its result and the same
    path returns the value, except that a String of digits assigned to the
    [length] of a Sequence is read back as the number it was converted to.
    A path that starts with [$] is no exception here; it is a plain key.
    The paths this statement does not answer for are those with a segment
    that names a property of [Object.prototype], such as [__proto__], and
    those that apply to a Sequence a segment that is no index; of these,
    [length] is answered for when the value is a Number below 2^32 or a
    String of digits. *)
Theorem yaml_setValue_then_getValue (obj : value) (path : string) (v : value) :
  (forall obj',
     YAMLHandlerMore.setValue obj path v = Returned obj' ->
     YAMLHandlerMore.getValue obj' path = Returned v
     \/ (last (split "." path) "" = "length"
         /\ exists s n,
              v = VString s
              /\ to_length v = Returned n
              /\ YAMLHandlerMore.getValue obj' path
                 = Returned (VNumber (Z.of_nat n))))
  /\ (YAMLHandlerMore.setValue obj path v = Unmodelled ->
      Route.outside obj (split "." path)).
Proof.
  unfold YAMLHandlerMore.setValue, YAMLHandlerMore.getValue. split.
  - intros obj' Hset. apply rethrow_returned in Hset.
    destruct (setValue_loop_then_getValue_loop _ _ _ _
                (split_nonempty _ _) Hset)
      as [-> | (Hlast & s & n & Hs & Hn & ->)]; simpl; eauto 8.
  - intros Hset.
    apply setValue_loop_outside with (v := v); [apply split_nonempty|].
    destruct (JSONHandler.setValue_loop obj (split "." path) v);
      simpl in Hset; congruence.
Qed.

Lemma yaml_setValue_then_getValue_witness :
  YAMLHandlerMore.setValue (VObject []) "$ref.x" (VNumber 5)
  = Returned (VObject [("$ref", VObject [("x", VNumber 5)])])
  /\ YAMLHandlerMore.getValue
       (VObject [("$ref", VObject [("x", VNumber 5)])]) "$ref.x"
     = Returned (VNumber 5)
  /\ YAMLHandlerMore.setValue (VObject [("a", VArray [Scenario.num 1])])
       "a.length" (VString "3")
     = Returned (VObject [("a", VArray [Scenario.num 1; None; None])])
  /\ YAMLHandlerMore.getValue
       (VObject [("a", VArray [Scenario.num 1; None; None])]) "a.length"
     = Returned (VNumber 3).
Proof.
  split; [reflexivity|]. split; [|split; [reflexivity|]].
  - destruct (proj1 (yaml_setValue_then_getValue (VObject []) "$ref.x"
                       (VNumber 5)) _ eq_refl) as [H | (Hlast & _)];
      [exact H | discriminate Hlast].
  - destruct (proj1 (yaml_setValue_then_getValue
                       (VObject [("a", VArray [Scenario.num 1])]) "a.length"
                       (VString "3")) _ eq_refl)
      as [H | (_ & s & n & Hs & Hn & H)]; [discriminate H|].
    injection Hn as <-. exact H.
Defined.

(** X14.  In the YAML and TOML handlers, after [deleteValue] has returned,
    [getValue] finds nothing at the path, whatever the path: it returns
    [undefined], unless the last segment names a property every object
    inherits.  The keys of each Mapping of the tree are taken to be
    distinct. *)
Theorem yaml_deleteValue_then_getValue (obj : value) (path : string)
  (obj' : value) :
  Count.unique_keys obj = true ->
  YAMLHandlerMore.deleteValue obj path = Returned obj' ->
  YAMLHandlerMore.getValue obj' path = Returned VUndefined
  \/ (YAMLHandlerMore.getValue obj' path = Unmodelled
      /\ inherited_by_array (last (split "." path) "") = true).
Proof.
  intros Huniq Hdel. apply rethrow_returned in Hdel.
  bind_inv Hdel as done Hdone. injection Hdel as <-.
  unfold YAMLHandlerMore.getValue.
  destruct (deleteValue_loop_then_getValue_loop _ _ _ (split_nonempty _ _)
              Huniq Hdone) as [-> | [-> Hinh]]; auto.
Qed.

Lemma yaml_deleteValue_then_getValue_witness :
  Count.unique_keys Scenario.nested = true
  /\ YAMLHandlerMore.deleteValue Scenario.nested "a.b"
     = Returned (VObject [("a", VObject [])])
  /\ YAMLHandlerMore.getValue (VObject [("a", VObject [])]) "a.b"
     = Returned VUndefined.
Proof.
  split; [reflexivity|]. split; [reflexivity|].
  destruct (yaml_deleteValue_then_getValue Scenario.nested "a.b"
              (VObject [("a", VObject [])]))
    as [H | [H _]]; [reflexivity | reflexivity | exact H |].
  discriminate H.
Defined.

(** X15.  [getValue] of the YAML, TOML and XML handlers never throws,
    whatever the tree and the path: the error [Failed to get value] of its
    catch block cannot be raised. *)
Theorem yaml_getValue_never_throws (obj : value) (path : string) (e : error) :
  YAMLHandlerMore.getValue obj path <> Threw e.
Proof.
  unfold YAMLHandlerMore.getValue.
  destruct (JSONHandler.getValue_loop obj (split "." path)) as [v|e'|] eqn:Hloop;
    simpl; try discriminate.
  now apply getValue_loop_never_throws in Hloop.
Qed.

(** ** The XML search *)

Lemma labelled_state_push (r : JSONHandler.result) (st : JSONHandler.state) :
  XMLHandler.labelled_state (JSONHandler.push r st)
  = XMLHandler.push (XMLHandler.labelled r) (XMLHandler.labelled_state st).
Proof.
  unfold XMLHandler.labelled_state, XMLHandler.push, JSONHandler.push. simpl.
  now rewrite List.map_app.
Qed.

Section Labelled.

Variable opts : XMLHandler.options.

Lemma xml_matches (text : string) (t : JSONHandler.term)
  (st : JSONHandler.state) :
  XMLHandler.matches opts text t (XMLHandler.labelled_state st)
  = (fst (JSONHandler.matches (XMLHandler.json_options opts) text t st),
     XMLHandler.labelled_state
       (snd (JSONHandler.matches (XMLHandler.json_options opts) text t st))).
Proof.
  destruct t as [keyword|re]; simpl; [reflexivity|].
  destruct (test re text (JSONHandler.lastIndex st)). reflexivity.
Qed.

Lemma xml_visit (t : JSONHandler.term) (fullPath key : string) (v : value)
  (st : JSONHandler.state) :
  XMLHandler.visit opts t fullPath key v (XMLHandler.labelled_state st)
  = XMLHandler.labelled_state
      (JSONHandler.visit (XMLHandler.json_options opts) t fullPath key v st).
Proof.
  unfold XMLHandler.visit, JSONHandler.visit.
  change (JSONHandler.searchKeys (XMLHandler.json_options opts))
    with (XMLHandler.searchKeys opts).
  change (JSONHandler.searchValues (XMLHandler.json_options opts))
    with (XMLHandler.searchValues opts).
  set (st1 := if XMLHandler.searchKeys opts
              then let '(found, st0) :=
                     JSONHandler.matches (XMLHandler.json_options opts) key t st
                   in _
              else st).
  set (x1 := if XMLHandler.searchKeys opts
              then let '(found, st0) :=
                     XMLHandler.matches opts key t
                       (XMLHandler.labelled_state st)
                   in _
              else _).
  assert (H1 : x1 = XMLHandler.labelled_state st1).
  { subst x1 st1. destruct (XMLHandler.searchKeys opts); [|reflexivity].
    rewrite xml_matches.
    destruct (JSONHandler.matches (XMLHandler.json_options opts) key t st)
      as [found st0]. simpl.
    destruct found; [|reflexivity]. now rewrite labelled_state_push. }
  rewrite H1. clearbody st1. clear x1 H1.
  destruct (XMLHandler.searchValues opts); [|reflexivity].
  destruct v as [| | | |text| |]; try reflexivity.
  rewrite xml_matches.
  destruct (JSONHandler.matches (XMLHandler.json_options opts) text t st1)
    as [found st0]. simpl.
  destruct found; [|reflexivity]. now rewrite labelled_state_push.
Qed.

Lemma xml_search_items
  (xml : value -> string -> XMLHandler.state -> XMLHandler.state)
  (json : value -> string -> JSONHandler.state -> JSONHandler.state)
  (path : string) (items : list (option value)) :
  Forall (fun item =>
            match item with
            | Some child =>
                forall path st,
                  xml child path (XMLHandler.labelled_state st)
                  = XMLHandler.labelled_state (json child path st)
            | None => True
            end) items ->
  forall i st,
    XMLHandler.search_items xml path items i (XMLHandler.labelled_state st)
    = XMLHandler.labelled_state (JSONHandler.search_items json path items i st).
Proof.
  induction 1 as [|[child|] items Hitem _ IH]; intros i st; simpl; auto.
  now rewrite Hitem.
Qed.

Lemma xml_search_props (t : JSONHandler.term)
  (xml : value -> string -> XMLHandler.state -> XMLHandler.state)
  (json : value -> string -> JSONHandler.state -> JSONHandler.state)
  (path : string) (props : list (string * value)) :
  Forall (fun kv =>
            forall path st,
              xml (snd kv) path (XMLHandler.labelled_state st)
              = XMLHandler.labelled_state (json (snd kv) path st)) props ->
  forall st,
    XMLHandler.search_props opts t xml path props
      (XMLHandler.labelled_state st)
    = XMLHandler.labelled_state
        (JSONHandler.search_props (XMLHandler.json_options opts) t json path
           props st).
Proof.
  induction 1 as [|[key child] props Hitem _ IH]; intros st; simpl;
    [reflexivity|].
  rewrite xml_visit. simpl in Hitem.
  destruct (is_object child); [rewrite Hitem|]; apply IH.
Qed.

Lemma xml_search (t : JSONHandler.term) (current : value) :
  forall path st,
    XMLHandler.search opts t current path (XMLHandler.labelled_state st)
    = XMLHandler.labelled_state
        (JSONHandler.search (XMLHandler.json_options opts) t current path st).
Proof.
  induction current as [| | | | |items IH|props IH] using value_induction;
    intros path st; cbn [XMLHandler.search JSONHandler.search];
    change (JSONHandler.maxResults (XMLHandler.json_options opts))
      with (XMLHandler.maxResults opts);
    change (XMLHandler.results (XMLHandler.labelled_state st))
      with (List.map XMLHandler.labelled (JSONHandler.results st));
    rewrite length_map;
    destruct (XMLHandler.maxResults opts
              <=? Z.of_nat (length (JSONHandler.results st)))%Z;
    try reflexivity; simpl;
    try (match goal with
         | |- context [if ?b then _ else _] => destruct b
         end; reflexivity).
  - now apply xml_search_items.
  - now apply xml_search_props.
Qed.

End Labelled.

(** X16.  The XML [searchKeyword] finds what the JSON [searchKeyword] finds
    with the same keyword, [searchKeys], [searchValues], [caseSensitive],
    [regex] and [maxResults]: the same results in the same order, each with
    the [@_] of an attribute taken off its key and the kind of match added.
    The option [searchAttributes] has no effect on the result. *)
Theorem xml_searchKeyword_labels_json
  (RegExp_new : string -> string -> outcome RegExp)
  (opts : XMLHandler.options) (obj : value) (keyword : string) :
  XMLHandler.searchKeyword RegExp_new opts obj keyword
  = (found <- JSONHandler.searchKeyword RegExp_new
                (XMLHandler.json_options opts) obj keyword ;;
     Returned (List.map XMLHandler.labelled found))
  /\ XMLHandler.searchKeyword RegExp_new opts obj keyword
     = XMLHandler.searchKeyword RegExp_new
         {| XMLHandler.searchKeys := XMLHandler.searchKeys opts;
            XMLHandler.searchValues := XMLHandler.searchValues opts;
            XMLHandler.searchAttributes :=
              negb (XMLHandler.searchAttributes opts);
            XMLHandler.caseSensitive := XMLHandler.caseSensitive opts;
            XMLHandler.regex := XMLHandler.regex opts;
            XMLHandler.maxResults := XMLHandler.maxResults opts |}
         obj keyword.
Proof.
  assert (Hjson : forall o,
             XMLHandler.searchKeyword RegExp_new o obj keyword
             = (found <- JSONHandler.searchKeyword RegExp_new
                           (XMLHandler.json_options o) obj keyword ;;
                Returned (List.map XMLHandler.labelled found))).
  { intros o. unfold XMLHandler.searchKeyword, JSONHandler.searchKeyword.
    change (JSONHandler.regex (XMLHandler.json_options o))
      with (XMLHandler.regex o).
    change (JSONHandler.caseSensitive (XMLHandler.json_options o))
      with (XMLHandler.caseSensitive o).
    assert (Hrun : forall t,
               XMLHandler.results
                 (XMLHandler.search o t obj ""
                    {| XMLHandler.results := []; XMLHandler.lastIndex := O |})
               = List.map XMLHandler.labelled
                   (JSONHandler.results
                      (JSONHandler.search (XMLHandler.json_options o) t obj ""
                         {| JSONHandler.results := [];
                            JSONHandler.lastIndex := O |}))).
    { intros t.
      change {| XMLHandler.results := []; XMLHandler.lastIndex := O |}
        with (XMLHandler.labelled_state
                {| JSONHandler.results := []; JSONHandler.lastIndex := O |}).
      now rewrite xml_search. }
    destruct (XMLHandler.regex o); simpl; [|now rewrite Hrun].
    destruct (RegExp_new keyword (if XMLHandler.caseSensitive o then "g" else "gi"));
      simpl; try reflexivity. now rewrite Hrun. }
  split; [apply Hjson|]. now rewrite !Hjson.
Qed.

(** ** The todo tools *)

Lemma findIndex_unused (id : string) (tasks : list Todo.task) :
  Todo.unused id tasks -> Todo.findIndex id tasks = None.
Proof.
  unfold Todo.unused. induction tasks as [|task rest IH]; intros Hun; simpl;
    [reflexivity|].
  destruct (String.eqb (Todo.id task) id) eqn:E.
  - apply String.eqb_eq in E. elim (Hun task); simpl; auto.
  - rewrite IH; [reflexivity|]. intros u Hu. apply Hun. simpl. auto.
Qed.

Lemma findIndex_first (id : string) (pre : list Todo.task) (task : Todo.task)
  (post : list Todo.task) :
  Todo.unused id pre -> Todo.id task = id ->
  Todo.findIndex id (pre ++ task :: post) = Some (length pre).
Proof.
  unfold Todo.unused. intros Hun Hid.
  induction pre as [|u pre IH]; simpl.
  - apply String.eqb_eq in Hid. now rewrite Hid.
  - destruct (String.eqb (Todo.id u) id) eqn:E.
    + apply String.eqb_eq in E. elim (Hun u); simpl; auto.
    + rewrite IH; [reflexivity|]. intros w Hw. apply Hun. simpl. auto.
Qed.

Lemma splice_middle (pre : list Todo.task) (task : Todo.task)
  (post : list Todo.task) :
  Todo.splice (length pre) (pre ++ task :: post) = pre ++ post.
Proof. induction pre as [|u pre IH]; simpl; [reflexivity | now rewrite IH]. Qed.

Lemma find_unused (id : string) (assign : Todo.task -> Todo.task)
  (tasks : list Todo.task) :
  Todo.unused id tasks -> Todo.find id assign tasks = None.
Proof.
  unfold Todo.unused. induction tasks as [|task rest IH]; intros Hun; simpl;
    [reflexivity|].
  destruct (String.eqb (Todo.id task) id) eqn:E.
  - apply String.eqb_eq in E. elim (Hun task); simpl; auto.
  - rewrite IH; [reflexivity|]. intros u Hu. apply Hun. simpl. auto.
Qed.

Lemma find_first (id : string) (assign : Todo.task -> Todo.task)
  (pre : list Todo.task) (task : Todo.task) (post : list Todo.task) :
  Todo.unused id pre -> Todo.id task = id ->
  Todo.find id assign (pre ++ task :: post)
  = Some (pre ++ assign task :: post).
Proof.
  unfold Todo.unused. intros Hun Hid.
  induction pre as [|u pre IH]; simpl.
  - apply String.eqb_eq in Hid. now rewrite Hid.
  - destruct (String.eqb (Todo.id u) id) eqn:E.
    + apply String.eqb_eq in E. elim (Hun u); simpl; auto.
    + rewrite IH; [reflexivity|]. intros w Hw. apply Hun. simpl. auto.
Qed.

(** Where the first task with a given id stands, if there is one. *)
Lemma first_with_id (id : string) (tasks : list Todo.task) :
  Todo.unused id tasks
  \/ exists pre task post,
       tasks = pre ++ task :: post
       /\ Todo.unused id pre /\ Todo.id task = id.
Proof.
  induction tasks as [|u rest IH].
  - left. intros task [].
  - destruct (string_dec (Todo.id u) id) as [Hid|Hid].
    + right. exists [], u, rest. repeat split; auto. intros task [].
    + destruct IH as [Hun | (pre & task & post & -> & Hun & Htask)].
      * left. intros task [<-|Hin]; auto.
      * right. exists (u :: pre), task, post. repeat split; auto.
        intros w [<-|Hin]; auto.
Qed.

(** X17.  The tool [remove] takes out of the list the first task that has
    the id, and nothing else: the tasks before it and after it stay, in
    their order.  Where no task has the id, the list is left as it is and
    the answer is [Task not found]. *)
Theorem todo_remove (id : string) (tasks : list Todo.task) :
  (forall pre task post,
     tasks = pre ++ task :: post ->
     Todo.unused id pre ->
     Todo.id task = id ->
     Todo.Tool.remove id tasks
     = (("Task removed: " ++ quoted id)%string, pre ++ post))
  /\ (Todo.unused id tasks ->
      Todo.Tool.remove id tasks
      = (("Task not found: " ++ quoted id)%string, tasks)).
Proof.
  unfold Todo.Tool.remove. split.
  - intros pre task post -> Hun Hid.
    now rewrite findIndex_first, splice_middle.
  - intros Hun. now rewrite findIndex_unused.
Qed.

Lemma todo_remove_witness :
  Todo.Tool.remove "b" [Todo.first_task; Todo.second_task; Todo.first_task]
  = ("Task removed: " ++ quoted "b", [Todo.first_task; Todo.first_task])%string
  /\ Todo.Tool.remove "c" [Todo.first_task]
     = ("Task not found: " ++ quoted "c", [Todo.first_task])%string.
Proof.
  split.
  - apply (proj1 (todo_remove "b" _) [Todo.first_task] Todo.second_task
             [Todo.first_task] eq_refl); [|reflexivity].
    intros task [<-|[]]. discriminate.
  - apply (proj2 (todo_remove "c" _)). intros task [<-|[]]. discriminate.
Defined.

(** X18.  The tools [priority], [status] and [progress] change one field of
    one task, the first that has the id: every other task, every other field
    of that task, its id among them, and the order of the list stay.  Where
    no task has the id, the list is left as it is. *)
Theorem todo_set_field (id : string) (tasks : list Todo.task)
  (priority : Z) (status progress : string) :
  (forall pre task post,
     tasks = pre ++ task :: post ->
     Todo.unused id pre ->
     Todo.id task = id ->
     snd (Todo.Tool.priority id priority tasks)
     = pre ++ {| Todo.id := id; Todo.title := Todo.title task;
                 Todo.description := Todo.description task;
                 Todo.rules := Todo.rules task;
                 Todo.instructions := Todo.instructions task;
                 Todo.priority := priority;
                 Todo.status := Todo.status task;
                 Todo.progress := Todo.progress task |} :: post
     /\ snd (Todo.Tool.status id status tasks)
        = pre ++ {| Todo.id := id; Todo.title := Todo.title task;
                    Todo.description := Todo.description task;
                    Todo.rules := Todo.rules task;
                    Todo.instructions := Todo.instructions task;
                    Todo.priority := Todo.priority task;
                    Todo.status := status;
                    Todo.progress := Todo.progress task |} :: post
     /\ snd (Todo.Tool.progress id progress tasks)
        = pre ++ {| Todo.id := id; Todo.title := Todo.title task;
                    Todo.description := Todo.description task;
                    Todo.rules := Todo.rules task;
                    Todo.instructions := Todo.instructions task;
                    Todo.priority := Todo.priority task;
                    Todo.status := Todo.status task;
                    Todo.progress := progress |} :: post)
  /\ (Todo.unused id tasks ->
      Todo.Tool.priority id priority tasks
      = (("Task not found: " ++ quoted id)%string, tasks)
      /\ Todo.Tool.status id status tasks
         = (("Task not found: " ++ quoted id)%string, tasks)
      /\ Todo.Tool.progress id progress tasks
         = (("Task not found: " ++ quoted id)%string, tasks)).
Proof.
  unfold Todo.Tool.priority, Todo.Tool.status, Todo.Tool.progress. split.
  - intros pre task post -> Hun Hid.
    rewrite !find_first by assumption. simpl. now rewrite Hid.
  - intros Hun. now rewrite !find_unused.
Qed.

Lemma todo_set_field_witness :
  snd (Todo.Tool.priority "b" 1 [Todo.first_task; Todo.second_task])
  = [Todo.first_task;
     {| Todo.id := "b"; Todo.title := "t2"; Todo.description := "d2";
        Todo.rules := "r2"; Todo.instructions := "i2"; Todo.priority := 1;
        Todo.status := "pending"; Todo.progress := EmptyString |}].
Proof.
  apply (proj1 (todo_set_field "b" _ 1 "s" "p") [Todo.first_task]
           Todo.second_task [] eq_refl); [|reflexivity].
  intros task [<-|[]]. discriminate.
Defined.

(** X19.  A task added under an id that no task has is the one that
    [remove] with this id takes out: [add] followed by [remove] gives back
    the list as it was, whatever was in it. *)
Theorem todo_add_then_remove (uuid title description rules instructions : string)
  (tasks : list Todo.task) :
  Todo.unused uuid tasks ->
  Todo.Tool.remove uuid
    (snd (Todo.Tool.add uuid title description rules instructions tasks))
  = (("Task removed: " ++ quoted uuid)%string, tasks).
Proof.
  intros Hun. unfold Todo.Tool.add, Todo.Tool.remove. cbn [snd].
  rewrite findIndex_first by auto. rewrite splice_middle.
  now rewrite List.app_nil_r.
Qed.

Lemma todo_add_then_remove_witness :
  Todo.unused "b" [Todo.first_task]
  /\ snd (Todo.Tool.remove "b"
            (snd (Todo.Tool.add "b" "t2" "d2" "r2" "i2"
                    [Todo.first_task])))
     = [Todo.first_task].
Proof.
  assert (Hun : Todo.unused "b"
                  [Todo.first_task]).
  { intros task [<-|[]]. discriminate. }
  split; [exact Hun|].
  rewrite (todo_add_then_remove "b" "t2" "d2" "r2" "i2" _ Hun). reflexivity.
Defined.

Lemma unused_app (id : string) (pre post : list Todo.task) :
  Todo.unused id (pre ++ post) <-> Todo.unused id pre /\ Todo.unused id post.
Proof.
  unfold Todo.unused. split.
  - intros H. split; intros task Hin; apply H, in_or_app; auto.
  - intros [Hpre Hpost] task Hin. apply in_app_or in Hin. destruct Hin; auto.
Qed.

Lemma unused_ids (id : string) (tasks : list Todo.task) :
  Todo.unused id tasks <-> ~ In id (List.map Todo.id tasks).
Proof.
  unfold Todo.unused. split.
  - intros H Hin. apply in_map_iff in Hin. destruct Hin as (task & Hid & Hin).
    now apply (H task).
  - intros H task Hin Hid. apply H. rewrite <- Hid. now apply in_map.
Qed.

Lemma NoDup_snoc (ids : list string) (id : string) :
  NoDup ids -> ~ In id ids -> NoDup (ids ++ [id]).
Proof.
  induction 1 as [|x ids Hx Hids IH]; intros Hid; simpl.
  - constructor; [intros [] | constructor].
  - constructor.
    + intros Hin. apply in_app_or in Hin. destruct Hin as [Hin|[<-|[]]]; auto.
      apply Hid. simpl. auto.
    + apply IH. intros Hin. apply Hid. simpl. auto.
Qed.

(** X20.  As long as [add] is given an id that no task has, the ids of the
    list stay pairwise distinct under every tool; and in a list with
    distinct ids, no task has the id any more once [remove] has run on it. *)
Theorem todo_ids_distinct (tasks : list Todo.task) :
  NoDup (List.map Todo.id tasks) ->
  (forall uuid title description rules instructions,
     Todo.unused uuid tasks ->
     NoDup (List.map Todo.id
              (snd (Todo.Tool.add uuid title description rules instructions
                      tasks))))
  /\ (forall id,
        NoDup (List.map Todo.id (snd (Todo.Tool.remove id tasks)))
        /\ Todo.unused id (snd (Todo.Tool.remove id tasks)))
  /\ (forall id priority status progress,
        List.map Todo.id (snd (Todo.Tool.priority id priority tasks))
        = List.map Todo.id tasks
        /\ List.map Todo.id (snd (Todo.Tool.status id status tasks))
           = List.map Todo.id tasks
        /\ List.map Todo.id (snd (Todo.Tool.progress id progress tasks))
           = List.map Todo.id tasks).
Proof.
  intros Hids. split; [|split].
  - intros uuid title description rules instructions Hun.
    unfold Todo.Tool.add. cbn [snd]. rewrite List.map_app. simpl.
    apply NoDup_snoc; [assumption | now apply unused_ids].
  - intros id.
    destruct (first_with_id id tasks)
      as [Hun | (pre & task & post & -> & Hun & Htask)].
    + unfold Todo.Tool.remove. rewrite findIndex_unused by assumption.
      simpl. auto.
    + unfold Todo.Tool.remove.
      rewrite findIndex_first, splice_middle by assumption.
      cbn [snd]. rewrite List.map_app in *. simpl in Hids.
      split; [eapply NoDup_remove_1; eassumption|].
      apply NoDup_remove_2 in Hids. rewrite <- List.map_app in Hids.
      apply unused_ids. now rewrite <- Htask.
  - intros id priority status progress.
    destruct (first_with_id id tasks)
      as [Hun | (pre & task & post & -> & Hun & Htask)].
    + unfold Todo.Tool.priority, Todo.Tool.status, Todo.Tool.progress.
      rewrite !find_unused by assumption. auto.
    + unfold Todo.Tool.priority, Todo.Tool.status, Todo.Tool.progress.
      rewrite !find_first by assumption. cbn [snd].
      rewrite !List.map_app. auto.
Qed.

Lemma todo_ids_distinct_witness :
  NoDup (List.map Todo.id [Todo.first_task; Todo.second_task])
  /\ Todo.unused "c" [Todo.first_task; Todo.second_task]
  /\ List.map Todo.id
       (snd (Todo.Tool.add "c" "t3" "d3" "r3" "i3"
               [Todo.first_task; Todo.second_task]))
     = ["a"; "b"; "c"]
  /\ NoDup (List.map Todo.id
              (snd (Todo.Tool.add "c" "t3" "d3" "r3" "i3"
                      [Todo.first_task; Todo.second_task])))
  /\ snd (Todo.Tool.remove "a" [Todo.first_task; Todo.second_task])
     = [Todo.second_task]
  /\ NoDup (List.map Todo.id
              (snd (Todo.Tool.remove "a" [Todo.first_task; Todo.second_task])))
  /\ Todo.unused "a"
       (snd (Todo.Tool.remove "a" [Todo.first_task; Todo.second_task]))
  /\ List.map Todo.id
       (snd (Todo.Tool.status "b" "done" [Todo.first_task; Todo.second_task]))
     = List.map Todo.id [Todo.first_task; Todo.second_task].
Proof.
  assert (Hids : NoDup (List.map Todo.id [Todo.first_task; Todo.second_task])).
  { simpl. constructor; [intros [H|[]]; discriminate|].
    constructor; [intros [] | constructor]. }
  assert (Hun : Todo.unused "c" [Todo.first_task; Todo.second_task]).
  { intros task [<-|[<-|[]]]; discriminate. }
  destruct (todo_ids_distinct _ Hids) as (Hadd & Hremove & Hfields).
  split; [exact Hids|]. split; [exact Hun|]. split; [reflexivity|].
  split; [exact (Hadd "c" "t3" "d3" "r3" "i3" Hun)|].
  split; [reflexivity|].
  split; [exact (proj1 (Hremove "a"))|].
  split; [exact (proj2 (Hremove "a"))|].
  exact (proj1 (proj2 (Hfields "b" 1%Z "done" "p"))).
Defined.

(** ** Listed paths can be read *)

Lemma split_dotless (key : string) :
  Count.dotless key = true -> split "." key = [key].
Proof.
  induction key as [|c key IH]; simpl; [reflexivity|].
  intros H. apply andb_prop in H. destruct H as [Hc Hrest].
  apply negb_true_iff in Hc. rewrite Hc. now rewrite IH.
Qed.

Lemma own_unique (props : list (string * value)) (key : string) (v : value) :
  Count.distinct (List.map fst props) = true ->
  In (key, v) props -> own props key = Some v.
Proof.
  induction props as [|[k x] props IH]; simpl; [tauto|].
  intros H. apply andb_prop in H. destruct H as [Hfresh Hrest].
  intros [Hhead | Hin].
  - injection Hhead as -> ->. now rewrite String.eqb_refl.
  - destruct (String.eqb k key) eqn:E; [|auto].
    apply String.eqb_eq in E. subst k. apply negb_true_iff in Hfresh.
    rewrite (own_not_mem _ _ Hfresh) in IH. now specialize (IH Hrest Hin).
Qed.

Lemma all_props_In (f : value -> bool) (props : list (string * value))
  (key : string) (v : value) :
  Count.all_props f props = true -> In (key, v) props -> f v = true.
Proof.
  induction props as [|[k x] props IH]; simpl; [tauto|].
  intros H. apply andb_prop in H. destruct H as [Hx Hrest].
  intros [Hhead | Hin]; [now injection Hhead as _ <- | auto].
Qed.

(** The segments [pre] of the path [prefix] under which a node is listed;
    the root is listed under the empty prefix. *)
Lemma keyPath_split (prefix key : string) (pre : list string) :
  (prefix = "" /\ pre = []) \/ (prefix <> "" /\ split "." prefix = pre) ->
  Count.segment key = true ->
  JSONHandler.keyPath prefix key <> ""
  /\ split "." (JSONHandler.keyPath prefix key) = pre ++ [key].
Proof.
  intros Hprefix Hkey. apply andb_prop in Hkey. destruct Hkey as [Hne Hdots].
  apply negb_true_iff, String.eqb_neq in Hne.
  unfold JSONHandler.keyPath. simpl.
  destruct Hprefix as [[-> ->] | [Hprefix <-]].
  - simpl. split; [assumption | now apply split_dotless].
  - destruct (String.eqb prefix "") eqn:E;
      [now apply String.eqb_eq in E|]. simpl. split.
    + destruct prefix; [contradiction | discriminate].
    + rewrite split_app. now rewrite (split_dotless key) by assumption.
Qed.

Lemma getAllKeys_scalar (obj : value) (prefix : string)
  (maxDepth currentDepth : Z) :
  is_object obj = false ->
  JSONHandler.getAllKeys obj prefix maxDepth currentDepth = [].
Proof.
  destruct obj; try discriminate; intros _; simpl;
    match goal with
    | |- (if ?b then _ else _) = _ => destruct b; reflexivity
    end.
Qed.

Lemma getAllKeys_readable (node : value) :
  forall prefix pre maxDepth currentDepth p,
    Count.unique_keys node = true ->
    Count.segmented node = true ->
    (prefix = "" /\ pre = []) \/ (prefix <> "" /\ split "." prefix = pre) ->
    In p (JSONHandler.getAllKeys node prefix maxDepth currentDepth) ->
    exists keys v,
      split "." p = pre ++ keys
      /\ JSONHandler.getValue_loop node keys = Returned v
      /\ v <> VUndefined.
Proof.
  induction node as [| | | | |items IH|props IH] using value_induction;
    intros prefix pre maxDepth currentDepth p Huniq Hseg Hprefix Hin;
    try discriminate;
    try (rewrite getAllKeys_scalar in Hin by reflexivity; contradiction).
  destruct (maxDepth <=? currentDepth)%Z eqn:Hdepth;
    [now rewrite getAllKeys_beyond in Hin|].
  rewrite getAllKeys_object, getAllKeys_props_flat_map in Hin by assumption.
  apply in_flat_map in Hin. destruct Hin as ([key child] & Hentry & Hin).
  simpl in Huniq, Hseg.
  apply andb_prop in Huniq. destruct Huniq as [Hdist Huniq].
  apply andb_prop in Hseg. destruct Hseg as [Hkeys Hseg].
  assert (Hkey : Count.segment key = true).
  { rewrite forallb_forall in Hkeys. apply Hkeys.
    change key with (fst (key, child)). now apply in_map. }
  destruct (keyPath_split prefix key pre Hprefix Hkey) as [Hfull Hsplit].
  pose proof (own_unique _ _ _ Hdist Hentry) as Hown.
  pose proof (all_props_In _ _ _ _ Hseg Hentry) as Hchild_seg.
  pose proof (all_props_In _ _ _ _ Huniq Hentry) as Hchild_uniq.
  unfold Spec.key_paths in Hin. cbn [fst snd] in Hin.
  destruct Hin as [<- | Hin].
  - exists [key], child. split; [assumption|]. simpl. rewrite Hown. simpl.
    split; [reflexivity|]. intros ->. discriminate.
  - destruct (is_object child) eqn:Hobj; [|contradiction].
    rewrite Forall_forall in IH. specialize (IH _ Hentry). cbn [snd] in IH.
    destruct (IH _ (pre ++ [key]) _ _ _ Hchild_uniq Hchild_seg
                (or_intror (conj Hfull Hsplit)) Hin)
      as (keys & v & Hp & Hget & Hdef).
    exists (key :: keys), v. split; [now rewrite Hp, <- List.app_assoc|].
    split; [|assumption]. simpl. rewrite Hown. simpl. exact Hget.
Qed.

(** X21.  In a tree of Mappings and scalars whose keys are not empty and
    hold no dot, every path that [getAllKeys] lists is a path that
    [getValue] reads: it finds a value there, not [undefined].  (A path
    that starts with [$] goes to JSONPath and is left aside; the keys of
    each Mapping are taken to be distinct.) *)
Theorem getAllKeys_then_getValue (obj : value) (maxDepth : Z) (p : string) :
  Count.unique_keys obj = true ->
  Count.segmented obj = true ->
  In p (JSONHandler.getAllKeys obj "" maxDepth 0) ->
  startsWith "$" p = false ->
  exists v, JSONHandler.getValue obj p = Returned v /\ v <> VUndefined.
Proof.
  intros Huniq Hseg Hin Hdot.
  destruct (getAllKeys_readable obj "" [] maxDepth 0 p Huniq Hseg
              (or_introl (conj eq_refl eq_refl)) Hin)
    as (keys & v & Hp & Hget & Hdef).
  exists v. split; [|assumption].
  unfold JSONHandler.getValue. rewrite Hdot, Hp. simpl. now rewrite Hget.
Qed.

Lemma getAllKeys_then_getValue_witness :
  Count.unique_keys (VObject [("x", VObject [("y", VNumber 1)])]) = true
  /\ Count.segmented (VObject [("x", VObject [("y", VNumber 1)])]) = true
  /\ In "x.y"
       (JSONHandler.getAllKeys (VObject [("x", VObject [("y", VNumber 1)])])
          "" 5 0)
  /\ startsWith "$" "x.y" = false
  /\ exists v,
       JSONHandler.getValue (VObject [("x", VObject [("y", VNumber 1)])]) "x.y"
       = Returned v
       /\ v <> VUndefined.
Proof.
  split; [reflexivity|]. split; [reflexivity|].
  split; [simpl; auto|]. split; [reflexivity|].
  apply (getAllKeys_then_getValue (VObject [("x", VObject [("y", VNumber 1)])])
           5 "x.y"); [reflexivity | reflexivity | simpl; auto | reflexivity].
Defined.

(** ** Short Sequences, short previews *)

(** X22.  [getAllKeys] lists a Sequence of at most ten elements in full:
    each element under its bracket path, followed by the paths below it,
    and no [more items] marker. *)
Theorem getAllKeys_short_sequence (items : list (option value))
  (prefix : string) (maxDepth currentDepth : Z) :
  (length items <= 10)%nat ->
  (currentDepth < maxDepth)%Z ->
  JSONHandler.getAllKeys (VArray items) prefix maxDepth currentDepth
  = flat_map (Spec.item_paths prefix maxDepth currentDepth)
      (combine (seq 0 (length items)) items).
Proof.
  intros Hshort Hdepth.
  rewrite getAllKeys_array by (apply Z.leb_gt; assumption).
  rewrite getAllKeys_items_flat_map.
  replace (10 <? length items)%nat with false
    by (symmetry; apply Nat.ltb_ge; assumption).
  rewrite Nat.min_l by assumption. rewrite Nat.sub_0_r.
  apply List.app_nil_r.
Qed.

Lemma getAllKeys_short_sequence_witness :
  (length Scenario.one_two_three <= 10)%nat
  /\ (0 < 5)%Z
  /\ JSONHandler.getAllKeys (VArray Scenario.one_two_three) "b" 5 0
     = ["b[0]"; "b[1]"; "b[2]"].
Proof.
  split; [simpl; lia|]. split; [lia|].
  rewrite (getAllKeys_short_sequence Scenario.one_two_three "b" 5 0);
    [reflexivity | simpl; lia | lia].
Defined.

Lemma length_substring0 (n : nat) (s : string) :
  (String.length (substring0 n s) <= n)%nat.
Proof.
  revert s. induction n as [|n IH]; intros [|c s]; simpl; try lia.
  specialize (IH s). lia.
Qed.

Lemma length_append (a b : string) :
  String.length (a ++ b) = (String.length a + String.length b)%nat.
Proof. induction a as [|c a IH]; simpl; [reflexivity | now rewrite IH]. Qed.

Lemma substring0_all (n : nat) (s : string) :
  (String.length s <= n)%nat -> substring0 n s = s.
Proof.
  revert s. induction n as [|n IH]; intros [|c s]; simpl; try reflexivity;
    try lia.
  intros H. rewrite IH; [reflexivity | lia].
Qed.

Lemma substring0_append (n : nat) (a b : string) :
  (n <= String.length a)%nat -> substring0 n (a ++ b) = substring0 n a.
Proof.
  revert a. induction n as [|n IH]; intros [|c a]; simpl; try reflexivity;
    try lia.
  intros H. rewrite IH; [reflexivity | lia].
Qed.

Lemma substring0_idempotent (n : nat) (s : string) :
  substring0 n (substring0 n s) = substring0 n s.
Proof.
  revert s. induction n as [|n IH]; intros [|c s]; simpl; try reflexivity.
  now rewrite IH.
Qed.

Lemma length_substring0_long (n : nat) (s : string) :
  (n <= String.length s)%nat -> String.length (substring0 n s) = n.
Proof.
  revert s. induction n as [|n IH]; intros [|c s]; simpl; try reflexivity;
    try lia.
  intros H. rewrite IH; [reflexivity | lia].
Qed.

(** X23.  The preview of a String is a String of at most 103 characters
    that starts as the String does: its first 100 characters are those of
    the String.  A String of at most 100 characters is its own preview. *)
Theorem getPreview_string (text : string) :
  exists preview,
    JSONHandler.getPreview (VString text) = VString preview
    /\ (String.length preview <= 103)%nat
    /\ substring0 100 preview = substring0 100 text
    /\ ((String.length text <= 100)%nat -> preview = text).
Proof.
  unfold JSONHandler.getPreview.
  destruct (100 <? String.length text)%nat eqn:Hlong.
  - apply Nat.ltb_lt in Hlong. eexists. split; [reflexivity|].
    split; [|split].
    + rewrite length_append. pose proof (length_substring0 100 text).
      simpl String.length at 2. lia.
    + rewrite substring0_append
        by (rewrite length_substring0_long; lia).
      apply substring0_idempotent.
    + lia.
  - apply Nat.ltb_ge in Hlong. exists text. split; [reflexivity|].
    split; [lia|]. split; [reflexivity | auto].
Qed.

(** ** getStructure is bounded *)

Lemma length_overwrite (props : list (string * value)) (key : string)
  (x : value) :
  length (overwrite props key x) = length props.
Proof.
  induction props as [|[k v] props IH]; simpl; [reflexivity|].
  destruct (String.eqb k key); simpl; [reflexivity | now rewrite IH].
Qed.

Lemma length_insert_index (n : N) (key : string) (x : value)
  (props : list (string * value)) :
  length (insert_index n key x props) = S (length props).
Proof.
  induction props as [|[k v] props IH]; simpl; [reflexivity|].
  destruct (array_index k) as [m|]; [destruct (m <? n)%N|]; simpl;
    try reflexivity.
  now rewrite IH.
Qed.

Lemma length_fill (result : list (string * value)) (key : string) (x : value) :
  (length (JSONHandler.fill result key x) <= S (length result))%nat.
Proof.
  unfold JSONHandler.fill, define. destruct (own result key).
  - rewrite length_overwrite. lia.
  - destruct (String.eqb key "__proto__"); [lia|].
    destruct (array_index key).
    + rewrite length_insert_index. lia.
    + rewrite length_app. simpl. lia.
Qed.

Lemma length_getStructure_fields (callback : value -> value * list Z)
  (rest : list (string * value)) :
  forall n result calls,
    (length (fst (JSONHandler.getStructure_fields callback rest n result calls))
     <= length result + Nat.min n (length rest))%nat.
Proof.
  induction rest as [|[key child] rest IH]; intros [|n] result calls; simpl;
    try lia.
  destruct (callback child) as [s c].
  specialize (IH n (JSONHandler.fill result key s) (calls ++ c)).
  pose proof (length_fill result key s). lia.
Qed.

Lemma length_getStructure_sample (callback : value -> value * list Z)
  (rest : list (option value)) :
  forall n,
    length (fst (JSONHandler.getStructure_sample callback rest n))
    = Nat.min n (length rest).
Proof.
  induction rest as [|item rest IH]; intros [|n]; simpl; try reflexivity.
  destruct (match item with
            | Some child => let '(s, c) := callback child in (Some s, c)
            | None => (None, [])
            end) as [shape here].
  specialize (IH n).
  destruct (JSONHandler.getStructure_sample callback rest n) as [shapes later].
  simpl in *. now rewrite IH.
Qed.

(** X24.  Above the depth boundary, the shape [getStructure] gives of a
    Sequence holds a label and the shapes of its first three elements at
    most, and the shape it gives of a Mapping has an entry for each of its
    first twenty keys at most and one more, [...], when there are further
    keys: 21 entries at most, however large the data. *)
Theorem getStructure_bounded (maxDepth currentDepth : Z) :
  (currentDepth < maxDepth)%Z ->
  (forall item items,
     exists label sample,
       JSONHandler.getStructure (VArray (item :: items)) maxDepth currentDepth
       = VArray [Some (VString label); Some (VArray sample)]
       /\ length sample = Nat.min 3 (S (length items)))
  /\ (forall props,
        exists result,
          JSONHandler.getStructure (VObject props) maxDepth currentDepth
          = VObject result
          /\ (length result
              <= Nat.min 20 (length props)
                 + (if (20 <? length props)%nat then 1 else 0))%nat
          /\ (length result <= 21)%nat).
Proof.
  intros Hdepth. apply Z.leb_gt in Hdepth. split.
  - intros item items. unfold JSONHandler.getStructure.
    cbn [JSONHandler.getStructure_calls]. rewrite Hdepth.
    pose proof (length_getStructure_sample
                  (fun item0 =>
                     JSONHandler.getStructure_calls item0 maxDepth
                       (currentDepth + 1)) (item :: items) 3) as Hlen.
    destruct (JSONHandler.getStructure_sample _ (item :: items) 3)
      as [sample calls].
    cbn [fst] in Hlen. cbn [fst]. eauto.
  - intros props. unfold JSONHandler.getStructure.
    cbn [JSONHandler.getStructure_calls]. rewrite Hdepth.
    pose proof (length_getStructure_fields
                  (fun item0 =>
                     JSONHandler.getStructure_calls item0 maxDepth
                       (currentDepth + 1)) props 20 [] []) as Hlen.
    destruct (JSONHandler.getStructure_fields _ props 20 [] [])
      as [result calls].
    cbn [fst length Nat.add] in Hlen. cbn [fst]. eexists.
    split; [reflexivity|].
    destruct (20 <? length props)%nat.
    + pose proof (length_fill result "..."
                    (VString (string_of_nat (length props - 20)
                              ++ " more keys"))). lia.
    + lia.
Qed.

Lemma getStructure_bounded_witness :
  (0 < 3)%Z
  /\ exists label sample,
       JSONHandler.getStructure (VArray Scenario.dozen) 3 0
       = VArray [Some (VString label); Some (VArray sample)]
       /\ length sample = 3%nat.
Proof.
  split; [lia|].
  apply (proj1 (getStructure_bounded 3 0 ltac:(lia)) (Scenario.num 0)).
Defined.

(** ** Sequential thinking *)

Import SequentialThinking.

Lemma get_set (key : string) (session : Session.t)
  (entries : list (string * Session.t)) :
  get key (set key session entries) = Some session.
Proof.
  induction entries as [|[k old] rest IH]; simpl.
  - now rewrite String.eqb_refl.
  - destruct (String.eqb k key) eqn:E; simpl; now rewrite E.
Qed.

Lemma get_set_other (key k : string) (session : Session.t)
  (entries : list (string * Session.t)) :
  k <> key -> get k (set key session entries) = get k entries.
Proof.
  intros Hk. induction entries as [|[k' old] rest IH]; simpl.
  - apply String.eqb_neq in Hk. rewrite String.eqb_sym in Hk. now rewrite Hk.
  - destruct (String.eqb k' key) eqn:E; simpl; [|now rewrite IH].
    apply String.eqb_eq in E. subst k'.
    apply String.eqb_neq in Hk. rewrite String.eqb_sym in Hk. now rewrite Hk.
Qed.

Lemma keys_set (key : string) (session : Session.t)
  (entries : list (string * Session.t)) :
  List.map fst (set key session entries)
  = match get key entries with
    | Some _ => List.map fst entries
    | None => List.map fst entries ++ [key]
    end.
Proof.
  induction entries as [|[k old] rest IH]; simpl; [reflexivity|].
  destruct (String.eqb k key) eqn:E; simpl; [reflexivity|].
  rewrite IH. now destruct (get key rest).
Qed.

Lemma get_none_keys (key : string) (entries : list (string * Session.t)) :
  get key entries = None -> ~ In key (List.map fst entries).
Proof.
  induction entries as [|[k old] rest IH]; simpl; [tauto|].
  destruct (String.eqb k key) eqn:E; [discriminate|].
  apply String.eqb_neq in E. intros Hget [Hk|Hin]; [auto | now apply IH].
Qed.

Lemma get_kept (key : string) (session : Session.t)
  (entries : list (string * Session.t)) :
  Forall kept entries ->
  get key entries = Some session ->
  kept (key, session).
Proof.
  induction 1 as [|[k old] rest Hk _ IH]; simpl; [discriminate|].
  destruct (String.eqb k key) eqn:E; [|assumption].
  apply String.eqb_eq in E. subst k. intros H. now injection H as <-.
Qed.

Lemma set_kept (key : string) (session : Session.t)
  (entries : list (string * Session.t)) :
  Forall kept entries ->
  kept (key, session) ->
  Forall kept (set key session entries).
Proof.
  intros Hall Hnew. induction Hall as [|[k old] rest Hk Hrest IH]; simpl.
  - constructor; [assumption | constructor].
  - destruct (String.eqb k key) eqn:E.
    + apply String.eqb_eq in E. subst k. constructor; assumption.
    + constructor; assumption.
Qed.

Lemma set_kept_all (key : string) (session : Session.t) (h : handler)
  (counter : nat) :
  kept_all h ->
  kept (key, session) ->
  kept_all {| sessions := set key session (sessions h);
                 sessionCounter := counter |}.
Proof.
  intros [Hkeys Hall] Hnew. split; simpl; [|now apply set_kept].
  rewrite keys_set. destruct (get key (sessions h)) eqn:Hget;
    [assumption|].
  apply NoDup_snoc; [assumption | now apply get_none_keys].
Qed.

Lemma delete_entries (key : string) (entries : list (string * Session.t)) :
  NoDup (List.map fst entries) ->
  Forall kept entries ->
  NoDup (List.map fst (snd (delete key entries)))
  /\ Forall kept (snd (delete key entries))
  /\ get key (snd (delete key entries)) = None
  /\ (forall k, k <> key ->
                get k (snd (delete key entries)) = get k entries)
  /\ fst (delete key entries)
     = match get key entries with Some _ => true | None => false end
  /\ incl (List.map fst (snd (delete key entries))) (List.map fst entries).
Proof.
  induction entries as [|[k old] rest IH]; simpl; intros Hkeys Hall.
  - repeat split; auto. apply incl_refl.
  - inversion Hkeys as [|? ? Hk Hrest]; subst.
    inversion Hall as [|? ? Hold Hrest_kept]; subst.
    destruct (IH Hrest Hrest_kept) as (IH1 & IH2 & IH3 & IH4 & IH5 & IH6).
    destruct (String.eqb k key) eqn:E; simpl.
    + apply String.eqb_eq in E. subst k. repeat split; auto.
      * destruct (get key rest) eqn:Hget; [|reflexivity].
        exfalso. apply Hk. clear - Hget.
        induction rest as [|[k' o] rest IH]; simpl in *; [discriminate|].
        destruct (String.eqb k' key) eqn:E; [|auto].
        apply String.eqb_eq in E. auto.
      * intros k Hne. apply String.eqb_neq in Hne.
        rewrite String.eqb_sym in Hne. now rewrite Hne.
      * apply incl_tl, incl_refl.
    + destruct (delete key rest) as [existed rest'] eqn:Hdel. simpl in *.
      rewrite E. repeat split; auto.
      * constructor; [|assumption]. intros Hin. apply Hk. now apply IH6.
      * intros k' Hne. destruct (String.eqb k k'); auto.
      * apply incl_cons; [simpl; auto | now apply incl_tl].
Qed.

Lemma found_returned (sessionId : string) (h : handler)
  (session : Session.t) :
  found sessionId h = Returned session ->
  get sessionId (sessions h) = Some session.
Proof.
  unfold found. destruct (get sessionId (sessions h));
    intros H; [now injection H as <- | discriminate].
Qed.

Lemma revise_ids (thoughtId : Z) (newContent : string) (reason : option string)
  (thoughts : list Thought.t) (original : Thought.t)
  (thoughts' : list Thought.t) :
  revise thoughtId newContent reason thoughts = Some (original, thoughts') ->
  List.map Thought.id thoughts' = List.map Thought.id thoughts
  /\ length thoughts' = length thoughts.
Proof.
  revert thoughts'. induction thoughts as [|t rest IH]; simpl; intros thoughts';
    [discriminate|].
  destruct (Z.of_nat (Thought.id t) =? thoughtId)%Z.
  - intros H. injection H as <- <-. simpl. auto.
  - destruct (revise thoughtId newContent reason rest) as [[o rest']|];
      [|discriminate].
    intros H. injection H as -> <-.
    destruct (IH rest' eq_refl) as [Hmap Hlen]. simpl. now rewrite Hmap, Hlen.
Qed.

Lemma kept_all_createSession (sessionId : option string) (now : Z)
  (h : handler) :
  kept_all h -> kept_all (snd (createSession sessionId now h)).
Proof.
  intros Hkept. unfold createSession.
  match goal with
  | |- context [let '(id, counter) := ?x in _] => destruct x as [id counter]
  end.
  cbn [snd]. apply set_kept_all; [assumption|].
  unfold kept. simpl. repeat split; auto. lia.
Qed.

(** X25.  Every method of the handler keeps the sessions in order: a
    session is stored under its own id, its thoughts are numbered 1, 2, ...
    in the order they were added, [currentThought] is their number and
    [totalThoughts] is at least 1.  This holds of the empty handler, and
    [createSession], [addThought], [revisethought], [branchThinking],
    [adjustTotalThoughts] and [deleteSession] each preserve it. *)
Theorem sequential_thinking_kept (h : handler) :
  kept_all h ->
  (forall sessionId now,
     kept_all (snd (createSession sessionId now h)))
  /\ (forall sessionId thoughtData now thought h',
        addThought sessionId thoughtData now h = Returned (thought, h') ->
        kept_all h')
  /\ (forall sessionId thoughtId newContent reason now revision h',
        revisethought sessionId thoughtId newContent reason now h
        = Returned (revision, h') ->
        kept_all h')
  /\ (forall sessionId fromThoughtId branchName initialThought now later
             branch h',
        branchThinking sessionId fromThoughtId branchName initialThought
          now later h = Returned (branch, h') ->
        kept_all h')
  /\ (forall sessionId newTotal reason adjustment h',
        adjustTotalThoughts sessionId newTotal reason h
        = Returned (adjustment, h') ->
        kept_all h')
  /\ (forall sessionId, kept_all (snd (deleteSession sessionId h))).
Proof.
  intros Hkept. pose proof Hkept as [Hkeys Hall].
  split; [|split; [|split; [|split; [|split]]]].
  - intros sessionId now. now apply kept_all_createSession.
  - intros sessionId thoughtData now thought h' Hrun.
    unfold addThought in Hrun. bind_inv Hrun as session Hsession.
    injection Hrun as _ <-. apply found_returned in Hsession.
    destruct (get_kept _ _ _ Hall Hsession) as (Hid & Hids & Hcur & Htotal).
    simpl in *.
    apply set_kept_all; [assumption|]. unfold kept. simpl.
    repeat split; auto.
    rewrite List.map_app, length_app, Hids. simpl.
    rewrite seq_app. simpl. now rewrite Nat.add_comm.
  - intros sessionId thoughtId newContent reason now revision h' Hrun.
    unfold revisethought in Hrun. bind_inv Hrun as session Hsession.
    apply found_returned in Hsession.
    destruct (get_kept _ _ _ Hall Hsession) as (Hid & Hids & Hcur & Htotal).
    simpl in *.
    destruct (revise thoughtId newContent reason (Session.thoughts session))
      as [[original thoughts']|] eqn:Hrevise; [|discriminate].
    injection Hrun as _ <-. destruct (revise_ids _ _ _ _ _ _ Hrevise) as [Hmap Hlen].
    apply set_kept_all; [assumption|]. unfold kept. simpl.
    repeat split; auto; congruence.
  - intros sessionId fromThoughtId branchName initialThought now later branch
      h' Hrun.
    unfold branchThinking in Hrun. bind_inv Hrun as session Hsession.
    injection Hrun as _ <-. apply found_returned in Hsession.
    destruct (get_kept _ _ _ Hall Hsession) as (Hid & Hids & Hcur & Htotal).
    simpl in *.
    apply set_kept_all; [assumption|]. unfold kept. simpl.
    repeat split; auto.
  - intros sessionId newTotal reason adjustment h' Hrun.
    unfold adjustTotalThoughts in Hrun. bind_inv Hrun as session Hsession.
    injection Hrun as _ <-. apply found_returned in Hsession.
    destruct (get_kept _ _ _ Hall Hsession) as (Hid & Hids & Hcur & Htotal).
    simpl in *.
    apply set_kept_all; [assumption|]. unfold kept. simpl.
    repeat split; auto. lia.
  - intros sessionId. unfold deleteSession.
    destruct (delete_entries sessionId _ Hkeys Hall) as (H1 & H2 & _).
    destruct (delete sessionId (sessions h)) as [existed rest].
    split; assumption.
Qed.

Lemma kept_all_constructor : kept_all constructor.
Proof. split; simpl; constructor. Qed.

Lemma kept_all_working : kept_all working.
Proof.
  split; simpl.
  - constructor; [intros [] | constructor].
  - constructor; [|constructor]. unfold kept. simpl. repeat split. lia.
Qed.

(** An instance: the handler at work is what the methods make of the new
    handler, and each method keeps it in order. *)
Lemma sequential_thinking_kept_witness :
  (exists h1,
     addThought "s" (said "first") 1
       (snd (createSession (Some "s") 0 constructor))
     = Returned (thought_at 1 "first" 1, h1)
     /\ addThought "s" (said "second") 2 h1
        = Returned (thought_at 2 "second" 2, working))
  /\ kept_all working
  /\ kept_all (snd (createSession None 9 working))
  /\ (exists thought h',
        addThought "s" (said "third") 3 working = Returned (thought, h')
        /\ Thought.id thought = 3%nat
        /\ kept_all h')
  /\ (exists revision h',
        revisethought "s" 2 "second thoughts" (Some "typo") 4 working
        = Returned (revision, h')
        /\ kept_all h')
  /\ (exists branch h',
        branchThinking "s" 1 "aside" "what if" 5 6 working
        = Returned (branch, h')
        /\ kept_all h')
  /\ (exists adjustment h',
        adjustTotalThoughts "s" (-4) None working
        = Returned (adjustment, h')
        /\ newTotal adjustment = 1%Z
        /\ kept_all h')
  /\ kept_all (snd (deleteSession "s" working)).
Proof.
  destruct (sequential_thinking_kept working kept_all_working)
    as (Hcreate & Hadd & Hrevise & Hbranch & Hadjust & Hdelete).
  split; [eexists; split; reflexivity|].
  split; [exact kept_all_working|].
  split; [exact (Hcreate None 9%Z)|].
  split; [do 2 eexists; split; [reflexivity|]; split; [reflexivity|];
          exact (Hadd "s" (said "third") 3%Z _ _ eq_refl)|].
  split; [do 2 eexists; split; [reflexivity|];
          exact (Hrevise "s" 2%Z "second thoughts" (Some "typo") 4%Z _ _
                   eq_refl)|].
  split; [do 2 eexists; split; [reflexivity|];
          exact (Hbranch "s" 1%Z "aside" "what if" 5%Z 6%Z _ _ eq_refl)|].
  split; [do 2 eexists; split; [reflexivity|]; split; [reflexivity|];
          exact (Hadjust "s" (-4)%Z None _ _ eq_refl)|].
  exact (Hdelete "s").
Defined.

(** X26.  [addThought] gives the new thought the number that follows
    [currentThought], and [getProgress] then reports this number as
    [currentThought], with [thoughtsRemaining] the thoughts still to come up
    to [totalThoughts], never below 0. *)
Theorem addThought_numbers (percent : nat -> Z -> Z) (sessionId : string)
  (thoughtData : ThoughtData.t) (now later : Z) (h : handler)
  (session : Session.t) :
  kept_all h ->
  get sessionId (sessions h) = Some session ->
  exists thought h' progress,
    addThought sessionId thoughtData now h = Returned (thought, h')
    /\ Thought.id thought = S (Session.currentThought session)
    /\ getProgress percent sessionId later h' = Returned progress
    /\ Progress.currentThought progress = Thought.id thought
    /\ Progress.totalThoughts progress = Session.totalThoughts session
    /\ Progress.thoughtsRemaining progress
       = Z.max 0 (Session.totalThoughts session
                  - Z.of_nat (Thought.id thought))
    /\ (0 <= Progress.thoughtsRemaining progress)%Z.
Proof.
  intros [_ Hall] Hget.
  destruct (get_kept _ _ _ Hall Hget) as (_ & _ & Hcur & _). simpl in Hcur.
  unfold addThought, found. rewrite Hget. cbn [bind].
  do 3 eexists. split; [reflexivity|].
  unfold getProgress, getSession, found, mutate.
  cbn [sessions]. rewrite get_set. cbn [bind].
  split; [cbn; lia|]. split; [reflexivity|].
  cbn [Progress.currentThought Progress.totalThoughts
       Progress.thoughtsRemaining Session.currentThought
       Session.totalThoughts Thought.id].
  rewrite !length_app. simpl length. rewrite <- !Hcur.
  repeat split; try reflexivity; try lia.
Qed.

Lemma addThought_numbers_witness :
  kept_all (snd (createSession (Some "s") 0 constructor))
  /\ get "s"
       (sessions (snd (createSession (Some "s") 0 constructor)))
     = Some (fresh "s" 0)
  /\ exists thought h' progress,
       addThought "s"
         {| ThoughtData.content := "first";
            ThoughtData.type := None;
            ThoughtData.confidence := Some 0%Z;
            ThoughtData.tags := None;
            ThoughtData.parentThought := None;
            ThoughtData.isRevision := None |} 1
         (snd (createSession (Some "s") 0 constructor))
       = Returned (thought, h')
       /\ Thought.id thought = 1%nat
       /\ getProgress (fun _ _ => 10%Z) "s" 2 h' = Returned progress
       /\ Progress.currentThought progress = Thought.id thought
       /\ Progress.totalThoughts progress = 10%Z
       /\ Progress.thoughtsRemaining progress
          = Z.max 0 (10 - Z.of_nat (Thought.id thought))
       /\ (0 <= Progress.thoughtsRemaining progress)%Z.
Proof.
  assert (Hkept : kept_all
                    (snd (createSession (Some "s") 0 constructor)))
    by apply kept_all_createSession, kept_all_constructor.
  split; [exact Hkept|]. split; [reflexivity|].
  apply (addThought_numbers (fun _ _ => 10%Z) "s" _ 1 2 _ (fresh "s" 0)
           Hkept eq_refl).
Defined.

(** The thoughts numbered from [first] on: [revise] looks a number up by
    position. *)
Lemma revise_numbered (thoughtId : Z) (newContent : string)
  (reason : option string) (thoughts : list Thought.t) :
  forall first,
    List.map Thought.id thoughts = seq first (length thoughts) ->
    ((Z.of_nat first <= thoughtId < Z.of_nat (first + length thoughts))%Z ->
     exists original,
       nth_error thoughts (Z.to_nat (thoughtId - Z.of_nat first))
       = Some original
       /\ revise thoughtId newContent reason thoughts
          = Some (original,
                  firstn (Z.to_nat (thoughtId - Z.of_nat first)) thoughts
                  ++ revised_thought original newContent reason
                  :: skipn (S (Z.to_nat (thoughtId - Z.of_nat first)))
                       thoughts))
    /\ (~ (Z.of_nat first <= thoughtId < Z.of_nat (first + length thoughts))%Z ->
        revise thoughtId newContent reason thoughts = None).
Proof.
  induction thoughts as [|t rest IH]; intros first Hids.
  - simpl. split; [lia | reflexivity].
  - simpl in Hids. injection Hids as Hid Hrest.
    cbn [revise]. rewrite Hid.
    destruct (Z.of_nat first =? thoughtId)%Z eqn:E.
    + apply Z.eqb_eq in E. split.
      * intros _. replace (thoughtId - Z.of_nat first)%Z with 0%Z by lia.
        simpl. eauto.
      * simpl. lia.
    + apply Z.eqb_neq in E. destruct (IH (S first) Hrest) as [Hin Hout]. split.
      * intros Hrange. simpl in Hrange.
        destruct Hin as (original & Hnth & Hrev); [lia|].
        replace (Z.to_nat (thoughtId - Z.of_nat first))
          with (S (Z.to_nat (thoughtId - Z.of_nat (S first)))) by lia.
        exists original. split; [exact Hnth|]. rewrite Hrev. reflexivity.
      * intros Hrange. simpl in Hrange. rewrite Hout; [reflexivity | lia].
Qed.

(** X27.  In a session with [n] thoughts, [revisethought] finds the thought
    exactly when [1 <= thoughtId <= n].  It then returns a revision that
    holds the content the thought had, gives the thought the new content
    and the reason, leaves every other thought as it was, and adds the
    revision to the session.  For any other [thoughtId] it throws
    [Thought ... not found]. *)
Theorem revisethought_by_number (sessionId : string) (thoughtId : Z)
  (newContent : string) (reason : option string) (now : Z) (h : handler)
  (session : Session.t) :
  kept_all h ->
  get sessionId (sessions h) = Some session ->
  ((1 <= thoughtId <= Z.of_nat (length (Session.thoughts session)))%Z ->
   exists original revision h' session',
     nth_error (Session.thoughts session) (Z.to_nat (thoughtId - 1))
     = Some original
     /\ revisethought sessionId thoughtId newContent reason now h
        = Returned (revision, h')
     /\ revision
        = {| Revision.originalThoughtId := thoughtId;
             Revision.originalContent := Thought.content original;
             Revision.newContent := newContent;
             Revision.reason := reason;
             Revision.timestamp := now |}
     /\ get sessionId (sessions h') = Some session'
     /\ Session.thoughts session'
        = firstn (Z.to_nat (thoughtId - 1)) (Session.thoughts session)
          ++ revised_thought original newContent reason
          :: skipn (S (Z.to_nat (thoughtId - 1))) (Session.thoughts session)
     /\ Session.revisions session'
        = Session.revisions session ++ [revision])
  /\ (~ (1 <= thoughtId <= Z.of_nat (length (Session.thoughts session)))%Z ->
      revisethought sessionId thoughtId newContent reason now h
      = Threw (Error ("Thought " ++ string_of_Z thoughtId ++ " not found"))).
Proof.
  intros [_ Hall] Hget.
  destruct (get_kept _ _ _ Hall Hget) as (_ & Hids & _ & _). simpl in Hids.
  destruct (revise_numbered thoughtId newContent reason _ 1 Hids)
    as [Hin Hout].
  unfold revisethought, found. rewrite Hget. simpl. split.
  - intros Hrange. destruct Hin as (original & Hnth & Hrev); [lia|].
    change (Z.of_nat 1) with 1%Z in *. rewrite Hrev.
    do 4 eexists. split; [exact Hnth|]. split; [reflexivity|].
    split; [reflexivity|]. simpl. rewrite get_set.
    split; [reflexivity|]. simpl. auto.
  - intros Hrange. rewrite Hout; [reflexivity | lia].
Qed.

(** An instance: in the session of two thoughts, the thought 2 is revised,
    the thought 1 stays, and there is no thought 3. *)
Lemma revisethought_by_number_witness :
  kept_all working
  /\ get "s" (sessions working) = Some working_session
  /\ (1 <= 2 <= Z.of_nat (length (Session.thoughts working_session)))%Z
  /\ (exists h' session',
        revisethought "s" 2 "second thoughts" (Some "typo") 4 working
        = Returned ({| Revision.originalThoughtId := 2;
                       Revision.originalContent := "second";
                       Revision.newContent := "second thoughts";
                       Revision.reason := Some "typo";
                       Revision.timestamp := 4 |}, h')
        /\ get "s" (sessions h') = Some session'
        /\ Session.thoughts session'
           = [thought_at 1 "first" 1;
              revised_thought (thought_at 2 "second" 2) "second thoughts"
                (Some "typo")]
        /\ Session.revisions session'
           = [{| Revision.originalThoughtId := 2;
                 Revision.originalContent := "second";
                 Revision.newContent := "second thoughts";
                 Revision.reason := Some "typo";
                 Revision.timestamp := 4 |}])
  /\ ~ (1 <= 3 <= Z.of_nat (length (Session.thoughts working_session)))%Z
  /\ revisethought "s" 3 "third" None 5 working
     = Threw (Error "Thought 3 not found").
Proof.
  assert (Hin : (1 <= 2 <= Z.of_nat
                   (length (Session.thoughts working_session)))%Z)
    by (simpl; lia).
  assert (Hout : ~ (1 <= 3 <= Z.of_nat
                      (length (Session.thoughts working_session)))%Z)
    by (simpl; lia).
  split; [exact kept_all_working|]. split; [reflexivity|].
  split; [exact Hin|]. split; [|split; [exact Hout|]].
  - destruct (proj1 (revisethought_by_number "s" 2 "second thoughts"
                       (Some "typo") 4 working working_session
                       kept_all_working eq_refl) Hin)
      as (original & revision & h' & session' & Hnth & Hrun & Hrev & Hget
          & Hthoughts & Hrevs).
    injection Hnth as <-. subst revision.
    exists h', session'. repeat split; assumption.
  - exact (proj2 (revisethought_by_number "s" 3 "third" None 5 working
                    working_session kept_all_working eq_refl) Hout).
Defined.

(** X28.  A call of the tool [sequentialthinking] works on the session it
    names when this session exists, and leaves the handler as it is.  In
    every other case it stores a session just created, with no thought and
    10 as [totalThoughts], under the id asked for, or under
    [session_N] for the next [N] when none is given; if a session was
    stored under that id, it is replaced.  No other session is touched. *)
Theorem sequentialthinking_session_found (sessionId : option string) (now : Z)
  (h : handler) :
  (forall s session,
     sessionId = Some s ->
     s <> "" ->
     get s (sessions h) = Some session ->
     sequentialthinking_session sessionId now h = Returned (session, h))
  /\ ((forall s, sessionId = Some s ->
                 s = "" \/ get s (sessions h) = None) ->
      exists id h',
        sequentialthinking_session sessionId now h
        = Returned (fresh id now, h')
        /\ id = match sessionId with
                | Some (String _ _ as s) => s
                | _ => ("session_"
                        ++ string_of_nat (S (sessionCounter h)))%string
                end
        /\ get id (sessions h') = Some (fresh id now)
        /\ forall k, k <> id ->
                     get k (sessions h') = get k (sessions h)).
Proof.
  unfold sequentialthinking_session, getSession, found. split.
  - intros s session -> Hs Hget. rewrite Hget.
    destruct s as [|c s]; [contradiction|]. reflexivity.
  - intros Hnew.
    assert (Hrun : sequentialthinking_session sessionId now h
                   = Returned (createSession sessionId now h)).
    { unfold sequentialthinking_session.
      destruct sessionId as [s|]; [|reflexivity].
      destruct (Hnew s eq_refl) as [-> | ->]; [reflexivity|].
      now rewrite andb_false_r. }
    fold (found) in Hrun. unfold sequentialthinking_session in Hrun.
    unfold getSession, found in Hrun. rewrite Hrun.
    unfold createSession.
    destruct sessionId as [[|c s]|]; simpl;
      do 2 eexists; (split; [reflexivity|]); (split; [reflexivity|]); simpl;
      (split; [apply get_set | intros k Hk; now apply get_set_other]).
Qed.

Lemma sequentialthinking_session_found_witness :
  sequentialthinking_session None 7
    (snd (createSession (Some "session_1") 0 constructor))
  = Returned (fresh "session_1" 7,
              {| sessions := [("session_1", fresh "session_1" 7)];
                 sessionCounter := 1 |})
  /\ sequentialthinking_session (Some "session_1") 7
       (snd (createSession (Some "session_1") 0 constructor))
     = Returned (fresh "session_1" 0,
                 snd (createSession (Some "session_1") 0 constructor)).
Proof.
  split; [reflexivity|].
  apply (proj1 (sequentialthinking_session_found (Some "session_1") 7 _)
           "session_1" (fresh "session_1" 0) eq_refl);
    [discriminate | reflexivity].
Defined.

(** X29.  [deleteSession] tells whether the session was there, and takes
    out this session only.  Afterwards the session is not found: [addThought],
    [revisethought], [branchThinking], [adjustTotalThoughts] and
    [getProgress] on its id throw [Session ... not found]. *)
Theorem deleteSession_forgets (percent : nat -> Z -> Z) (sessionId : string)
  (h : handler) :
  kept_all h ->
  let h' := snd (deleteSession sessionId h) in
  fst (deleteSession sessionId h)
  = is_some (get sessionId (sessions h))
  /\ (forall k, k <> sessionId ->
                get k (sessions h') = get k (sessions h))
  /\ (forall thoughtData now,
        addThought sessionId thoughtData now h'
        = Threw (Error ("Session " ++ sessionId ++ " not found")))
  /\ (forall thoughtId newContent reason now,
        revisethought sessionId thoughtId newContent reason now h'
        = Threw (Error ("Session " ++ sessionId ++ " not found")))
  /\ (forall fromThoughtId branchName initialThought now later,
        branchThinking sessionId fromThoughtId branchName initialThought
          now later h'
        = Threw (Error ("Session " ++ sessionId ++ " not found")))
  /\ (forall newTotal reason,
        adjustTotalThoughts sessionId newTotal reason h'
        = Threw (Error ("Session " ++ sessionId ++ " not found")))
  /\ (forall now,
        getProgress percent sessionId now h'
        = Threw (Error ("Session " ++ sessionId ++ " not found"))).
Proof.
  intros [Hkeys Hall] h'.
  destruct (delete_entries sessionId _ Hkeys Hall)
    as (_ & _ & Hgone & Hothers & Hexisted & _).
  assert (Hsessions : sessions h' = snd (delete sessionId (sessions h))).
  { subst h'. unfold deleteSession.
    now destruct (delete sessionId (sessions h)). }
  assert (Hfound : found sessionId h'
                   = Threw (Error ("Session " ++ sessionId ++ " not found"))).
  { unfold found. now rewrite Hsessions, Hgone. }
  split; [|split; [|repeat split]].
  - unfold deleteSession, is_some. rewrite <- Hexisted.
    now destruct (delete sessionId (sessions h)).
  - intros k Hk. rewrite Hsessions. now apply Hothers.
  - intros. unfold addThought. now rewrite Hfound.
  - intros. unfold revisethought. now rewrite Hfound.
  - intros. unfold branchThinking. now rewrite Hfound.
  - intros. unfold adjustTotalThoughts. now rewrite Hfound.
  - intros. unfold getProgress, getSession. now rewrite Hfound.
Qed.

Lemma deleteSession_forgets_witness :
  kept_all (snd (createSession (Some "s") 0 constructor))
  /\ fst (deleteSession "s"
            (snd (createSession (Some "s") 0 constructor)))
     = true
  /\ adjustTotalThoughts "s" 3 None
       (snd (deleteSession "s"
               (snd (createSession (Some "s") 0 constructor))))
     = Threw (Error "Session s not found").
Proof.
  assert (Hkept : kept_all
                    (snd (createSession (Some "s") 0 constructor)))
    by apply kept_all_createSession, kept_all_constructor.
  split; [exact Hkept|].
  pose proof (deleteSession_forgets (fun _ _ => 0%Z) "s" _ Hkept)
    as (Hexisted & _ & _ & _ & _ & Hadjust & _).
  split; [exact Hexisted | exact (Hadjust 3%Z None)].
Defined.

